(** * Financial news pipeline: deduplication, entity and impact merging, storage

    A shallow embedding of the article-processing pipeline
    (src/workflow.py and src/agents/*.py), of the similarity-index wrapper
    (src/vector_store.py) and of the database session (src/database.py),
    followed by the properties of the pipeline stated in the specification.

    Conventions of the embedding:
    - Python [str] is [string], one [ascii] per character. Slicing,
      [in], [replace] and comparison work on any characters; the case
      mapping and the word class of the regular expressions are those of
      Python on ASCII text ([PyStr.isascii]), and a property that depends
      on them is stated for ASCII text.
    - Python [float] confidences, scores and thresholds are rationals [Q];
      only comparisons and [1.0 - score] are ever computed on them.
    - An exception is its message [str(e)]; code that may raise returns
      [result].
    - The embedding model, the vector index, the NER tagger, the language
      model and the database engine are capabilities, the fields of [Env]. *)

From Stdlib Require Import Ascii String QArith Sorted.
From stdpp Require Import base option list strings gmap pretty.

Open Scope string_scope.
Open Scope list_scope.

(** ** Exceptions *)

Inductive result (A : Type) : Type :=
| Ok (a : A)
| Raise (msg : string).
Arguments Ok {A} a.
Arguments Raise {A} msg.

Definition rbind {A B} (r : result A) (k : A -> result B) : result B :=
  match r with
  | Ok a => k a
  | Raise m => Raise m
  end.

Notation "x <-! r ;; k" := (rbind r (fun x => k))
  (at level 100, r at next level, right associativity).

(** ** Python string operations used by the agents *)

Module PyStr.

Definition is_upper (c : ascii) : bool :=
  let n := N_of_ascii c in (65 <=? n)%N && (n <=? 90)%N.

Definition is_lower (c : ascii) : bool :=
  let n := N_of_ascii c in (97 <=? n)%N && (n <=? 122)%N.

Definition is_digit (c : ascii) : bool :=
  let n := N_of_ascii c in (48 <=? n)%N && (n <=? 57)%N.

(** [s.isascii()] *)
Definition isascii (s : string) : bool :=
  forallb (fun c => (N_of_ascii c <? 128)%N) (list_ascii_of_string s).

(** The case mapping of the ASCII letters; every other ASCII character is
    mapped to itself. *)
Definition lower_char (c : ascii) : ascii :=
  if is_upper c then ascii_of_N (N_of_ascii c + 32) else c.

Definition upper_char (c : ascii) : ascii :=
  if is_lower c then ascii_of_N (N_of_ascii c - 32) else c.

(** [s.lower()], for ASCII [s] *)
Fixpoint lower (s : string) : string :=
  match s with
  | EmptyString => EmptyString
  | String c t => String (lower_char c) (lower t)
  end.

(** [s.upper()], for ASCII [s] *)
Fixpoint upper (s : string) : string :=
  match s with
  | EmptyString => EmptyString
  | String c t => String (upper_char c) (upper t)
  end.

(** [hay.startswith(needle)] *)
Fixpoint startswith (needle hay : string) : bool :=
  match needle, hay with
  | EmptyString, _ => true
  | String a n', String b h' => if Ascii.eqb a b then startswith n' h' else false
  | String _ _, EmptyString => false
  end.

(** [needle in hay] *)
Fixpoint contains (needle hay : string) : bool :=
  startswith needle hay ||
  match hay with
  | EmptyString => false
  | String _ h' => contains needle h'
  end.

(** [s.replace(" ", "")] *)
Fixpoint remove_spaces (s : string) : string :=
  match s with
  | EmptyString => EmptyString
  | String c t => if Ascii.eqb c " "%char then remove_spaces t
                  else String c (remove_spaces t)
  end.

(** [s[:n]] *)
Fixpoint slice_to (n : nat) (s : string) : string :=
  match n, s with
  | O, _ => EmptyString
  | S _, EmptyString => EmptyString
  | S n', String c t => String c (slice_to n' t)
  end.

(** [sep.join(parts)] *)
Fixpoint join (sep : string) (parts : list string) : string :=
  match parts with
  | [] => EmptyString
  | [p] => p
  | p :: ps => p +:+ sep +:+ join sep ps
  end.

(** The class [\w] of the regular expressions, among ASCII characters. *)
Definition is_word_char (c : ascii) : bool :=
  is_upper c || is_lower c || is_digit c || Ascii.eqb c "_"%char.

Definition word_before (prev : option ascii) : bool :=
  match prev with Some c => is_word_char c | None => false end.

Definition word_after (s : string) : bool :=
  match s with String c _ => is_word_char c | EmptyString => false end.

(** [\b] between [prev] and the rest [s] of the subject. *)
Definition boundary (prev : option ascii) (s : string) : bool :=
  xorb (word_before prev) (word_after s).

(** The literal [lit] matched at the head of [s] under [re.IGNORECASE];
    returns the last character consumed and what is left of [s]. *)
Fixpoint match_literal_ci (prev : option ascii) (lit s : string)
  : option (option ascii * string) :=
  match lit, s with
  | EmptyString, _ => Some (prev, s)
  | String a lit', String b s' =>
      if Ascii.eqb (lower_char a) (lower_char b)
      then match_literal_ci (Some b) lit' s'
      else None
  | String _ _, EmptyString => None
  end.

(** [\b lit \b] anchored at the head of [s], [prev] being the character
    before it. *)
Definition match_word_here (prev : option ascii) (lit s : string) : bool :=
  boundary prev s &&
  match match_literal_ci prev lit s with
  | Some (last, rest) => boundary last rest
  | None => false
  end.

Fixpoint search_word_from (prev : option ascii) (lit s : string) : bool :=
  match_word_here prev lit s ||
  match s with
  | EmptyString => false
  | String c s' => search_word_from (Some c) lit s'
  end.

(** [re.search(r'\b' + re.escape(lit) + r'\b', s, re.IGNORECASE)] is
    not [None], for ASCII [lit] and [s]. *)
Definition search_word (lit s : string) : bool :=
  search_word_from None lit s.

End PyStr.

(** ** Data model (src/models.py) *)

Module Entity.
Record t := mk { text : string; type : string; confidence : Q }.
Definition with_confidence (c : Q) (e : t) : t := mk (text e) (type e) c.
End Entity.

Module StockImpact.
Record t := mk {
  symbol : string;
  confidence : Q;
  type : string;
  reasoning : option string
}.
End StockImpact.

Module NewsArticle.
(** [published_at] holds the timestamp in ISO format, what
    [published_at.isoformat()] returns. *)
Record t := mk {
  article_id : string;
  title : string;
  content : string;
  source : string;
  published_at : string;
  url : option string
}.
End NewsArticle.

(** Values stored in [processing_metadata]. *)
Inductive MetaValue : Type :=
| MFloat (q : Q)
| MInt (n : nat)
| MBool (b : bool).

Module AgentState.
Record t := mk {
  article : NewsArticle.t;
  is_duplicate : bool;
  duplicate_of : option string;
  entities : list Entity.t;
  stock_impacts : list StockImpact.t;
  processing_metadata : gmap string MetaValue;
  error : option string
}.

(** [AgentState(article=article)]: every other field at its default. *)
Definition initial (a : NewsArticle.t) : t :=
  mk a false None [] [] ∅ None.

Definition set_is_duplicate (b : bool) (s : t) : t :=
  mk (article s) b (duplicate_of s) (entities s) (stock_impacts s)
     (processing_metadata s) (error s).
Definition set_duplicate_of (d : option string) (s : t) : t :=
  mk (article s) (is_duplicate s) d (entities s) (stock_impacts s)
     (processing_metadata s) (error s).
Definition set_entities (es : list Entity.t) (s : t) : t :=
  mk (article s) (is_duplicate s) (duplicate_of s) es (stock_impacts s)
     (processing_metadata s) (error s).
Definition set_stock_impacts (imps : list StockImpact.t) (s : t) : t :=
  mk (article s) (is_duplicate s) (duplicate_of s) (entities s) imps
     (processing_metadata s) (error s).
Definition set_metadata (k : string) (v : MetaValue) (s : t) : t :=
  mk (article s) (is_duplicate s) (duplicate_of s) (entities s)
     (stock_impacts s) (<[k := v]> (processing_metadata s)) (error s).
Definition set_error (m : string) (s : t) : t :=
  mk (article s) (is_duplicate s) (duplicate_of s) (entities s)
     (stock_impacts s) (processing_metadata s) (Some m).
End AgentState.

(** The three tables of the database, one constructor per ORM class; the
    surrogate keys and the creation timestamps, filled by the engine, are
    left out. *)
Inductive Row : Type :=
| NewsArticleDB (article_id title content source published_at : string)
                (url : option string) (is_duplicate : bool)
                (duplicate_of : option string)
| ExtractedEntityDB (article_id entity_text entity_type : string)
                    (confidence : Q)
| StockImpactDB (article_id stock_symbol : string) (confidence : Q)
                (impact_type : string) (reasoning : option string).

(** A document of the vector index. *)
Module Document.
Record t := mk { page_content : string; metadata : gmap string string }.
End Document.

Inductive Collection : Type := NewsCollection | EntityCollection.

(** ** Configuration (src/config.py) *)

Module Config.
(** [CONFIDENCE_LEVELS] *)
Definition direct : Q := 1.
Definition sector_high : Q := 8 # 10.
Definition sector_medium : Q := 6 # 10.
Definition regulatory : Q := 5 # 10.
Definition indirect : Q := 3 # 10.
End Config.

(** A parsed JSON value, what [JsonOutputParser] returns; an object holds
    the items of the [dict] in insertion order, one per key. *)
#[local] Unset Elimination Schemes.
Inductive Json : Type :=
| JNull
| JBool (b : bool)
| JInt (z : Z)
| JFloat (q : Q)
| JString (s : string)
| JArray (items : list Json)
| JObject (fields : list (string * Json)).
#[local] Set Elimination Schemes.

(** ** External capabilities *)

Record Env := {
  (** The float-valued names bound in the namespace of module
      [vector_store], where [find_duplicates] resolves the bare name
      [SIMILARITY_THRESHOLD]. *)
  vector_store_globals : gmap string Q;
  (** [Chroma.similarity_search_with_score(query, k)] over the documents
      of the news collection: documents with their distances, or the
      failure of the index or of the embedding model. *)
  similarity_search_with_score :
    gmap string Document.t -> string -> nat -> result (list (Document.t * Q));
  (** Whether [Chroma.add_documents] fails on this collection with these
      documents (embedding or index failure). *)
  add_documents_error :
    Collection -> gmap string Document.t -> list Document.t -> option string;
  (** The spaCy pipeline: the spans [doc.ents] as (text, label). *)
  nlp : string -> result (list (string * string));
  (** [extraction_prompt | llm | parser] invoked on title and content: the
      parsed JSON, whatever its shape. *)
  extraction_chain : string -> string -> result Json;
  (** [str(e)] of the [ValidationError] that [Entity(text=value, ...)]
      raises on a value that is no [str]. *)
  entity_validation_error : Json -> string;
  (** [impact_prompt | llm | parser] invoked on title, content, companies,
      sectors, regulators and events; each item of the answer comes with
      the outcome of [StockImpact( **item)]. *)
  impact_chain :
    string -> string -> string -> string -> string -> string ->
    result (list (result StockImpact.t));
  (** Whether the engine refuses to commit these pending rows on top of
      these committed rows, for a reason other than the constraints of
      the schema. *)
  commit_error : list Row -> list Row -> option string
}.

(** The namespace of [vector_store] as the module is written: it imports
    [config] and binds no float of its own. *)
Definition shipped_globals : gmap string Q := ∅.

Definition with_globals (g : gmap string Q) (env : Env) : Env :=
  {| vector_store_globals := g;
     similarity_search_with_score := similarity_search_with_score env;
     add_documents_error := add_documents_error env;
     nlp := nlp env;
     extraction_chain := extraction_chain env;
     entity_validation_error := entity_validation_error env;
     impact_chain := impact_chain env;
     commit_error := commit_error env |}.

(** [x > y] and [x >= y] on floats. *)
Definition Qgtb (x y : Q) : bool := negb (Qle_bool x y).
Definition Qgeb (x y : Q) : bool := Qle_bool y x.

Definition newline : string := String (ascii_of_nat 10) EmptyString.

(** ** The similarity index (src/vector_store.py) *)

Module VectorStoreManager.

(** The two Chroma collections, documents by id. *)
Record t := mk {
  news_collection : gmap string Document.t;
  entity_collection : gmap string Document.t
}.

Definition empty : t := mk ∅ ∅.

(** [collection.add_documents(docs, ids=ids)] *)
Definition add_documents (env : Env) (which : Collection)
    (coll : gmap string Document.t) (docs : list Document.t)
    (ids : list string) : result (gmap string Document.t) :=
  match add_documents_error env which coll docs with
  | Some msg => Raise msg
  | None => Ok (foldl (fun c p => <[p.1 := p.2]> c) coll (zip ids docs))
  end.

Definition article_document (article : NewsArticle.t) : Document.t :=
  Document.mk
    (NewsArticle.title article +:+ newline +:+ newline +:+
     NewsArticle.content article)
    (<["article_id" := NewsArticle.article_id article]>
     (<["title" := NewsArticle.title article]>
     (<["source" := NewsArticle.source article]>
     (<["published_at" := NewsArticle.published_at article]>
     (<["url" := default "" (NewsArticle.url article)]> ∅))))).

Definition entity_document (article : NewsArticle.t) (entity : string)
  : Document.t :=
  Document.mk entity
    (<["article_id" := NewsArticle.article_id article]>
     (<["entity" := entity]> ∅)).

Definition entity_ids (article : NewsArticle.t) (n : nat) : list string :=
  map (fun i : nat => NewsArticle.article_id article +:+ "_" +:+ pretty i)
      (seq 0 n).

(** [add_article]: the index after the call (the news document stays
    when the entity documents fail) and the outcome; an exception is
    logged and raised again. *)
Definition add_article (env : Env) (vs : t) (article : NewsArticle.t)
    (entities : list string) : t * result unit :=
  match add_documents env NewsCollection (news_collection vs)
          [article_document article] [NewsArticle.article_id article] with
  | Raise msg => (vs, Raise msg)
  | Ok news =>
      match entities with
      | [] => (mk news (entity_collection vs), Ok tt)
      | _ :: _ =>
          match add_documents env EntityCollection (entity_collection vs)
                  (map (entity_document article) entities)
                  (entity_ids article (length entities)) with
          | Raise msg => (mk news (entity_collection vs), Raise msg)
          | Ok ents => (mk news ents, Ok tt)
          end
      end
  end.

(** The list comprehension of [find_duplicates]; [doc.metadata["article_id"]]
    raises [KeyError] on a document without that key, and is only
    evaluated once the similarity has passed the threshold. *)
Fixpoint select_duplicates (threshold : Q) (own_id : string)
    (results : list (Document.t * Q)) : result (list (string * Q)) :=
  match results with
  | [] => Ok []
  | (doc, score) :: rest =>
      if Qgeb (1 - score)%Q threshold then
        match Document.metadata doc !! "article_id" with
        | None => Raise "'article_id'"
        | Some id =>
            if negb (String.eqb id own_id) then
              tl <-! select_duplicates threshold own_id rest ;;
              Ok ((id, (1 - score)%Q) :: tl)
            else select_duplicates threshold own_id rest
        end
      else select_duplicates threshold own_id rest
  end.

(** [find_duplicates(article, threshold)]; the default threshold is read
    before the [try], the query and the comprehension are inside it. *)
Definition find_duplicates (env : Env) (vs : t) (article : NewsArticle.t)
    (threshold : option Q) : result (list (string * Q)) :=
  threshold <-! match threshold with
                | Some t => Ok t
                | None =>
                    match vector_store_globals env !! "SIMILARITY_THRESHOLD" with
                    | Some t => Ok t
                    | None => Raise "name 'SIMILARITY_THRESHOLD' is not defined"
                    end
                end ;;
  match (results <-! similarity_search_with_score env (news_collection vs)
                       (NewsArticle.title article +:+ newline +:+ newline +:+
                        NewsArticle.content article) 5 ;;
         select_duplicates threshold (NewsArticle.article_id article) results)
  with
  | Ok duplicates => Ok duplicates
  | Raise _ => Ok []
  end.

End VectorStoreManager.

(** ** The database session (src/database.py) *)

Module Database.

(** A session: the committed rows and the rows added since. *)
Record Session := mkSession { committed : list Row; pending : list Row }.

Definition article_ids (rows : list Row) : list string :=
  omap (fun r => match r with
                 | NewsArticleDB id _ _ _ _ _ _ _ => Some id
                 | _ => None
                 end) rows.

(** The [unique=True] of [NewsArticleDB.article_id]. *)
Definition unique_violation (committed pending : list Row) : bool :=
  negb (bool_decide (NoDup (article_ids (committed ++ pending)))).

(** [session.add(row)] *)
Definition add (row : Row) (s : Session) : Session :=
  mkSession (committed s) (pending s ++ [row]).

(** [session.commit()]: the pending rows become committed together, or
    the commit raises and none does. *)
Definition commit (env : Env) (s : Session) : Session * result unit :=
  if unique_violation (committed s) (pending s)
  then (s, Raise "UNIQUE constraint failed: news_articles.article_id")
  else match commit_error env (committed s) (pending s) with
       | Some msg => (s, Raise msg)
       | None => (mkSession (committed s ++ pending s) [], Ok tt)
       end.

(** [session.rollback()] *)
Definition rollback (s : Session) : Session := mkSession (committed s) [].

(** [with get_db_session() as session: body]: commits after the body,
    rolls back and raises again on any exception. Returns the rows
    committed when the block is left. *)
Definition get_db_session {A} (env : Env) (db : list Row)
    (body : Session -> Session * result A) : list Row * result A :=
  let '(s1, r) := body (mkSession db []) in
  match r with
  | Ok a =>
      let '(s2, c) := commit env s1 in
      match c with
      | Ok _ => (committed s2, Ok a)
      | Raise msg => (committed (rollback s2), Raise msg)
      end
  | Raise msg => (committed (rollback s1), Raise msg)
  end.

End Database.

(** ** Deduplication stage (src/agents/deduplication_agent.py) *)

Module DeduplicationAgent.

Definition process (env : Env) (vs : VectorStoreManager.t)
    (state : AgentState.t) : AgentState.t :=
  match VectorStoreManager.find_duplicates env vs
          (AgentState.article state) None with
  | Ok ((duplicate_id, similarity) :: _) =>
      AgentState.set_metadata "duplicate_similarity" (MFloat similarity)
        (AgentState.set_duplicate_of (Some duplicate_id)
          (AgentState.set_is_duplicate true state))
  | Ok [] => AgentState.set_is_duplicate false state
  | Raise msg => AgentState.set_error msg state
  end.

End DeduplicationAgent.

(** ** Python dictionaries whose order matters

    A [dict] keeps its keys in insertion order; assigning to a key that is
    present keeps the key where it is. *)

Module PyDict.

Definition t (V : Type) : Type := list (string * V).

Fixpoint get {V} (k : string) (d : t V) : option V :=
  match d with
  | [] => None
  | (k', v) :: rest => if String.eqb k' k then Some v else get k rest
  end.

(** [d[k] = v] *)
Fixpoint set {V} (k : string) (v : V) (d : t V) : t V :=
  match d with
  | [] => [(k, v)]
  | (k', v') :: rest =>
      if String.eqb k' k then (k', v) :: rest else (k', v') :: set k v rest
  end.

(** [list(d.values())] *)
Definition values {V} (d : t V) : list V := map snd d.

Definition keys {V} (d : t V) : list string := map fst d.

End PyDict.

(** ** Entity extraction stage (src/agents/entity_extraction_agent.py) *)

Module EntityExtractionAgent.

Definition sector_keywords : PyDict.t (list string) :=
  [ ("Banking", ["bank"; "banking"; "credit"; "loan"; "mortgage"]);
    ("Technology", ["tech"; "software"; "ai"; "cloud"; "digital"]);
    ("Pharmaceutical", ["pharma"; "drug"; "medicine"; "healthcare"]);
    ("Energy", ["oil"; "gas"; "energy"; "power"; "renewable"]);
    ("Financial Services",
      ["finance"; "investment"; "insurance"; "asset management"]);
    ("Automotive", ["auto"; "car"; "vehicle"; "automotive"]);
    ("Telecommunications", ["telecom"; "mobile"; "network"; "5g"]);
    ("Retail", ["retail"; "consumer"; "e-commerce"; "shopping"]) ].

Definition regulator_keywords : list string :=
  [ "RBI"; "Reserve Bank"; "SEBI"; "SEC"; "Federal Reserve"; "Fed";
    "Central Bank"; "Monetary Authority"; "Financial Authority" ].

Definition entity_of_span (span : string * string) : option Entity.t :=
  if String.eqb span.2 "ORG" then Some (Entity.mk span.1 "COMPANY" (8 # 10))
  else if String.eqb span.2 "PERSON"
       then Some (Entity.mk span.1 "PERSON" (8 # 10))
       else None.

Definition extract_with_spacy (env : Env) (text : string)
  : result (list Entity.t) :=
  ents <-! nlp env text ;; Ok (omap entity_of_span ents).

Definition extract_sectors (text : string) : list Entity.t :=
  let text_lower := PyStr.lower text in
  omap (fun entry : string * list string =>
          if existsb (fun keyword => PyStr.contains keyword text_lower) entry.2
          then Some (Entity.mk entry.1 "SECTOR" (7 # 10))
          else None)
       sector_keywords.

Definition extract_regulators (text : string) : list Entity.t :=
  omap (fun regulator =>
          if PyStr.search_word regulator text
          then Some (Entity.mk regulator "REGULATOR" (9 # 10))
          else None)
       regulator_keywords.

Definition empty_extraction : Json :=
  JObject [ ("companies", JArray []); ("sectors", JArray []);
            ("regulators", JArray []); ("people", JArray []);
            ("events", JArray []) ].

Definition extract_with_llm (env : Env) (title content : string) : Json :=
  match extraction_chain env title content with
  | Ok result => result
  | Raise _ => empty_extraction
  end.

(** *** The merge, on the heap

    [seen] and [merged] hold references to the entities of the input
    list, and the merge assigns to the [confidence] of an entity that
    [merged] already holds: entities live in a heap and the lists hold
    locations. *)

Definition key (e : Entity.t) : string * string :=
  (PyStr.lower (Entity.text e), Entity.type e).

Record MergeState := mkMerge {
  heap : gmap nat Entity.t;
  seen : gmap (string * string) nat;
  merged : list nat
}.

(** One turn of the loop; a list only holds locations of the heap, so
    the two [None] cases of the heap do not arise. *)
Definition merge_step (st : MergeState) (l : nat) : MergeState :=
  match heap st !! l with
  | None => st
  | Some entity =>
      match seen st !! key entity with
      | None =>
          mkMerge (heap st) (<[key entity := l]> (seen st)) (merged st ++ [l])
      | Some l0 =>
          match heap st !! l0 with
          | None => st
          | Some first =>
              if Qgtb (Entity.confidence entity) (Entity.confidence first)
              then mkMerge
                     (<[l0 := Entity.with_confidence (Entity.confidence entity)
                                first]> (heap st))
                     (seen st) (merged st)
              else st
          end
      end
  end.

Definition merge_entities (h : gmap nat Entity.t) (entities : list nat)
  : gmap nat Entity.t * list nat :=
  let st := foldl merge_step (mkMerge h ∅ []) entities in
  (heap st, merged st).

(** The entities a list of locations denotes. *)
Definition deref (h : gmap nat Entity.t) (locs : list nat) : list Entity.t :=
  omap (fun l => h !! l) locs.

(** The merge of freshly built entities, as [process] calls it: each
    element of the list is an object of its own. *)
Definition merge_fresh (entities : list Entity.t) : list Entity.t :=
  let '(h, merged) := merge_entities (map_seq 0 entities)
                                     (seq 0 (length entities)) in
  deref h merged.

(** [llm_entities.get(k, [])]: [AttributeError] on anything but a dict. *)
Definition llm_get (k : string) (llm_entities : Json) : result Json :=
  match llm_entities with
  | JObject fields => Ok (default (JArray []) (PyDict.get k fields))
  | JNull => Raise "'NoneType' object has no attribute 'get'"
  | JBool _ => Raise "'bool' object has no attribute 'get'"
  | JInt _ => Raise "'int' object has no attribute 'get'"
  | JFloat _ => Raise "'float' object has no attribute 'get'"
  | JString _ => Raise "'str' object has no attribute 'get'"
  | JArray _ => Raise "'list' object has no attribute 'get'"
  end.

(** [for x in value]: the elements of a list, the characters of a string,
    the keys of a dict; [TypeError] on anything else. *)
Definition iterate (value : Json) : result (list Json) :=
  match value with
  | JArray items => Ok items
  | JString s =>
      Ok (map (fun c => JString (String c EmptyString)) (list_ascii_of_string s))
  | JObject fields => Ok (map (fun field => JString field.1) fields)
  | JNull => Raise "'NoneType' object is not iterable"
  | JBool _ => Raise "'bool' object is not iterable"
  | JInt _ => Raise "'int' object is not iterable"
  | JFloat _ => Raise "'float' object is not iterable"
  end.

(** [Entity(text=value, type=type, confidence=confidence)]: the model
    validates [text] as a [str]. *)
Definition build_entity (env : Env) (type : string) (confidence : Q)
    (value : Json) : result Entity.t :=
  match value with
  | JString text => Ok (Entity.mk text type confidence)
  | _ => Raise (entity_validation_error env value)
  end.

Fixpoint build_entities (env : Env) (type : string) (confidence : Q)
    (values : list Json) : result (list Entity.t) :=
  match values with
  | [] => Ok []
  | value :: rest =>
      e <-! build_entity env type confidence value ;;
      tl <-! build_entities env type confidence rest ;;
      Ok (e :: tl)
  end.

(** One loop of [process] over the answer of the language model. *)
Definition entities_of_field (env : Env) (llm_entities : Json)
    (k type : string) (confidence : Q) : result (list Entity.t) :=
  value <-! llm_get k llm_entities ;;
  values <-! iterate value ;;
  build_entities env type confidence values.

(** The five loops of [process], in order; the first exception ends them. *)
Definition entities_of_llm (env : Env) (llm_entities : Json)
  : result (list Entity.t) :=
  companies <-! entities_of_field env llm_entities "companies" "COMPANY" (9 # 10) ;;
  sectors <-! entities_of_field env llm_entities "sectors" "SECTOR" (9 # 10) ;;
  regulators <-!
    entities_of_field env llm_entities "regulators" "REGULATOR" (95 # 100) ;;
  people <-! entities_of_field env llm_entities "people" "PERSON" (85 # 100) ;;
  events <-! entities_of_field env llm_entities "events" "EVENT" (8 # 10) ;;
  Ok (companies ++ sectors ++ regulators ++ people ++ events).

(** [process]: an exception of the tagger or of the loops over the answer
    of the language model reaches the handler of the function, which
    records it in the state it was given. *)
Definition process (env : Env) (state : AgentState.t) : AgentState.t :=
  let article := AgentState.article state in
  if AgentState.is_duplicate state then state
  else
    let full_text :=
      NewsArticle.title article +:+ " " +:+ NewsArticle.content article in
    match extract_with_spacy env full_text with
    | Raise msg => AgentState.set_error msg state
    | Ok spacy =>
        let llm_entities :=
          extract_with_llm env (NewsArticle.title article)
                               (NewsArticle.content article) in
        match entities_of_llm env llm_entities with
        | Raise msg => AgentState.set_error msg state
        | Ok llm =>
            let entities :=
              spacy ++ extract_sectors full_text ++ extract_regulators full_text
              ++ llm in
            let entities := merge_fresh entities in
            AgentState.set_metadata "entity_count" (MInt (length entities))
              (AgentState.set_entities entities state)
        end
    end.

End EntityExtractionAgent.

(** ** Impact analysis stage (src/agents/stock_impact_agent.py) *)

Module StockImpactAgent.

Definition company_symbols : PyDict.t string :=
  [ ("HDFC Bank", "HDFCBANK"); ("ICICI Bank", "ICICIBANK");
    ("State Bank", "SBIN"); ("Reliance", "RELIANCE"); ("TCS", "TCS");
    ("Infosys", "INFY"); ("Wipro", "WIPRO");
    ("Asian Paints", "ASIANPAINT"); ("ITC", "ITC"); ("Larsen", "LT") ].

Definition sector_stocks : PyDict.t (list string) :=
  [ ("Banking", ["HDFCBANK"; "ICICIBANK"; "SBIN"; "AXISBANK"; "KOTAKBANK"]);
    ("Technology", ["TCS"; "INFY"; "WIPRO"; "TECHM"; "HCLTECH"]);
    ("Pharmaceutical", ["SUNPHARMA"; "DRREDDY"; "CIPLA"; "DIVISLAB"]);
    ("Energy", ["RELIANCE"; "ONGC"; "BPCL"; "IOC"]);
    ("Financial Services",
      ["BAJFINANCE"; "BAJAJFINSV"; "HDFCLIFE"; "SBILIFE"]);
    ("Automotive", ["MARUTI"; "M&M"; "TATAMOTORS"; "HEROMOTOCO"]) ].

(** The test of the loop of [map_company_to_symbol]. *)
Definition name_matches (company name : string) : bool :=
  PyStr.contains (PyStr.lower name) (PyStr.lower company) ||
  PyStr.contains (PyStr.lower company) (PyStr.lower name).

(** The value [map_company_to_symbol] returns when the loop ends
    without a match. *)
Definition derived_symbol (company : string) : string :=
  PyStr.slice_to 10 (PyStr.remove_spaces (PyStr.upper company)).

Fixpoint lookup_symbol (company : string) (table : PyDict.t string)
  : option string :=
  match table with
  | [] => None
  | (name, symbol) :: rest =>
      if name_matches company name then Some symbol
      else lookup_symbol company rest
  end.

Definition map_company_to_symbol (company : string) : string :=
  match lookup_symbol company company_symbols with
  | Some symbol => symbol
  | None => derived_symbol company
  end.

Definition direct_impact (entity : Entity.t) : StockImpact.t :=
  StockImpact.mk (map_company_to_symbol (Entity.text entity))
    Config.direct "direct"
    (Some ("Company '" +:+ Entity.text entity +:+ "' directly mentioned")).

Definition has_type (ty : string) (e : Entity.t) : bool :=
  String.eqb (Entity.type e) ty.

Definition get_direct_impacts (entities : list Entity.t)
  : list StockImpact.t :=
  map direct_impact (filter (fun e => has_type "COMPANY" e) entities).

Definition get_sector_impacts (entities : list Entity.t)
  : list StockImpact.t :=
  concat
    (map (fun entity =>
            let sector := Entity.text entity in
            match PyDict.get sector sector_stocks with
            | Some symbols =>
                map (fun symbol =>
                       StockImpact.mk symbol Config.sector_high "sector"
                         (Some ("Sector '" +:+ sector +:+ "' impacted")))
                    symbols
            | None => []
            end)
         (filter (fun e => has_type "SECTOR" e) entities)).

Definition get_regulatory_impacts (entities : list Entity.t)
  : list StockImpact.t :=
  match filter (fun e => has_type "REGULATOR" e) entities with
  | [] => []
  | regulator :: _ =>
      concat
        (map (fun sector =>
                match PyDict.get (Entity.text sector) sector_stocks with
                | Some symbols =>
                    map (fun symbol =>
                           StockImpact.mk symbol Config.regulatory "regulatory"
                             (Some ("Regulatory action by " +:+
                                    Entity.text regulator +:+ " affecting " +:+
                                    Entity.text sector)))
                        symbols
                | None => []
                end)
             (filter (fun e => has_type "SECTOR" e) entities))
  end.

(** [", ".join(xs) if xs else "None"] *)
Definition join_or_none (xs : list string) : string :=
  match xs with
  | [] => "None"
  | _ :: _ => PyStr.join ", " xs
  end.

Definition texts_of (ty : string) (entities : list Entity.t) : list string :=
  map Entity.text (filter (fun e => has_type ty e) entities).

(** [[StockImpact( **item) for item in result]]: raises at the first
    item that does not validate. *)
Fixpoint validate_all (items : list (result StockImpact.t))
  : result (list StockImpact.t) :=
  match items with
  | [] => Ok []
  | item :: rest =>
      i <-! item ;; tl <-! validate_all rest ;; Ok (i :: tl)
  end.

Definition analyze_with_llm (env : Env) (title content : string)
    (entities : list Entity.t) : list StockImpact.t :=
  match (items <-! impact_chain env title content
                     (join_or_none (texts_of "COMPANY" entities))
                     (join_or_none (texts_of "SECTOR" entities))
                     (join_or_none (texts_of "REGULATOR" entities))
                     (join_or_none (texts_of "EVENT" entities)) ;;
         validate_all items)
  with
  | Ok impacts => impacts
  | Raise _ => []
  end.

Definition merge_step (seen : PyDict.t StockImpact.t)
    (impact : StockImpact.t) : PyDict.t StockImpact.t :=
  match PyDict.get (StockImpact.symbol impact) seen with
  | None => PyDict.set (StockImpact.symbol impact) impact seen
  | Some kept =>
      if Qgtb (StockImpact.confidence impact) (StockImpact.confidence kept)
      then PyDict.set (StockImpact.symbol impact) impact seen
      else seen
  end.

Definition merge_impacts (impacts : list StockImpact.t)
  : list StockImpact.t :=
  PyDict.values (foldl merge_step [] impacts).

Definition process (env : Env) (state : AgentState.t) : AgentState.t :=
  let article := AgentState.article state in
  if AgentState.is_duplicate state then state
  else
    let entities := AgentState.entities state in
    let impacts := (
      get_direct_impacts entities ++ get_sector_impacts entities
      ++ get_regulatory_impacts entities
      ++ analyze_with_llm env (NewsArticle.title article)
           (NewsArticle.content article) entities)%list in
    let impacts := merge_impacts impacts in
    AgentState.set_metadata "impact_count" (MInt (length impacts))
      (AgentState.set_stock_impacts impacts state).

End StockImpactAgent.

(** ** Storage stage (src/agents/storage_agent.py) *)

Record World := mkWorld {
  vector_store : VectorStoreManager.t;
  database : list Row
}.

Module StorageAgent.

Definition db_article (state : AgentState.t) : Row :=
  let article := AgentState.article state in
  NewsArticleDB (NewsArticle.article_id article) (NewsArticle.title article)
    (NewsArticle.content article) (NewsArticle.source article)
    (NewsArticle.published_at article) (NewsArticle.url article)
    (AgentState.is_duplicate state) (AgentState.duplicate_of state).

Definition db_entity (article_id : string) (entity : Entity.t) : Row :=
  ExtractedEntityDB article_id (Entity.text entity) (Entity.type entity)
    (Entity.confidence entity).

Definition db_impact (article_id : string) (impact : StockImpact.t) : Row :=
  StockImpactDB article_id (StockImpact.symbol impact)
    (StockImpact.confidence impact) (StockImpact.type impact)
    (StockImpact.reasoning impact).

(** The body of the [with] block: the rows are added to the session in
    this order, then the session is committed. *)
Definition store_rows (env : Env) (state : AgentState.t)
    (session : Database.Session) : Database.Session * result unit :=
  let article_id := NewsArticle.article_id (AgentState.article state) in
  let session := Database.add (db_article state) session in
  let session :=
    if negb (AgentState.is_duplicate state) then
      let session :=
        foldl (fun s entity => Database.add (db_entity article_id entity) s)
              session (AgentState.entities state) in
      foldl (fun s impact => Database.add (db_impact article_id impact) s)
            session (AgentState.stock_impacts state)
    else session in
  Database.commit env session.

Definition failed (msg : string) (state : AgentState.t) : AgentState.t :=
  AgentState.set_metadata "stored" (MBool false)
    (AgentState.set_error msg state).

Definition process (env : Env) (w : World) (state : AgentState.t)
  : AgentState.t * World :=
  let '(db, r) := Database.get_db_session env (database w)
                    (store_rows env state) in
  match r with
  | Raise msg => (failed msg state, mkWorld (vector_store w) db)
  | Ok _ =>
      if negb (AgentState.is_duplicate state) then
        let entity_texts := map Entity.text (AgentState.entities state) in
        let '(vs, a) := VectorStoreManager.add_article env (vector_store w)
                          (AgentState.article state) entity_texts in
        match a with
        | Raise msg => (failed msg state, mkWorld vs db)
        | Ok _ =>
            (AgentState.set_metadata "stored" (MBool true) state,
             mkWorld vs db)
        end
      else (AgentState.set_metadata "stored" (MBool true) state,
            mkWorld (vector_store w) db)
  end.

End StorageAgent.

(** ** The pipeline (src/workflow.py) *)

Module NewsProcessingWorkflow.

Definition process_article (env : Env) (w : World) (article : NewsArticle.t)
  : AgentState.t * World :=
  let initial_state := AgentState.initial article in
  let s1 := DeduplicationAgent.process env (vector_store w) initial_state in
  let s2 := EntityExtractionAgent.process env s1 in
  let s3 := StockImpactAgent.process env s2 in
  StorageAgent.process env w s3.

End NewsProcessingWorkflow.

(** ** The read and delete paths of the similarity index (src/vector_store.py) *)

(** Capabilities of the read paths: the similarity search without scores,
    the deletion of the index, the query chain, the order of the engine on
    timestamps, the clock and the rendering of an HTTP exception. *)
Record ReadEnv := {
  (** [Chroma.similarity_search(query, k, filter)] over the documents of a
      collection. *)
  similarity_search :
    gmap string Document.t -> string -> nat -> option (gmap string string) ->
    result (list Document.t);
  (** Whether [Chroma.delete(ids)] fails on this collection. *)
  delete_error : gmap string Document.t -> list string -> option string;
  (** [query_prompt | llm | parser] invoked on the query: the parsed JSON. *)
  query_chain : string -> result Json;
  (** [published_at <= bound] as the engine decides it. *)
  timestamp_le : string -> string -> bool;
  (** The seconds [process_query] measures around the retrieval. *)
  elapsed_seconds : Q;
  (** [str(HTTPException(status_code, detail))] *)
  http_exception_str : nat -> string -> string
}.

Module VectorStoreReads.

(** [[doc.metadata["article_id"] for doc in docs]] *)
Fixpoint article_ids_of (docs : list Document.t) : result (list string) :=
  match docs with
  | [] => Ok []
  | doc :: rest =>
      match Document.metadata doc !! "article_id" with
      | None => Raise "'article_id'"
      | Some id => tl <-! article_ids_of rest ;; Ok (id :: tl)
      end
  end.

Definition search_articles (renv : ReadEnv) (vs : VectorStoreManager.t)
    (query : string) (k : nat) (filter_dict : option (gmap string string))
  : list Document.t :=
  match similarity_search renv (VectorStoreManager.news_collection vs)
          query k filter_dict with
  | Ok results => results
  | Raise _ => []
  end.

Definition search_by_entity (renv : ReadEnv) (vs : VectorStoreManager.t)
    (entity : string) (k : nat) : list string :=
  match (results <-! similarity_search renv
                       (VectorStoreManager.entity_collection vs) entity k None ;;
         article_ids_of results) with
  | Ok ids => ids
  | Raise _ => []
  end.

(** [delete_article]: only the news collection is asked to delete; a
    failure is logged and the index stays as it was. *)
Definition delete_article (renv : ReadEnv) (vs : VectorStoreManager.t)
    (article_id : string) : VectorStoreManager.t :=
  match delete_error renv (VectorStoreManager.news_collection vs) [article_id] with
  | Some _ => vs
  | None =>
      VectorStoreManager.mk
        (delete article_id (VectorStoreManager.news_collection vs))
        (VectorStoreManager.entity_collection vs)
  end.

End VectorStoreReads.

(** ** The read model (src/models.py) *)

Module ProcessedArticle.
Record t := mk {
  article_id : string;
  title : string;
  content : string;
  source : string;
  published_at : string;
  url : option string;
  is_duplicate : bool;
  duplicate_of : option string;
  entities : list Entity.t;
  stock_impacts : list StockImpact.t;
  processing_metadata : gmap string MetaValue
}.
End ProcessedArticle.

Module QueryRequest.
Record t := mk {
  query : string;
  max_results : nat;
  include_sector_news : bool;
  date_from : option string;
  date_to : option string
}.
End QueryRequest.

Module QueryResponse.
Record t := mk {
  query : string;
  results : list ProcessedArticle.t;
  total_results : nat;
  processing_time : Q;
  expanded_entities : list string
}.
End QueryResponse.

(** ** The query agent (src/agents/query_agent.py) *)

Module QueryAgent.

(** [j.get(k)]: [None] for a missing key, [AttributeError] on anything
    but a dict. *)
Definition py_get (j : Json) (k : string) : result Json :=
  match j with
  | JObject fields => Ok (default JNull (PyDict.get k fields))
  | JNull => Raise "'NoneType' object has no attribute 'get'"
  | JBool _ => Raise "'bool' object has no attribute 'get'"
  | JInt _ => Raise "'int' object has no attribute 'get'"
  | JFloat _ => Raise "'float' object has no attribute 'get'"
  | JString _ => Raise "'str' object has no attribute 'get'"
  | JArray _ => Raise "'list' object has no attribute 'get'"
  end.

(** The truth value of a parsed JSON value. *)
Definition truthy (j : Json) : bool :=
  match j with
  | JNull => false
  | JBool b => b
  | JInt z => negb (z =? 0)%Z
  | JFloat q => negb (Qeq_bool q 0)
  | JString s => negb (String.eqb s "")
  | JArray l => match l with [] => false | _ :: _ => true end
  | JObject fields => match fields with [] => false | _ :: _ => true end
  end.

Definition understand_query (renv : ReadEnv) (query : string) : Json :=
  match query_chain renv query with
  | Ok result => result
  | Raise _ =>
      JObject [ ("entity_type", JString "general"); ("entity_name", JNull);
                ("intent", JString query);
                ("requires_sector_expansion", JBool false) ]
  end.

Definition get_article_ids_from_vector (renv : ReadEnv)
    (vs : VectorStoreManager.t) (query : string) (max_results : nat)
  : result (list string) :=
  VectorStoreReads.article_ids_of
    (VectorStoreReads.search_articles renv vs query (max_results * 2) None).

Definition sector_map : PyDict.t string :=
  [ ("HDFC Bank", "Banking"); ("ICICI Bank", "Banking");
    ("TCS", "Technology"); ("Infosys", "Technology") ].

(** [expand_entity_context]: the set as the list of its elements; building
    the set raises [TypeError] on a list or a dict. *)
Definition expand_entity_context (entity_name entity_type : Json)
  : result (list Json) :=
  match entity_name with
  | JArray _ => Raise "unhashable type: 'list'"
  | JObject _ => Raise "unhashable type: 'dict'"
  | _ =>
      match entity_type, entity_name with
      | JString ty, JString name =>
          if String.eqb ty "company" then
            match PyDict.get name sector_map with
            | Some sector =>
                if String.eqb sector name then Ok [entity_name]
                else Ok [entity_name; JString sector]
            | None => Ok [entity_name]
            end
          else Ok [entity_name]
      | _, _ => Ok [entity_name]
      end
  end.

(** The rows of the three tables, in table order. *)
Definition entities_of_article (rows : list Row) (id : string) : list Entity.t :=
  omap (fun r => match r with
                 | ExtractedEntityDB aid text type confidence =>
                     if String.eqb aid id
                     then Some (Entity.mk text type confidence) else None
                 | _ => None
                 end) rows.

Definition impacts_of_article (rows : list Row) (id : string)
  : list StockImpact.t :=
  omap (fun r => match r with
                 | StockImpactDB aid symbol confidence type reasoning =>
                     if String.eqb aid id
                     then Some (StockImpact.mk symbol confidence type reasoning)
                     else None
                 | _ => None
                 end) rows.

(** The filters of the article query: id among the candidates, not a
    duplicate, within the dates given. *)
Definition selected (renv : ReadEnv) (request : QueryRequest.t)
    (article_ids : list string) (r : Row) : bool :=
  match r with
  | NewsArticleDB id _ _ _ published_at _ is_duplicate _ =>
      bool_decide (id ∈ article_ids) && negb is_duplicate &&
      match QueryRequest.date_from request with
      | Some bound => timestamp_le renv bound published_at
      | None => true
      end &&
      match QueryRequest.date_to request with
      | Some bound => timestamp_le renv published_at bound
      | None => true
      end
  | _ => false
  end.

Definition processed_of (rows : list Row) (r : Row) : option ProcessedArticle.t :=
  match r with
  | NewsArticleDB id title content source published_at url is_duplicate
                  duplicate_of =>
      Some (ProcessedArticle.mk id title content source published_at url
              is_duplicate duplicate_of (entities_of_article rows id)
              (impacts_of_article rows id) ∅)
  | _ => None
  end.

(** The body of the [with] block of [retrieve_articles]. *)
Definition load_articles (renv : ReadEnv) (request : QueryRequest.t)
    (article_ids : list string) (session : Database.Session)
  : Database.Session * result (list ProcessedArticle.t) :=
  let rows := Database.committed session in
  let articles :=
    take (QueryRequest.max_results request)
         (List.filter (selected renv request article_ids) rows) in
  (session, Ok (omap (processed_of rows) articles)).

(** The block after the [with]: the expansion is computed and logged. *)
Definition sector_expansion (request : QueryRequest.t)
    (query_understanding : Json) : result unit :=
  if QueryRequest.include_sector_news request then
    requires <-! py_get query_understanding "requires_sector_expansion" ;;
    if truthy requires then
      entity_name <-! py_get query_understanding "entity_name" ;;
      entity_type <-! py_get query_understanding "entity_type" ;;
      if truthy entity_name &&
         match entity_type with
         | JString ty => String.eqb ty "company"
         | _ => false
         end
      then _ <-! expand_entity_context entity_name entity_type ;; Ok tt
      else Ok tt
    else Ok tt
  else Ok tt.

Definition retrieve_articles (env : Env) (renv : ReadEnv) (w : World)
    (request : QueryRequest.t) : result (list ProcessedArticle.t) :=
  let query_understanding := understand_query renv (QueryRequest.query request) in
  article_ids <-! get_article_ids_from_vector renv (vector_store w)
                    (QueryRequest.query request)
                    (QueryRequest.max_results request) ;;
  match article_ids with
  | [] => Ok []
  | _ :: _ =>
      processed_articles <-!
        (Database.get_db_session env (database w)
           (load_articles renv request article_ids)).2 ;;
      _ <-! sector_expansion request query_understanding ;;
      Ok processed_articles
  end.

Definition process_query (env : Env) (renv : ReadEnv) (w : World)
    (request : QueryRequest.t) : QueryResponse.t :=
  match retrieve_articles env renv w request with
  | Ok articles =>
      QueryResponse.mk (QueryRequest.query request) articles (length articles)
        (elapsed_seconds renv) []
  | Raise _ => QueryResponse.mk (QueryRequest.query request) [] 0 0 []
  end.

End QueryAgent.

(** ** The HTTP interface (src/api.py) *)

Inductive http (A : Type) : Type :=
| Response (a : A)
| HTTPException (status_code : nat) (detail : string).
Arguments Response {A} a.
Arguments HTTPException {A} status_code detail.

Module Api.

Definition response_of (article : NewsArticle.t) (result : AgentState.t)
  : ProcessedArticle.t :=
  ProcessedArticle.mk (NewsArticle.article_id article) (NewsArticle.title article)
    (NewsArticle.content article) (NewsArticle.source article)
    (NewsArticle.published_at article) (NewsArticle.url article)
    (AgentState.is_duplicate result) (AgentState.duplicate_of result)
    (AgentState.entities result) (AgentState.stock_impacts result)
    (AgentState.processing_metadata result).

(** [if result.error]: [None] and the empty string are false. *)
Definition error_set (result : AgentState.t) : option string :=
  match AgentState.error result with
  | Some msg => if String.eqb msg "" then None else Some msg
  | None => None
  end.

(** [ingest_article]: the [HTTPException] raised on a recorded error is
    caught by the handler of the function and raised again around its own
    rendering. *)
Definition ingest_article (env : Env) (renv : ReadEnv) (w : World)
    (article : NewsArticle.t) : http ProcessedArticle.t * World :=
  let '(result, w') := NewsProcessingWorkflow.process_article env w article in
  match error_set result with
  | Some msg => (HTTPException 500 (http_exception_str renv 500 msg), w')
  | None => (Response (response_of article result), w')
  end.

Definition ingest_batch (env : Env) (w : World) (articles : list NewsArticle.t)
  : http (list ProcessedArticle.t) * World :=
  let '(results, w') :=
    foldl (fun acc article =>
             let '(result, w') :=
               NewsProcessingWorkflow.process_article env acc.2 article in
             (acc.1 ++ [response_of article result], w'))
          ([], w) articles in
  (Response results, w').

Record Statistics := mkStatistics {
  total_articles : nat;
  unique_articles : nat;
  duplicate_articles : nat;
  total_entities : nat;
  total_stock_impacts : nat;
  (** [(duplicate_articles / max(total_articles, 1)) * 100], before it is
      formatted. *)
  deduplication_rate : Q
}.

Definition is_article (duplicate : option bool) (r : Row) : bool :=
  match r with
  | NewsArticleDB _ _ _ _ _ _ is_duplicate _ =>
      match duplicate with
      | Some b => Bool.eqb is_duplicate b
      | None => true
      end
  | _ => false
  end.

Definition is_entity (r : Row) : bool :=
  match r with ExtractedEntityDB _ _ _ _ => true | _ => false end.

Definition is_impact (r : Row) : bool :=
  match r with StockImpactDB _ _ _ _ _ => true | _ => false end.

Definition count_rows (p : Row -> bool) (rows : list Row) : nat :=
  length (List.filter p rows).

(** The body of the [with] block of [get_statistics]. *)
Definition count_all (session : Database.Session)
  : Database.Session * result (nat * nat * nat * nat * nat) :=
  let rows := Database.committed session in
  (session,
   Ok (count_rows (is_article None) rows,
       count_rows (is_article (Some false)) rows,
       count_rows (is_article (Some true)) rows,
       count_rows is_entity rows,
       count_rows is_impact rows)).

Definition get_statistics (env : Env) (w : World) : http Statistics :=
  match (Database.get_db_session env (database w) count_all).2 with
  | Ok (total, unique, duplicate, entities, impacts) =>
      Response (mkStatistics total unique duplicate entities impacts
                  ((Z.of_nat duplicate # Pos.of_nat (Nat.max total 1)) * 100))
  | Raise msg => HTTPException 500 msg
  end.

End Api.

(** * Vocabulary of the properties *)

(** ** The entity merge *)

(** The key of the entity at a location. *)
Definition key_at (h : gmap nat Entity.t) (l : nat) : option (string * string) :=
  EntityExtractionAgent.key <$> h !! l.

Definition keys_at (h : gmap nat Entity.t) (locs : list nat)
  : list (string * string) :=
  omap (key_at h) locs.

(** The locations of a list that are the first of the list to carry their
    key, in the order of the list; [earlier] holds the keys met so far. *)
Fixpoint first_seen (h : gmap nat Entity.t) (earlier : list (string * string))
    (locs : list nat) : list nat :=
  match locs with
  | [] => []
  | l :: rest =>
      match key_at h l with
      | Some k =>
          if decide (k ∈ earlier) then first_seen h earlier rest
          else l :: first_seen h (k :: earlier) rest
      | None => first_seen h earlier rest
      end
  end.

(** [c] is the greatest confidence that the entities of [locs] with key
    [k] have in the heap [h]. *)
Definition max_confidence (h : gmap nat Entity.t) (locs : list nat)
    (k : string * string) (c : Q) : Prop :=
  (∃ l e, l ∈ locs ∧ h !! l = Some e ∧ EntityExtractionAgent.key e = k ∧
          Entity.confidence e = c) ∧
  (∀ l e, l ∈ locs -> h !! l = Some e -> EntityExtractionAgent.key e = k ->
          (Entity.confidence e <= c)%Q).

(** What the loop of [merge_entities] maintains, [h] being the heap at the
    call and [pre] the locations visited. *)
Record merge_inv (h : gmap nat Entity.t) (pre : list nat)
    (st : EntityExtractionAgent.MergeState) : Prop := {
  inv_unallocated : ∀ l, h !! l = None ->
    EntityExtractionAgent.heap st !! l = None;
  inv_confidence_only : ∀ l e, h !! l = Some e ->
    ∃ c, EntityExtractionAgent.heap st !! l = Some (Entity.with_confidence c e) ∧
         (l ∉ EntityExtractionAgent.merged st -> c = Entity.confidence e);
  inv_merged : EntityExtractionAgent.merged st = first_seen h [] pre;
  inv_seen : ∀ k l, EntityExtractionAgent.seen st !! k = Some l <->
    l ∈ EntityExtractionAgent.merged st ∧ key_at h l = Some k;
  inv_max : ∀ l e c, l ∈ EntityExtractionAgent.merged st -> h !! l = Some e ->
    EntityExtractionAgent.heap st !! l = Some (Entity.with_confidence c e) ->
    max_confidence h pre (EntityExtractionAgent.key e) c;
  inv_visited : ∀ l k, l ∈ pre -> key_at h l = Some k ->
    is_Some (EntityExtractionAgent.seen st !! k)
}.

(** ** The impact merge *)

(** [r] is the entry of [impacts] the merge keeps for its symbol: every
    earlier entry of that symbol has a strictly lower confidence, no
    later one has a higher confidence. *)
Definition winner (impacts : list StockImpact.t) (r : StockImpact.t) : Prop :=
  ∃ before after,
    impacts = before ++ r :: after ∧
    (∀ e, e ∈ before -> StockImpact.symbol e = StockImpact.symbol r ->
          (StockImpact.confidence e < StockImpact.confidence r)%Q) ∧
    (∀ e, e ∈ after -> StockImpact.symbol e = StockImpact.symbol r ->
          (StockImpact.confidence e <= StockImpact.confidence r)%Q).

(** What the loop of [merge_impacts] maintains. *)
Record seen_inv (pre : list StockImpact.t)
    (seen : PyDict.t StockImpact.t) : Prop := {
  inv_nodup : NoDup (PyDict.keys seen);
  inv_winner : ∀ k r, (k, r) ∈ seen -> StockImpact.symbol r = k ∧ winner pre r;
  inv_cover : ∀ e, e ∈ pre -> StockImpact.symbol e ∈ PyDict.keys seen
}.

(** ** Substrings *)

(** [needle] occurs in [hay]. *)
Definition substring_of (needle hay : string) : Prop :=
  ∃ before after, hay = before +:+ needle +:+ after.

(** The company name and the name of the table match when, lowercased, one
    occurs in the other. *)
Definition ci_substring_match (company name : string) : Prop :=
  substring_of (PyStr.lower name) (PyStr.lower company) ∨
  substring_of (PyStr.lower company) (PyStr.lower name).

(** ** Storage *)

(** The rows the storage stage adds to its session, in order. *)
Definition rows_of (state : AgentState.t) : list Row :=
  let article_id := NewsArticle.article_id (AgentState.article state) in
  StorageAgent.db_article state ::
  (if AgentState.is_duplicate state then []
   else map (StorageAgent.db_entity article_id) (AgentState.entities state) ++
        map (StorageAgent.db_impact article_id) (AgentState.stock_impacts state)).

(** ** Scenarios

    The article N1 of the end-to-end scenario, its resubmission N2 under a
    new id, and capabilities to run them with. *)

Module Scenario.

Definition n1 : NewsArticle.t :=
  NewsArticle.mk "N1" "HDFC Bank reports profit" "The RBI approves the merger"
    "X" "2024-01-01T00:00:00" None.

Definition n2 : NewsArticle.t :=
  NewsArticle.mk "N2" "HDFC Bank reports profit" "The RBI approves the merger"
    "X" "2024-01-02T00:00:00" None.

(** A namespace in which [SIMILARITY_THRESHOLD] is bound, to 0.9. *)
Definition bound_globals : gmap string Q :=
  <["SIMILARITY_THRESHOLD" := 9 # 10]> ∅.

(** An index that answers every query with all its documents, each at
    distance 0.05; a tagger that finds the organisation of N1; language
    model chains that raise; no failure of the index or of the engine. *)
Definition env (globals : gmap string Q) : Env := {|
  vector_store_globals := globals;
  similarity_search_with_score := fun coll _ _ =>
    Ok (map (fun p : string * Document.t => (p.2, 5 # 100)) (map_to_list coll));
  add_documents_error := fun _ _ _ => None;
  nlp := fun _ => Ok [("HDFC Bank", "ORG")];
  extraction_chain := fun _ _ => Raise "llm unavailable";
  entity_validation_error := fun _ => "1 validation error for Entity";
  impact_chain := fun _ _ _ _ _ _ => Raise "llm unavailable";
  commit_error := fun _ _ => None
|}.

(** The same with an index whose query raises. *)
Definition env_index_down (globals : gmap string Q) : Env := {|
  vector_store_globals := globals;
  similarity_search_with_score := fun _ _ _ => Raise "index unavailable";
  add_documents_error := add_documents_error (env globals);
  nlp := nlp (env globals);
  extraction_chain := extraction_chain (env globals);
  entity_validation_error := entity_validation_error (env globals);
  impact_chain := impact_chain (env globals);
  commit_error := commit_error (env globals)
|}.

(** The same with an index whose insertion raises. *)
Definition env_embedding_down (globals : gmap string Q) : Env := {|
  vector_store_globals := globals;
  similarity_search_with_score := similarity_search_with_score (env globals);
  add_documents_error := fun _ _ _ => Some "embedding failed";
  nlp := nlp (env globals);
  extraction_chain := extraction_chain (env globals);
  entity_validation_error := entity_validation_error (env globals);
  impact_chain := impact_chain (env globals);
  commit_error := commit_error (env globals)
|}.

(** The same with an extraction chain that answers in the shape of the
    prompt: the company again, in another case, and a person. *)
Definition env_llm_answers (globals : gmap string Q) : Env := {|
  vector_store_globals := globals;
  similarity_search_with_score := similarity_search_with_score (env globals);
  add_documents_error := add_documents_error (env globals);
  nlp := nlp (env globals);
  extraction_chain := fun _ _ =>
    Ok (JObject [ ("companies", JArray [JString "hdfc bank"]);
                  ("people", JArray [JString "Sashidhar Jagdishan"]) ]);
  entity_validation_error := entity_validation_error (env globals);
  impact_chain := impact_chain (env globals);
  commit_error := commit_error (env globals)
|}.

(** The same with an extraction chain that answers with a number where a
    name is expected. *)
Definition env_llm_ill_shaped (globals : gmap string Q) : Env := {|
  vector_store_globals := globals;
  similarity_search_with_score := similarity_search_with_score (env globals);
  add_documents_error := add_documents_error (env globals);
  nlp := nlp (env globals);
  extraction_chain := fun _ _ =>
    Ok (JObject [ ("companies", JArray [JString "HDFC Bank"; JInt 1]) ]);
  entity_validation_error := entity_validation_error (env globals);
  impact_chain := impact_chain (env globals);
  commit_error := commit_error (env globals)
|}.

(** The index after N1 has been stored. *)
Definition index_with_n1 : VectorStoreManager.t :=
  VectorStoreManager.mk
    (<["N1" := VectorStoreManager.article_document n1]> ∅) ∅.

Definition world_with_n1 : World :=
  mkWorld index_with_n1
    [NewsArticleDB "N1" "HDFC Bank reports profit" "The RBI approves the merger"
       "X" "2024-01-01T00:00:00" None false None].

Definition empty_world : World := mkWorld VectorStoreManager.empty [].

End Scenario.

(** ** Word occurrences *)

(** The last character of [s], or [prev] when [s] is empty. *)
Fixpoint last_char (prev : option ascii) (s : string) : option ascii :=
  match s with
  | EmptyString => prev
  | String c t => last_char (Some c) t
  end.

(** [lit] occurs in [s], up to case, between two word boundaries. *)
Definition word_occurrence (lit s : string) : Prop :=
  ∃ before m after,
    s = before +:+ m +:+ after ∧ PyStr.lower m = PyStr.lower lit ∧
    PyStr.boundary (last_char None before) (m +:+ after) = true ∧
    PyStr.boundary (last_char (last_char None before) m) after = true.

(** ** Capabilities of the read paths, for the scenarios *)

Module ReadScenario.

(** A search that returns the first [k] documents of the collection, a
    deletion that succeeds, a query chain that asks for the sector of HDFC
    Bank, timestamps in ISO format compared as strings. *)
Definition renv : ReadEnv := {|
  similarity_search := fun coll _ k _ =>
    Ok (take k (map (fun p : string * Document.t => p.2) (map_to_list coll)));
  delete_error := fun _ _ => None;
  query_chain := fun _ =>
    Ok (JObject [ ("entity_type", JString "company");
                  ("entity_name", JString "HDFC Bank");
                  ("intent", JString "news");
                  ("requires_sector_expansion", JBool true) ]);
  timestamp_le := String.leb;
  elapsed_seconds := 1 # 100;
  http_exception_str := fun status_code detail =>
    pretty status_code +:+ ": " +:+ detail
|}.

End ReadScenario.

(** * Properties *)

(** ** Comparisons *)

Lemma Qgtb_true (x y : Q) : Qgtb x y = true <-> (y < x)%Q.
Proof.
  unfold Qgtb. rewrite negb_true_iff, <- not_true_iff_false, Qle_bool_iff.
  split; [apply Qnot_le_lt | apply Qlt_not_le].
Qed.

Lemma Qgtb_false (x y : Q) : Qgtb x y = false <-> (x <= y)%Q.
Proof.
  unfold Qgtb. rewrite negb_false_iff. apply Qle_bool_iff.
Qed.

Lemma Qgeb_true (x y : Q) : Qgeb x y = true <-> (y <= x)%Q.
Proof. apply Qle_bool_iff. Qed.

(** ** Ordered dictionaries *)

Section PyDictFacts.
Context {V : Type}.
Implicit Types (d : PyDict.t V) (k : string) (v : V).

Lemma get_None d k : PyDict.get k d = None <-> k ∉ PyDict.keys d.
Proof.
  induction d as [|[k' v'] d IH]; simpl.
  - split; [intros _; apply not_elem_of_nil | done].
  - destruct (String.eqb_spec k' k) as [->|Hne].
    + split; [done | intros []; left].
    + rewrite IH. rewrite not_elem_of_cons.
      split; [intros ?; split; [congruence | done] | by intros [_ ?]].
Qed.

Lemma get_Some_elem d k v : PyDict.get k d = Some v -> (k, v) ∈ d.
Proof.
  induction d as [|[k' v'] d IH]; simpl; [done|].
  destruct (String.eqb_spec k' k) as [->|Hne].
  - intros [= ->]. left.
  - intros H. right. auto.
Qed.

Lemma set_fresh d k v : k ∉ PyDict.keys d -> PyDict.set k v d = d ++ [(k, v)].
Proof.
  induction d as [|[k' v'] d IH]; simpl; [done|].
  rewrite not_elem_of_cons. intros [Hne Hk].
  destruct (String.eqb_spec k' k) as [->|_]; [done|].
  by rewrite IH.
Qed.

Lemma set_keys d k v :
  k ∈ PyDict.keys d -> PyDict.keys (PyDict.set k v d) = PyDict.keys d.
Proof.
  induction d as [|[k' v'] d IH]; simpl.
  - intros H. by apply elem_of_nil in H.
  - destruct (String.eqb_spec k' k) as [->|Hne]; [done|].
    rewrite elem_of_cons. intros [->|Hk]; [done|].
    simpl. f_equal. by apply IH.
Qed.

Lemma set_elem d k v k' v' :
  NoDup (PyDict.keys d) -> (k', v') ∈ PyDict.set k v d ->
  (k' = k ∧ v' = v) ∨ (k' ≠ k ∧ (k', v') ∈ d).
Proof.
  induction d as [|[k0 v0] d IH]; simpl.
  - intros _ H. apply list_elem_of_singleton in H. left. by inversion H.
  - rewrite NoDup_cons. intros [Hk0 Hnd].
    destruct (String.eqb_spec k0 k) as [->|Hne].
    + rewrite elem_of_cons. intros [[= -> ->]|H]; [by left|].
      right. split; [|by right].
      intros ->. apply Hk0. apply list_elem_of_fmap. by exists (k, v').
    + rewrite elem_of_cons. intros [[= -> ->]|H].
      * right. split; [done | left].
      * destruct (IH Hnd H) as [?|[? ?]]; [by left|].
        right. split; [done | by right].
Qed.

Lemma keys_functional d k v v' :
  NoDup (PyDict.keys d) -> (k, v) ∈ d -> (k, v') ∈ d -> v = v'.
Proof.
  induction d as [|[k0 v0] d IH]; simpl.
  - intros _ H. by apply elem_of_nil in H.
  - rewrite NoDup_cons. intros [Hk0 Hnd] H1 H2.
    assert (Hkey : ∀ w, (k0, w) ∈ d -> False).
    { intros w Hw. apply Hk0. apply list_elem_of_fmap. by exists (k0, w). }
    apply elem_of_cons in H1 as [H1|H1]; apply elem_of_cons in H2 as [H2|H2].
    + congruence.
    + injection H1 as -> ->. by destruct (Hkey v').
    + injection H2 as -> ->. by destruct (Hkey v).
    + by apply IH.
Qed.

End PyDictFacts.

(** ** The impact merge *)

Section MergeImpacts.
Import StockImpactAgent.
Implicit Types (impacts pre : list StockImpact.t) (seen : PyDict.t StockImpact.t).


Lemma winner_snoc_other pre r x :
  winner pre r -> StockImpact.symbol x ≠ StockImpact.symbol r ->
  winner (pre ++ [x]) r.
Proof.
  intros (b & a & -> & Hb & Ha) Hne.
  exists b, (a ++ [x]). split; [by rewrite <- app_assoc|].
  split; [done|]. intros e He Hs.
  apply elem_of_app in He as [He|He]; [by apply Ha|].
  apply list_elem_of_singleton in He as ->. congruence.
Qed.

Lemma winner_snoc_kept pre r x :
  winner pre r ->
  (StockImpact.confidence x <= StockImpact.confidence r)%Q ->
  winner (pre ++ [x]) r.
Proof.
  intros (b & a & -> & Hb & Ha) Hle.
  exists b, (a ++ [x]). split; [by rewrite <- app_assoc|].
  split; [done|]. intros e He Hs.
  apply elem_of_app in He as [He|He]; [by apply Ha|].
  by apply list_elem_of_singleton in He as ->.
Qed.

Lemma winner_snoc_new pre x :
  (∀ e, e ∈ pre -> StockImpact.symbol e = StockImpact.symbol x ->
        (StockImpact.confidence e < StockImpact.confidence x)%Q) ->
  winner (pre ++ [x]) x.
Proof.
  intros H. exists pre, []. split; [done|]. split; [done|].
  intros e He. by apply elem_of_nil in He.
Qed.

Lemma winner_bound pre r e :
  winner pre r -> e ∈ pre -> StockImpact.symbol e = StockImpact.symbol r ->
  (StockImpact.confidence e <= StockImpact.confidence r)%Q.
Proof.
  intros (b & a & -> & Hb & Ha) He Hs.
  apply elem_of_app in He as [He|He]; [by apply Qlt_le_weak, Hb|].
  apply elem_of_cons in He as [->|He]; [apply Qle_refl | by apply Ha].
Qed.

Lemma impact_step_inv pre seen x :
  seen_inv pre seen -> seen_inv (pre ++ [x]) (merge_step seen x).
Proof.
  intros [Hnd Hw Hc]. unfold merge_step.
  destruct (PyDict.get (StockImpact.symbol x) seen) as [kept|] eqn:Hget.
  - pose proof (get_Some_elem _ _ _ Hget) as Hin.
    assert (Hk : StockImpact.symbol x ∈ PyDict.keys seen).
    { apply list_elem_of_fmap. by exists (StockImpact.symbol x, kept). }
    destruct (Hw _ _ Hin) as [Hsym Hwin].
    destruct (Qgtb _ _) eqn:Hgt.
    + apply Qgtb_true in Hgt. split.
      * by rewrite set_keys.
      * intros k r Hr. apply set_elem in Hr; [|done].
        destruct Hr as [[-> ->]|[Hne Hr]].
        -- split; [done|]. apply winner_snoc_new. intros e He Hs.
           eapply Qle_lt_trans; [|exact Hgt].
           apply (winner_bound pre); [done..|congruence].
        -- destruct (Hw _ _ Hr) as [<- Hwr]. split; [done|].
           by apply winner_snoc_other.
      * intros e He. rewrite set_keys by done.
        apply elem_of_app in He as [He|He]; [by apply Hc|].
        by apply list_elem_of_singleton in He as ->.
    + apply Qgtb_false in Hgt. split; [done| |].
      * intros k r Hr. destruct (Hw _ _ Hr) as [<- Hwr]. split; [done|].
        destruct (decide (StockImpact.symbol x = StockImpact.symbol r)) as [Heq|Hne].
        -- assert (r = kept) as ->.
           { apply (keys_functional seen (StockImpact.symbol x)); [done| |done].
             by rewrite Heq. }
           by apply winner_snoc_kept.
        -- by apply winner_snoc_other.
      * intros e He.
        apply elem_of_app in He as [He|He]; [by apply Hc|].
        by apply list_elem_of_singleton in He as ->.
  - apply get_None in Hget. rewrite set_fresh by done. split.
    + unfold PyDict.keys. rewrite fmap_app. simpl.
      apply NoDup_app. split; [done|]. split; [|apply NoDup_singleton].
      intros k Hk Hk'. apply list_elem_of_singleton in Hk' as ->. done.
    + intros k r Hr. apply elem_of_app in Hr as [Hr|Hr].
      * destruct (Hw _ _ Hr) as [<- Hwr]. split; [done|].
        apply winner_snoc_other; [done|]. intros Heq. apply Hget.
        rewrite Heq. apply list_elem_of_fmap. by exists (StockImpact.symbol r, r).
      * apply list_elem_of_singleton in Hr as [= -> ->]. split; [done|].
        apply winner_snoc_new. intros e He Hs. exfalso. apply Hget.
        rewrite <- Hs. by apply Hc.
    + intros e He. unfold PyDict.keys. rewrite fmap_app.
      apply elem_of_app in He as [He|He].
      * apply elem_of_app. left. by apply Hc.
      * apply list_elem_of_singleton in He as ->.
        apply elem_of_app. right. simpl. left.
Qed.

Lemma impact_loop_inv pre seen suffix :
  seen_inv pre seen -> seen_inv (pre ++ suffix) (foldl merge_step seen suffix).
Proof.
  revert pre seen. induction suffix as [|x suffix IH]; intros pre seen H; simpl.
  - by rewrite app_nil_r.
  - replace (pre ++ x :: suffix) with ((pre ++ [x]) ++ suffix)
      by (by rewrite <- app_assoc).
    by apply IH, impact_step_inv.
Qed.

Lemma empty_seen_inv : seen_inv [] [].
Proof.
  split.
  - apply NoDup_nil_2.
  - intros k r H. by apply elem_of_nil in H.
  - intros e H. by apply elem_of_nil in H.
Qed.

End MergeImpacts.

Lemma values_symbols (seen : PyDict.t StockImpact.t) :
  (∀ k r, (k, r) ∈ seen -> StockImpact.symbol r = k) ->
  map StockImpact.symbol (PyDict.values seen) = PyDict.keys seen.
Proof.
  induction seen as [|[k r] seen IH]; intros H; simpl; [done|].
  f_equal.
  - apply H. left.
  - apply IH. intros k' r' Hin. apply H. by right.
Qed.

(** C4: the impact merge returns exactly one entry per symbol of its input;
    the entry returned for a symbol is an entry of the input with all its
    fields, the one before which every entry of that symbol has a strictly
    lower confidence and after which none has a higher one: a later entry
    replaces the kept one exactly when its confidence is strictly greater,
    and on a tie the first seen stays. *)
Theorem merge_impacts_one_per_symbol_strict_winner
    (impacts : list StockImpact.t) :
  let out := StockImpactAgent.merge_impacts impacts in
  NoDup (map StockImpact.symbol out) ∧
  (∀ s, s ∈ map StockImpact.symbol out <-> s ∈ map StockImpact.symbol impacts) ∧
  (∀ r, r ∈ out -> winner impacts r).
Proof.
  pose proof (impact_loop_inv [] [] impacts empty_seen_inv) as [Hnd Hw Hc].
  simpl in *. unfold StockImpactAgent.merge_impacts.
  set (seen := foldl StockImpactAgent.merge_step [] impacts) in *.
  assert (Hsym : map StockImpact.symbol (PyDict.values seen) = PyDict.keys seen).
  { apply values_symbols. intros k r Hin. by destruct (Hw k r Hin). }
  split; [by rewrite Hsym|]. split.
  - intros s. rewrite Hsym. split.
    + intros Hs. apply list_elem_of_fmap in Hs as [[k r] [-> Hin]].
      destruct (Hw k r Hin) as [<- (b & a & -> & _)].
      apply list_elem_of_fmap. exists r. split; [done|].
      apply elem_of_app. right. left.
    + intros Hs. apply list_elem_of_fmap in Hs as [e [-> He]]. by apply Hc.
  - intros r Hr. apply list_elem_of_fmap in Hr as [[k r'] [-> Hin]].
    by destruct (Hw k r' Hin).
Qed.

(** ** Substrings and the symbol of a company *)


Lemma append_cons (c : ascii) (s t : string) :
  String c s +:+ t = String c (s +:+ t).
Proof. reflexivity. Qed.

Lemma startswith_spec (needle hay : string) :
  PyStr.startswith needle hay = true <-> ∃ after, hay = needle +:+ after.
Proof.
  revert hay. induction needle as [|a needle IH]; intros hay; simpl.
  - split; [intros _; by exists hay | done].
  - destruct hay as [|b hay].
    + split; [done | intros [after H]; rewrite append_cons in H; discriminate].
    + destruct (Ascii.eqb_spec a b) as [->|Hne].
      * rewrite IH. split; intros [after H]; exists after;
          rewrite append_cons in *; congruence.
      * split; [done | intros [after H]; rewrite append_cons in H; congruence].
Qed.

Lemma contains_spec (needle hay : string) :
  PyStr.contains needle hay = true <-> substring_of needle hay.
Proof.
  induction hay as [|c hay IH]; simpl.
  - rewrite orb_false_r, startswith_spec. split.
    + intros [after H]. by exists "", after.
    + intros ([|? before] & after & H); [by exists after|].
      rewrite append_cons in H. discriminate.
  - rewrite orb_true_iff, IH, startswith_spec. split.
    + intros [[after H]|(before & after & H)].
      * by exists "", after.
      * exists (String c before), after. by rewrite append_cons, H.
    + intros ([|c' before] & after & H).
      * left. by exists after.
      * right. exists before, after. rewrite append_cons in H. congruence.
Qed.


Lemma name_matches_spec (company name : string) :
  StockImpactAgent.name_matches company name = true <->
  ci_substring_match company name.
Proof.
  unfold StockImpactAgent.name_matches, ci_substring_match.
  by rewrite orb_true_iff, !contains_spec.
Qed.

Lemma lookup_symbol_spec (company : string) (table : PyDict.t string) :
  match StockImpactAgent.lookup_symbol company table with
  | Some symbol =>
      ∃ before name after,
        table = before ++ (name, symbol) :: after ∧
        ci_substring_match company name ∧
        ∀ n s, (n, s) ∈ before -> ¬ ci_substring_match company n
  | None => ∀ n s, (n, s) ∈ table -> ¬ ci_substring_match company n
  end.
Proof.
  induction table as [|[name symbol] table IH]; simpl.
  - intros n s H. by apply elem_of_nil in H.
  - destruct (StockImpactAgent.name_matches company name) eqn:Hm.
    + exists [], name, table. split; [done|].
      split; [by apply name_matches_spec|].
      intros n s H. by apply elem_of_nil in H.
    + assert (Hno : ¬ ci_substring_match company name).
      { rewrite <- name_matches_spec. by rewrite Hm. }
      destruct (StockImpactAgent.lookup_symbol company table) as [sym|].
      * destruct IH as (before & name' & after & -> & Hmatch & Hbefore).
        exists ((name, symbol) :: before), name', after.
        split; [done|]. split; [done|].
        intros n s H. apply elem_of_cons in H as [[= -> ->]|H]; [done|].
        by eapply Hbefore.
      * intros n s H. apply elem_of_cons in H as [[= -> ->]|H]; [done|].
        by eapply IH.
Qed.

(** C9: every COMPANY entity, and no other, yields one direct impact, whose
    symbol resolves the company name against the static table: the symbol
    of the first entry, in table order, whose name and the company name
    match case-insensitively as substrings (one occurring in the other);
    when no entry matches, the derived symbol: the name uppercased, its
    spaces removed, cut to 10 characters. *)
Theorem direct_impacts_resolve_company_symbols (entities : list Entity.t) :
  StockImpactAgent.get_direct_impacts entities =
    map (fun e =>
           StockImpact.mk (StockImpactAgent.map_company_to_symbol (Entity.text e))
             Config.direct "direct"
             (Some ("Company '" +:+ Entity.text e +:+ "' directly mentioned")))
        (filter (fun e => Entity.type e = "COMPANY") entities) ∧
  ∀ company,
    (∃ before name after,
       StockImpactAgent.company_symbols =
         before ++ (name, StockImpactAgent.map_company_to_symbol company) :: after ∧
       ci_substring_match company name ∧
       ∀ n s, (n, s) ∈ before -> ¬ ci_substring_match company n)
    ∨
    ((∀ n s, (n, s) ∈ StockImpactAgent.company_symbols ->
             ¬ ci_substring_match company n) ∧
     StockImpactAgent.map_company_to_symbol company =
       PyStr.slice_to 10 (PyStr.remove_spaces (PyStr.upper company))).
Proof.
  split.
  - unfold StockImpactAgent.get_direct_impacts. f_equal.
    induction entities as [|e entities IH]; [done|].
    rewrite !filter_cons, IH. unfold StockImpactAgent.has_type.
    destruct (String.eqb_spec (Entity.type e) "COMPANY") as [Heq|Hne].
    + rewrite !decide_True; done.
    + rewrite !decide_False; [done..|]. by intros H.
  - intros company. unfold StockImpactAgent.map_company_to_symbol.
    pose proof (lookup_symbol_spec company StockImpactAgent.company_symbols) as H.
    destruct (StockImpactAgent.lookup_symbol company _) as [symbol|].
    + by left.
    + right. by split.
Qed.

(** ** The storage stage *)


Section StorageFacts.
Variable env : Env.

Lemma add_all_pending {A} (f : A -> Row) (xs : list A) (s : Database.Session) :
  foldl (fun s x => Database.add (f x) s) s xs =
  Database.mkSession (Database.committed s) (Database.pending s ++ map f xs).
Proof.
  revert s. induction xs as [|x xs IH]; intros s; simpl.
  - rewrite app_nil_r. by destruct s.
  - rewrite IH. simpl. by rewrite <- app_assoc.
Qed.

(** The body of the [with] block commits [rows_of state] on top of the
    committed rows. *)
Lemma store_rows_commit (state : AgentState.t) (db : list Row) :
  StorageAgent.store_rows env state (Database.mkSession db []) =
  Database.commit env (Database.mkSession db (rows_of state)).
Proof.
  unfold StorageAgent.store_rows, rows_of.
  destruct (AgentState.is_duplicate state); simpl; [done|].
  by rewrite !add_all_pending.
Qed.

Lemma commit_outcome (s : Database.Session) :
  (∃ msg, Database.commit env s = (s, Raise msg)) ∨
  (Database.unique_violation (Database.committed s) (Database.pending s) = false ∧
   Database.commit env s =
     (Database.mkSession (Database.committed s ++ Database.pending s) [], Ok tt)).
Proof.
  unfold Database.commit.
  destruct (Database.unique_violation _ _); [left; eauto|].
  destruct (commit_error env _ _); [left; eauto | by right].
Qed.

(** Leaving the [with] block: nothing committed and an exception, or all
    the rows committed (the commit on exit may still raise then). *)
Lemma session_outcome (state : AgentState.t) (db : list Row) :
  (∃ msg, Database.get_db_session env db (StorageAgent.store_rows env state)
          = (db, Raise msg)) ∨
  (∃ r, Database.get_db_session env db (StorageAgent.store_rows env state)
        = (db ++ rows_of state, r)).
Proof.
  unfold Database.get_db_session. rewrite store_rows_commit.
  destruct (commit_outcome (Database.mkSession db (rows_of state)))
    as [[msg ->]|[_ ->]]; simpl in *.
  - left. by exists msg.
  - right.
    destruct (commit_outcome (Database.mkSession (db ++ rows_of state) []))
      as [[msg ->]|[_ ->]]; simpl.
    + by exists (Raise msg).
    + rewrite app_nil_r. by exists (Ok tt).
Qed.

(** The engine decides on the rows of the article as a whole: when it
    accepts them they are all committed, whatever the commit on exit
    does; when it refuses them none is. *)
Lemma session_accepts (state : AgentState.t) (db : list Row) :
  Database.unique_violation db (rows_of state) = false ->
  commit_error env db (rows_of state) = None ->
  ∃ r, Database.get_db_session env db (StorageAgent.store_rows env state)
       = (db ++ rows_of state, r).
Proof.
  intros Hu Hc. unfold Database.get_db_session. rewrite store_rows_commit.
  unfold Database.commit at 1. simpl. rewrite Hu, Hc.
  destruct (commit_outcome (Database.mkSession (db ++ rows_of state) []))
    as [[msg ->]|[_ ->]]; simpl.
  - by exists (Raise msg).
  - rewrite app_nil_r. by exists (Ok tt).
Qed.

Lemma session_refuses (state : AgentState.t) (db : list Row) :
  Database.unique_violation db (rows_of state) = true ∨
  is_Some (commit_error env db (rows_of state)) ->
  ∃ msg, Database.get_db_session env db (StorageAgent.store_rows env state)
         = (db, Raise msg).
Proof.
  intros H. unfold Database.get_db_session. rewrite store_rows_commit.
  unfold Database.commit. simpl.
  destruct (Database.unique_violation db (rows_of state)); [by eexists|].
  destruct H as [H|[msg H]]; [done|]. rewrite H. by eexists.
Qed.

End StorageFacts.

(** C8: the storage stage never raises, and it persists the rows of the
    article (the article row, and the entity and impact rows when the
    article is no duplicate) as one unit. When the engine accepts them,
    neither the unique [article_id] nor the engine refusing, the database
    is extended by all of them; when it refuses them, the database and the
    index stay as they were. The database is thus as it was or extended by
    all the rows, never by some of them. The stage either succeeds,
    [stored] true, which it does when the session is left without an
    exception and the indexing, if any, raises none, or it fails with the
    message in [error] and [stored] false, the rest of the state being as
    it was; it fails whenever the session raises and whenever, the article
    being no duplicate, the indexing raises, with the message of that
    exception. *)
Theorem storage_all_or_nothing (env : Env) (w : World) (state : AgentState.t) :
  let final := (StorageAgent.process env w state).1 in
  let w' := (StorageAgent.process env w state).2 in
  let session := Database.get_db_session env (database w)
                   (StorageAgent.store_rows env state) in
  let indexing := VectorStoreManager.add_article env (vector_store w)
                    (AgentState.article state)
                    (map Entity.text (AgentState.entities state)) in
  (database w' = database w ∨ database w' = database w ++ rows_of state) ∧
  ((final = AgentState.set_metadata "stored" (MBool true) state ∧
    database w' = database w ++ rows_of state)
   ∨
   (∃ msg, AgentState.error final = Some msg ∧
           AgentState.processing_metadata final !! "stored" = Some (MBool false) ∧
           final = AgentState.set_metadata "stored" (MBool false)
                     (AgentState.set_error msg state))) ∧
  (∀ msg, session.2 = Raise msg ->
          AgentState.error final = Some msg ∧
          AgentState.processing_metadata final !! "stored" = Some (MBool false)) ∧
  (∀ msg, session.2 = Ok tt -> AgentState.is_duplicate state = false ->
          indexing.2 = Raise msg ->
          AgentState.error final = Some msg ∧
          AgentState.processing_metadata final !! "stored" = Some (MBool false)) ∧
  (Database.unique_violation (database w) (rows_of state) = false ->
   commit_error env (database w) (rows_of state) = None ->
   database w' = database w ++ rows_of state) ∧
  (Database.unique_violation (database w) (rows_of state) = true ∨
   is_Some (commit_error env (database w) (rows_of state)) ->
   w' = w ∧
   AgentState.processing_metadata final !! "stored" = Some (MBool false)) ∧
  (session.2 = Ok tt ->
   AgentState.is_duplicate state = true ∨ indexing.2 = Ok tt ->
   final = AgentState.set_metadata "stored" (MBool true) state ∧
   database w' = database w ++ rows_of state) ∧
  rows_of state =
    StorageAgent.db_article state ::
    (if AgentState.is_duplicate state then []
     else
       map (StorageAgent.db_entity
              (NewsArticle.article_id (AgentState.article state)))
           (AgentState.entities state) ++
       map (StorageAgent.db_impact
              (NewsArticle.article_id (AgentState.article state)))
           (AgentState.stock_impacts state)).
Proof.
  cbv zeta.
  assert (Hfirst :
    (database (StorageAgent.process env w state).2 = database w ∨
     database (StorageAgent.process env w state).2 = database w ++ rows_of state) ∧
    (((StorageAgent.process env w state).1 =
        AgentState.set_metadata "stored" (MBool true) state ∧
      database (StorageAgent.process env w state).2 = database w ++ rows_of state)
     ∨
     (∃ msg, AgentState.error (StorageAgent.process env w state).1 = Some msg ∧
             AgentState.processing_metadata (StorageAgent.process env w state).1
               !! "stored" = Some (MBool false) ∧
             (StorageAgent.process env w state).1 =
               AgentState.set_metadata "stored" (MBool false)
                 (AgentState.set_error msg state))) ∧
    (∀ msg, (Database.get_db_session env (database w)
               (StorageAgent.store_rows env state)).2 = Raise msg ->
            AgentState.error (StorageAgent.process env w state).1 = Some msg ∧
            AgentState.processing_metadata (StorageAgent.process env w state).1
              !! "stored" = Some (MBool false)) ∧
    (∀ msg, (Database.get_db_session env (database w)
               (StorageAgent.store_rows env state)).2 = Ok tt ->
            AgentState.is_duplicate state = false ->
            (VectorStoreManager.add_article env (vector_store w)
               (AgentState.article state)
               (map Entity.text (AgentState.entities state))).2 = Raise msg ->
            AgentState.error (StorageAgent.process env w state).1 = Some msg ∧
            AgentState.processing_metadata (StorageAgent.process env w state).1
              !! "stored" = Some (MBool false))).
  { unfold StorageAgent.process. simpl.
    destruct (session_outcome env state (database w)) as [[msg ->]|[r ->]].
    - simpl. split; [by left|]. split; [|split].
      + right. exists msg. split; [done|]. split; [apply lookup_insert_eq | done].
      + intros m [= <-]. split; [done | apply lookup_insert_eq].
      + intros m H. discriminate.
    - destruct r as [[]|msg]; simpl.
      + destruct (AgentState.is_duplicate state); simpl.
        * split; [by right|]. split; [by left|]. split; [|done].
          intros m H. discriminate.
        * destruct (VectorStoreManager.add_article _ _ _ _) as [vs [[]|msg]]; simpl.
          -- split; [by right|]. split; [by left|]. split; [|done].
             intros m H. discriminate.
          -- split; [by right|]. split; [|split].
             ++ right. exists msg.
                split; [done|]. split; [apply lookup_insert_eq | done].
             ++ intros m H. discriminate.
             ++ intros m _ _ [= <-]. split; [done | apply lookup_insert_eq].
      + split; [by right|]. split; [|split].
        * right. exists msg. split; [done|]. split; [apply lookup_insert_eq | done].
        * intros m [= <-]. split; [done | apply lookup_insert_eq].
        * intros m H. discriminate. }
  destruct Hfirst as (H1 & H2 & H3 & H4).
  split; [exact H1|]. split; [exact H2|]. split; [exact H3|]. split; [exact H4|].
  split; [|split; [|split]].
  - intros Hu Hc. destruct (session_accepts env state (database w) Hu Hc) as [r Hs].
    unfold StorageAgent.process. rewrite Hs.
    destruct r as [[]|msg]; simpl; [|done].
    destruct (AgentState.is_duplicate state); simpl; [done|].
    by destruct (VectorStoreManager.add_article _ _ _ _) as [vs [[]|msg]].
  - intros H. destruct (session_refuses env state (database w) H) as [msg Hs].
    unfold StorageAgent.process. rewrite Hs. simpl.
    split; [by destruct w | apply lookup_insert_eq].
  - intros Hs Hok. unfold StorageAgent.process.
    destruct (Database.get_db_session env (database w) _) as [db r] eqn:Hsession.
    simpl in Hs. subst r.
    pose proof (session_outcome env state (database w)) as [[msg Ho]|[r Ho]];
      rewrite Hsession in Ho; [congruence|].
    injection Ho as -> _.
    destruct (AgentState.is_duplicate state) eqn:Hdup; simpl; [done|].
    destruct Hok as [Hd|Hi]; [done|].
    destruct (VectorStoreManager.add_article _ _ _ _) as [vs a]. simpl in Hi.
    by subst a.
  - reflexivity.
Qed.

Lemma session_committed (env : Env) (state : AgentState.t) (db db' : list Row) :
  Database.get_db_session env db (StorageAgent.store_rows env state) = (db', Ok tt) ->
  db' = db ++ rows_of state.
Proof.
  intros H.
  destruct (session_outcome env state db) as [[msg Hs]|[r Hs]];
    rewrite Hs in H; congruence.
Qed.

(** C10: for an article that is no duplicate, when the session commits and
    the insertion into the similarity index then raises, the storage stage
    reports the failure ([error] holds the message, [stored] is false)
    while the article, entity and impact rows stay committed: the two
    writes are not atomic with each other. *)
Theorem index_failure_keeps_committed_rows
    (env : Env) (w : World) (state : AgentState.t)
    (db' : list Row) (vs' : VectorStoreManager.t) (msg : string) :
  AgentState.is_duplicate state = false ->
  Database.get_db_session env (database w) (StorageAgent.store_rows env state)
    = (db', Ok tt) ->
  VectorStoreManager.add_article env (vector_store w) (AgentState.article state)
    (map Entity.text (AgentState.entities state)) = (vs', Raise msg) ->
  let final := (StorageAgent.process env w state).1 in
  let w' := (StorageAgent.process env w state).2 in
  AgentState.error final = Some msg ∧
  AgentState.processing_metadata final !! "stored" = Some (MBool false) ∧
  database w' = database w ++ rows_of state ∧
  rows_of state =
    StorageAgent.db_article state ::
    map (StorageAgent.db_entity (NewsArticle.article_id (AgentState.article state)))
        (AgentState.entities state) ++
    map (StorageAgent.db_impact (NewsArticle.article_id (AgentState.article state)))
        (AgentState.stock_impacts state).
Proof.
  intros Hdup Hdb Hadd. simpl.
  pose proof (session_committed _ _ _ _ Hdb) as ->.
  unfold StorageAgent.process. rewrite Hdb, Hdup. simpl. rewrite Hadd. simpl.
  split; [done|]. split; [apply lookup_insert_eq|]. split; [done|].
  unfold rows_of. by rewrite Hdup.
Qed.

(** ** The deduplication stage *)

Lemma dedup_keeps_results (env : Env) (vs : VectorStoreManager.t)
    (state : AgentState.t) :
  let s1 := DeduplicationAgent.process env vs state in
  AgentState.article s1 = AgentState.article state ∧
  AgentState.entities s1 = AgentState.entities state ∧
  AgentState.stock_impacts s1 = AgentState.stock_impacts state.
Proof.
  unfold DeduplicationAgent.process.
  destruct (VectorStoreManager.find_duplicates _ _ _ _) as [[|[id sim] rest]|msg];
    done.
Qed.

Lemma dedup_duplicate_pointer (env : Env) (vs : VectorStoreManager.t)
    (state : AgentState.t) :
  AgentState.is_duplicate state = false ->
  AgentState.is_duplicate (DeduplicationAgent.process env vs state) = true ->
  ∃ original,
    AgentState.duplicate_of (DeduplicationAgent.process env vs state)
      = Some original.
Proof.
  unfold DeduplicationAgent.process.
  destruct (VectorStoreManager.find_duplicates _ _ _ _) as [[|[id sim] rest]|msg];
    simpl; intros H1 H2; try congruence.
  by exists id.
Qed.

(** C1: when the deduplication stage flags the article as a duplicate, the
    state the pipeline returns has no entities and no stock impacts, the
    only row the storage stage submits is the article row carrying the
    duplicate flag and the pointer to the original (the database ends as it
    was or extended by that single row), and the similarity index is left
    as it was. *)
Theorem duplicate_short_circuit (env : Env) (w : World) (article : NewsArticle.t) :
  let s1 := DeduplicationAgent.process env (vector_store w)
              (AgentState.initial article) in
  AgentState.is_duplicate s1 = true ->
  let final := (NewsProcessingWorkflow.process_article env w article).1 in
  let w' := (NewsProcessingWorkflow.process_article env w article).2 in
  AgentState.entities final = [] ∧
  AgentState.stock_impacts final = [] ∧
  (∃ original,
     AgentState.duplicate_of s1 = Some original ∧
     let row := NewsArticleDB (NewsArticle.article_id article)
                  (NewsArticle.title article) (NewsArticle.content article)
                  (NewsArticle.source article) (NewsArticle.published_at article)
                  (NewsArticle.url article) true (Some original) in
     rows_of s1 = [row] ∧
     (database w' = database w ∨ database w' = database w ++ [row])) ∧
  vector_store w' = vector_store w.
Proof.
  intros s1 Hdup.
  destruct (dedup_keeps_results env (vector_store w) (AgentState.initial article))
    as (Hart & Hent & Himp).
  destruct (dedup_duplicate_pointer env (vector_store w)
              (AgentState.initial article) eq_refl Hdup) as [original Hptr].
  fold s1 in Hart, Hent, Himp, Hptr. simpl in Hart, Hent, Himp.
  unfold NewsProcessingWorkflow.process_article. fold s1.
  assert (He : EntityExtractionAgent.process env s1 = s1).
  { unfold EntityExtractionAgent.process. by rewrite Hdup. }
  rewrite He.
  assert (Hi : StockImpactAgent.process env s1 = s1).
  { unfold StockImpactAgent.process. by rewrite Hdup. }
  rewrite Hi.
  assert (Hrows : rows_of s1 =
    [NewsArticleDB (NewsArticle.article_id article)
       (NewsArticle.title article) (NewsArticle.content article)
       (NewsArticle.source article) (NewsArticle.published_at article)
       (NewsArticle.url article) true (Some original)]).
  { unfold rows_of, StorageAgent.db_article. by rewrite Hdup, Hart, Hptr. }
  unfold StorageAgent.process. rewrite Hdup. simpl.
  destruct (session_outcome env s1 (database w)) as [[msg ->]|[r ->]].
  - simpl. rewrite Hent, Himp. split; [done|]. split; [done|].
    split; [|done]. exists original. split; [done|]. split; [done | by left].
  - rewrite Hrows.
    destruct r as [[]|msg]; simpl; rewrite Hent, Himp;
      (split; [done|]; split; [done|]; split; [|done]);
      exists original; (split; [done|]; split; [done | by right]).
Qed.

(** The namespace decides what the stage does before the index is asked:
    with [SIMILARITY_THRESHOLD] unbound, [find_duplicates] raises
    [NameError] ahead of its own [try], and the stage records it. *)
Lemma dedup_unbound_threshold (env : Env) (vs : VectorStoreManager.t)
    (state : AgentState.t) :
  vector_store_globals env !! "SIMILARITY_THRESHOLD" = None ->
  DeduplicationAgent.process env vs state =
    AgentState.set_error "name 'SIMILARITY_THRESHOLD' is not defined" state.
Proof.
  intros H. unfold DeduplicationAgent.process, VectorStoreManager.find_duplicates.
  by rewrite H.
Qed.

(** The candidates that pass the comprehension of [find_duplicates], when
    every document of the answer carries its article id: those at or above
    the threshold with an id other than the article's own, each with
    similarity 1 - distance. *)
Lemma select_duplicates_spec (threshold : Q) (own_id : string)
    (results : list (Document.t * Q)) :
  Forall (fun p => is_Some (Document.metadata p.1 !! "article_id")) results ->
  ∃ duplicates,
    VectorStoreManager.select_duplicates threshold own_id results = Ok duplicates ∧
    ∀ id sim, (id, sim) ∈ duplicates <->
      ∃ doc score, (doc, score) ∈ results ∧
        Document.metadata doc !! "article_id" = Some id ∧
        sim = (1 - score)%Q ∧ (threshold <= 1 - score)%Q ∧ id ≠ own_id.
Proof.
  induction results as [|[doc score] results IH]; intros Hall.
  - exists []. split; [done|]. intros id sim. split.
    + intros H. by apply elem_of_nil in H.
    + intros (d & sc & H & _). by apply elem_of_nil in H.
  - apply Forall_cons in Hall as [[id0 Hid0] Hall]. simpl in Hid0.
    destruct (IH Hall) as (dups & Hsel & Hspec). simpl. rewrite Hid0, Hsel. simpl.
    destruct (Qgeb (1 - score) threshold) eqn:Hge;
      [destruct (String.eqb_spec id0 own_id) as [Heq|Hne]; simpl|].
    + exists dups. split; [done|]. intros id sim. rewrite Hspec. split.
      * intros (d & sc & H & ?). exists d, sc. split; [by right | done].
      * intros (d & sc & H & Hd & Hs & Ht & Hn).
        apply elem_of_cons in H as [[= -> ->]|H]; [congruence|].
        by exists d, sc.
    + apply Qgeb_true in Hge.
      exists ((id0, (1 - score)%Q) :: dups). split; [done|]. intros id sim.
      rewrite elem_of_cons, Hspec. split.
      * intros [[= -> ->]|(d & sc & H & ?)].
        -- exists doc, score. split; [left | done].
        -- exists d, sc. split; [by right | done].
      * intros (d & sc & H & Hd & Hs & Ht & Hn).
        apply elem_of_cons in H as [[= -> ->]|H].
        -- left. congruence.
        -- right. by exists d, sc.
    + exists dups. split; [done|]. intros id sim. rewrite Hspec. split.
      * intros (d & sc & H & ?). exists d, sc. split; [by right | done].
      * intros (d & sc & H & Hd & Hs & Ht & Hn).
        apply elem_of_cons in H as [[= -> ->]|H]; [|by exists d, sc].
        apply Qgeb_true in Ht. congruence.
Qed.

(** With the threshold resolved and the index answering, the stage flags
    the article with the first candidate that passes the comprehension. *)
Lemma dedup_resolved (env : Env) (vs : VectorStoreManager.t)
    (state : AgentState.t) (threshold : Q) (results : list (Document.t * Q)) :
  vector_store_globals env !! "SIMILARITY_THRESHOLD" = Some threshold ->
  similarity_search_with_score env (VectorStoreManager.news_collection vs)
    (NewsArticle.title (AgentState.article state) +:+ newline +:+ newline +:+
     NewsArticle.content (AgentState.article state)) 5 = Ok results ->
  DeduplicationAgent.process env vs state =
    match VectorStoreManager.select_duplicates threshold
            (NewsArticle.article_id (AgentState.article state)) results with
    | Ok ((duplicate_id, similarity) :: _) =>
        AgentState.set_metadata "duplicate_similarity" (MFloat similarity)
          (AgentState.set_duplicate_of (Some duplicate_id)
            (AgentState.set_is_duplicate true state))
    | Ok [] | Raise _ => AgentState.set_is_duplicate false state
    end.
Proof.
  intros Ht Hq.
  unfold DeduplicationAgent.process, VectorStoreManager.find_duplicates.
  rewrite Ht. simpl. rewrite Hq. simpl.
  by destruct (VectorStoreManager.select_duplicates _ _ _) as [[|[id sim] rest]|msg].
Qed.

Lemma similarity_antitone (d1 d2 : Q) : (d1 <= d2)%Q -> (1 - d2 <= 1 - d1)%Q.
Proof.
  intros H. unfold Qminus. apply Qplus_le_r. by apply Qopp_le_compat.
Qed.

Lemma select_duplicates_bound (threshold : Q) (own_id : string)
    (results : list (Document.t * Q)) (d : Q)
    (duplicates : list (string * Q)) :
  Forall (fun p => (d <= p.2)%Q) results ->
  VectorStoreManager.select_duplicates threshold own_id results = Ok duplicates ->
  Forall (fun c => (c.2 <= 1 - d)%Q) duplicates.
Proof.
  revert duplicates. induction results as [|[doc score] results IH];
    intros duplicates Hall Hsel; simpl in Hsel.
  - injection Hsel as <-. constructor.
  - apply Forall_cons in Hall as [Hd Hall]. simpl in Hd.
    destruct (Qgeb (1 - score) threshold); [|by apply IH].
    destruct (Document.metadata doc !! "article_id") as [id|]; [|done].
    destruct (negb (String.eqb id own_id)); [|by apply IH].
    destruct (VectorStoreManager.select_duplicates threshold own_id results)
      as [tl|] eqn:Htl; [|done].
    simpl in Hsel. injection Hsel as <-. constructor.
    + simpl. by apply similarity_antitone.
    + by apply IH.
Qed.

(** When the index returns its answer nearest first, the candidate the
    stage takes is one of highest similarity. *)
Lemma first_duplicate_is_most_similar (threshold : Q) (own_id : string)
    (results : list (Document.t * Q)) (id : string) (sim : Q)
    (rest : list (string * Q)) :
  StronglySorted (fun p q => (p.2 <= q.2)%Q) results ->
  VectorStoreManager.select_duplicates threshold own_id results
    = Ok ((id, sim) :: rest) ->
  Forall (fun c => (c.2 <= sim)%Q) rest.
Proof.
  induction results as [|[doc score] results IH]; intros Hs Hsel;
    simpl in Hsel; [done|].
  apply StronglySorted_inv in Hs as [Hs Hhd].
  destruct (Qgeb (1 - score) threshold); [|by apply IH].
  destruct (Document.metadata doc !! "article_id") as [id'|]; [|done].
  destruct (negb (String.eqb id' own_id)); [|by apply IH].
  destruct (VectorStoreManager.select_duplicates threshold own_id results)
    as [tl|] eqn:Htl; [|done].
  simpl in Hsel. injection Hsel as <- <- <-.
  by apply (select_duplicates_bound threshold own_id results score).
Qed.

(** C2, what the code does: N2 repeats the text of N1, which the index
    returns at distance 0.05 against a threshold of 0.9. In the namespace
    of the module as it is written the stage does not flag N2 and records
    the [NameError]; with the name bound the same call flags N2 as a
    duplicate of N1 at similarity 0.95. *)
Theorem shipped_dedup_misses_duplicate :
  let shipped := DeduplicationAgent.process (Scenario.env shipped_globals)
                   Scenario.index_with_n1 (AgentState.initial Scenario.n2) in
  let bound := DeduplicationAgent.process (Scenario.env Scenario.bound_globals)
                 Scenario.index_with_n1 (AgentState.initial Scenario.n2) in
  (AgentState.is_duplicate shipped = false ∧
   AgentState.duplicate_of shipped = None ∧
   AgentState.error shipped =
     Some "name 'SIMILARITY_THRESHOLD' is not defined") ∧
  (AgentState.is_duplicate bound = true ∧
   AgentState.duplicate_of bound = Some "N1" ∧
   AgentState.processing_metadata bound !! "duplicate_similarity" =
     Some (MFloat (1 - (5 # 100))) ∧
   AgentState.error bound = None).
Proof. vm_compute. repeat split. Qed.

(** C5, as stated, fails: with the threshold resolved, the index raises
    and the stage returns a state whose [error] is still unset; in the
    namespace of the module as written the index is not even asked, and
    [error] holds another message. *)
Lemma index_failure_not_recorded :
  let article := Scenario.n2 in
  let query := NewsArticle.title article +:+ newline +:+ newline +:+
               NewsArticle.content article in
  similarity_search_with_score (Scenario.env_index_down Scenario.bound_globals)
    (VectorStoreManager.news_collection Scenario.index_with_n1) query 5
    = Raise "index unavailable" ∧
  AgentState.error
    (DeduplicationAgent.process (Scenario.env_index_down Scenario.bound_globals)
       Scenario.index_with_n1 (AgentState.initial article)) = None ∧
  AgentState.error
    (DeduplicationAgent.process (Scenario.env_index_down shipped_globals)
       Scenario.index_with_n1 (AgentState.initial article))
    ≠ Some "index unavailable".
Proof. vm_compute. repeat split. discriminate. Qed.

(** C5, amended: when the query of the similarity index raises, the
    threshold having been resolved, the exception is caught inside
    [find_duplicates], which returns no candidate; the stage sets
    [is_duplicate] to false and leaves every other field, [error]
    included, as it was: the message is not recorded. *)
Theorem dedup_index_failure_fails_open
    (env : Env) (vs : VectorStoreManager.t) (state : AgentState.t)
    (threshold : Q) (msg : string) :
  vector_store_globals env !! "SIMILARITY_THRESHOLD" = Some threshold ->
  similarity_search_with_score env (VectorStoreManager.news_collection vs)
    (NewsArticle.title (AgentState.article state) +:+ newline +:+ newline +:+
     NewsArticle.content (AgentState.article state)) 5 = Raise msg ->
  VectorStoreManager.find_duplicates env vs (AgentState.article state) None = Ok [] ∧
  DeduplicationAgent.process env vs state = AgentState.set_is_duplicate false state ∧
  AgentState.error (DeduplicationAgent.process env vs state) = AgentState.error state.
Proof.
  intros Ht Hq.
  assert (H : VectorStoreManager.find_duplicates env vs
                (AgentState.article state) None = Ok []).
  { unfold VectorStoreManager.find_duplicates. rewrite Ht. simpl. by rewrite Hq. }
  split; [done|]. unfold DeduplicationAgent.process. by rewrite H.
Qed.

Lemma dedup_index_failure_fails_open_witness :
  vector_store_globals (Scenario.env_index_down Scenario.bound_globals)
    !! "SIMILARITY_THRESHOLD" = Some (9 # 10) ∧
  DeduplicationAgent.process (Scenario.env_index_down Scenario.bound_globals)
    Scenario.index_with_n1 (AgentState.initial Scenario.n2)
  = AgentState.set_is_duplicate false (AgentState.initial Scenario.n2).
Proof.
  split; [reflexivity|].
  apply (dedup_index_failure_fails_open
           (Scenario.env_index_down Scenario.bound_globals)
           Scenario.index_with_n1 (AgentState.initial Scenario.n2)
           (9 # 10) "index unavailable"); reflexivity.
Defined.

(** ** Stages after a recorded error, and failures of the language model *)

(** What the two stages store for an article that is no duplicate. *)
Lemma entity_process_runs (env : Env) (state : AgentState.t)
    (spans : list (string * string)) (llm : list Entity.t) :
  let article := AgentState.article state in
  let text := NewsArticle.title article +:+ " " +:+ NewsArticle.content article in
  AgentState.is_duplicate state = false ->
  nlp env text = Ok spans ->
  EntityExtractionAgent.entities_of_llm env
    (EntityExtractionAgent.extract_with_llm env (NewsArticle.title article)
       (NewsArticle.content article)) = Ok llm ->
  let merged :=
    EntityExtractionAgent.merge_fresh
      (omap EntityExtractionAgent.entity_of_span spans ++
       EntityExtractionAgent.extract_sectors text ++
       EntityExtractionAgent.extract_regulators text ++ llm) in
  EntityExtractionAgent.process env state =
    AgentState.set_metadata "entity_count" (MInt (length merged))
      (AgentState.set_entities merged state).
Proof.
  intros article text Hdup Hnlp Hllm. simpl.
  unfold EntityExtractionAgent.process, EntityExtractionAgent.extract_with_spacy.
  fold article. fold text. rewrite Hdup, Hnlp. simpl. by rewrite Hllm.
Qed.

(** What the extraction stage returns when the tagger raises, or when one
    of the loops over the answer of the language model does. *)
Lemma entity_process_fails (env : Env) (state : AgentState.t) (msg : string) :
  let article := AgentState.article state in
  let text := NewsArticle.title article +:+ " " +:+ NewsArticle.content article in
  AgentState.is_duplicate state = false ->
  nlp env text = Raise msg ∨
  (∃ spans, nlp env text = Ok spans ∧
     EntityExtractionAgent.entities_of_llm env
       (EntityExtractionAgent.extract_with_llm env (NewsArticle.title article)
          (NewsArticle.content article)) = Raise msg) ->
  EntityExtractionAgent.process env state = AgentState.set_error msg state.
Proof.
  intros article text Hdup H.
  unfold EntityExtractionAgent.process, EntityExtractionAgent.extract_with_spacy.
  fold article. fold text. rewrite Hdup.
  destruct H as [Hnlp|(spans & Hnlp & Hllm)]; rewrite Hnlp; simpl; [done|].
  by rewrite Hllm.
Qed.



Lemma impact_process_runs (env : Env) (state : AgentState.t) :
  let article := AgentState.article state in
  let entities := AgentState.entities state in
  AgentState.is_duplicate state = false ->
  let merged :=
    StockImpactAgent.merge_impacts
      (StockImpactAgent.get_direct_impacts entities ++
       StockImpactAgent.get_sector_impacts entities ++
       StockImpactAgent.get_regulatory_impacts entities ++
       StockImpactAgent.analyze_with_llm env (NewsArticle.title article)
         (NewsArticle.content article) entities) in
  StockImpactAgent.process env state =
    AgentState.set_metadata "impact_count" (MInt (length merged))
      (AgentState.set_stock_impacts merged state).
Proof.
  intros article entities Hdup. simpl.
  unfold StockImpactAgent.process. by rewrite Hdup.
Qed.


(** What the storage stage leaves as it was. *)
Lemma storage_process_keeps_flags (env : Env) (w : World) (state : AgentState.t) :
  let s := (StorageAgent.process env w state).1 in
  AgentState.article s = AgentState.article state ∧
  AgentState.is_duplicate s = AgentState.is_duplicate state ∧
  AgentState.duplicate_of s = AgentState.duplicate_of state ∧
  AgentState.entities s = AgentState.entities state ∧
  AgentState.stock_impacts s = AgentState.stock_impacts state ∧
  (is_Some (AgentState.error state) -> is_Some (AgentState.error s)).
Proof.
  unfold StorageAgent.process.
  destruct (Database.get_db_session _ _ _) as [db [[]|msg]]; simpl.
  - destruct (negb (AgentState.is_duplicate state)); simpl; [|done].
    destruct (VectorStoreManager.add_article _ _ _ _) as [vs [[]|msg]]; simpl;
      repeat split; try done; by eexists.
  - repeat split; try done; by eexists.
Qed.


(** C6, as stated, fails: with [error] set and [is_duplicate] false, the
    extraction stage replaces the empty [entities] by three entities, and
    the impact stage the empty [stock_impacts] by five impacts. *)
Lemma stages_mutate_after_error :
  let env := Scenario.env Scenario.bound_globals in
  let state := AgentState.set_error "earlier failure"
                 (AgentState.initial Scenario.n1) in
  let extracted := EntityExtractionAgent.process env state in
  AgentState.error state = Some "earlier failure" ∧
  AgentState.is_duplicate state = false ∧
  AgentState.entities state = [] ∧
  AgentState.entities extracted =
    [Entity.mk "HDFC Bank" "COMPANY" (8 # 10);
     Entity.mk "Banking" "SECTOR" (7 # 10);
     Entity.mk "RBI" "REGULATOR" (9 # 10)] ∧
  AgentState.error extracted = Some "earlier failure" ∧
  AgentState.stock_impacts extracted = [] ∧
  map StockImpact.symbol
    (AgentState.stock_impacts (StockImpactAgent.process env extracted)) =
    ["HDFCBANK"; "ICICIBANK"; "SBIN"; "AXISBANK"; "KOTAKBANK"].
Proof. vm_compute. repeat split. Qed.

(** C6, amended: for a state whose [error] is set and whose [is_duplicate]
    is false, neither stage consults [error]. The extraction stage, when
    its tagger answers and the loops over the answer of the language model
    complete, overwrites [entities] with the merge of what its strategies
    extract and carries [error] through as it was; when the tagger raises,
    or the answer has not the shape the loops expect, it returns the state
    it was given with [error] replaced by the message of that exception.
    The impact stage overwrites [stock_impacts] with the merge of its four
    sources and carries [error] through as it was. *)
Theorem stages_run_with_error_set
    (env : Env) (state : AgentState.t) (msg : string) :
  AgentState.error state = Some msg ->
  AgentState.is_duplicate state = false ->
  let article := AgentState.article state in
  let text := NewsArticle.title article +:+ " " +:+ NewsArticle.content article in
  let entities := AgentState.entities state in
  let answer :=
    EntityExtractionAgent.entities_of_llm env
      (EntityExtractionAgent.extract_with_llm env
         (NewsArticle.title article) (NewsArticle.content article)) in
  (∀ spans llm, nlp env text = Ok spans -> answer = Ok llm ->
     AgentState.entities (EntityExtractionAgent.process env state) =
       EntityExtractionAgent.merge_fresh
         (omap EntityExtractionAgent.entity_of_span spans ++
          EntityExtractionAgent.extract_sectors text ++
          EntityExtractionAgent.extract_regulators text ++ llm) ∧
     AgentState.stock_impacts (EntityExtractionAgent.process env state) =
       AgentState.stock_impacts state ∧
     AgentState.error (EntityExtractionAgent.process env state) = Some msg) ∧
  (∀ own,
     nlp env text = Raise own ∨
     (∃ spans, nlp env text = Ok spans ∧ answer = Raise own) ->
     EntityExtractionAgent.process env state = AgentState.set_error own state) ∧
  AgentState.stock_impacts (StockImpactAgent.process env state) =
    StockImpactAgent.merge_impacts
      (StockImpactAgent.get_direct_impacts entities ++
       StockImpactAgent.get_sector_impacts entities ++
       StockImpactAgent.get_regulatory_impacts entities ++
       StockImpactAgent.analyze_with_llm env (NewsArticle.title article)
         (NewsArticle.content article) entities) ∧
  AgentState.entities (StockImpactAgent.process env state) = entities ∧
  AgentState.error (StockImpactAgent.process env state) = Some msg.
Proof.
  intros Herr Hdup article text entities answer.
  split; [|split; [|split; [|split]]].
  - intros spans llm Hnlp Hllm.
    rewrite (entity_process_runs env state spans llm Hdup Hnlp Hllm). by simpl.
  - intros own H. by apply entity_process_fails.
  - by rewrite (impact_process_runs env state Hdup).
  - by rewrite (impact_process_runs env state Hdup).
  - by rewrite (impact_process_runs env state Hdup).
Qed.

Lemma stages_run_with_error_set_witness :
  let env := Scenario.env_llm_ill_shaped Scenario.bound_globals in
  let state := AgentState.set_error "earlier failure"
                 (AgentState.initial Scenario.n1) in
  AgentState.error state = Some "earlier failure" ∧
  AgentState.is_duplicate state = false ∧
  EntityExtractionAgent.process env state =
    AgentState.set_error "1 validation error for Entity" state ∧
  AgentState.error (StockImpactAgent.process env state) = Some "earlier failure".
Proof.
  intros env state. split; [reflexivity|]. split; [reflexivity|].
  pose proof (stages_run_with_error_set env state "earlier failure"
                eq_refl eq_refl) as (_ & Hown & _ & _ & Himpact).
  split; [|exact Himpact].
  apply Hown. right. exists [("HDFC Bank", "ORG")]. split; reflexivity.
Defined.




(** ** The entity merge *)

Section FirstSeen.
Variable h : gmap nat Entity.t.
Implicit Types (earlier : list (string * string)) (locs pre : list nat).

Lemma keys_at_app locs1 locs2 :
  keys_at h (locs1 ++ locs2) = keys_at h locs1 ++ keys_at h locs2.
Proof. apply omap_app. Qed.

Lemma elem_of_keys_at k locs :
  k ∈ keys_at h locs <-> ∃ l, l ∈ locs ∧ key_at h l = Some k.
Proof. apply list_elem_of_omap. Qed.

Lemma first_seen_elem earlier locs l :
  l ∈ first_seen h earlier locs ->
  l ∈ locs ∧ ∃ k, key_at h l = Some k ∧ k ∉ earlier.
Proof.
  revert earlier. induction locs as [|a locs IH]; intros earlier; simpl.
  - intros H. by apply elem_of_nil in H.
  - destruct (key_at h a) as [ka|] eqn:Ha.
    + destruct (decide (ka ∈ earlier)) as [Hin|Hnin].
      * intros H. destruct (IH _ H) as [? ?]. split; [by right | done].
      * rewrite elem_of_cons. intros [->|H].
        -- split; [left | by exists ka].
        -- destruct (IH _ H) as [? (k & Hk & Hke)]. split; [by right|].
           exists k. split; [done|]. rewrite not_elem_of_cons in Hke. tauto.
    + intros H. destruct (IH _ H) as [? ?]. split; [by right | done].
Qed.

Lemma first_seen_covers earlier locs l k :
  l ∈ locs -> key_at h l = Some k ->
  k ∈ earlier ∨ k ∈ keys_at h (first_seen h earlier locs).
Proof.
  revert earlier. induction locs as [|a locs IH]; intros earlier Hl Hk.
  - by apply elem_of_nil in Hl.
  - simpl. apply elem_of_cons in Hl as [->|Hl].
    + rewrite Hk. destruct (decide (k ∈ earlier)); [by left|].
      right. apply elem_of_keys_at. exists a. split; [left | done].
    + destruct (key_at h a) as [ka|] eqn:Ha; [|by apply IH].
      destruct (decide (ka ∈ earlier)); [by apply IH|].
      destruct (IH (ka :: earlier) Hl Hk) as [H|H].
      * apply elem_of_cons in H as [->|H]; [|by left].
        right. apply elem_of_keys_at. exists a. split; [left | done].
      * right. apply elem_of_keys_at in H as (l' & Hl' & Hk').
        apply elem_of_keys_at. exists l'. split; [by right | done].
Qed.

Lemma first_seen_keys_NoDup earlier locs :
  NoDup (keys_at h (first_seen h earlier locs)).
Proof.
  revert earlier. induction locs as [|a locs IH]; intros earlier; simpl.
  - apply NoDup_nil_2.
  - destruct (key_at h a) as [ka|] eqn:Ha; [|apply IH].
    destruct (decide (ka ∈ earlier)); [apply IH|].
    unfold keys_at. simpl. rewrite Ha. apply NoDup_cons. split; [|apply IH].
    intros H. apply elem_of_keys_at in H as (l & Hl & Hk).
    apply first_seen_elem in Hl as [_ (k & Hk' & Hne)].
    rewrite Hk in Hk'. injection Hk' as <-. apply Hne. left.
Qed.

Lemma first_seen_snoc earlier pre l k :
  key_at h l = Some k ->
  first_seen h earlier (pre ++ [l]) =
    first_seen h earlier pre ++
    (if decide (k ∈ earlier ++ keys_at h (first_seen h earlier pre))
     then [] else [l]).
Proof.
  intros Hk. revert earlier.
  induction pre as [|a pre IH]; intros earlier; simpl.
  - rewrite Hk, app_nil_r. by destruct (decide (k ∈ earlier)).
  - destruct (key_at h a) as [ka|] eqn:Ha; [|apply IH].
    destruct (decide (ka ∈ earlier)) as [Hin|Hnin]; [apply IH|].
    rewrite IH. simpl. f_equal. f_equal.
    unfold keys_at at 2. simpl. rewrite Ha.
    apply decide_ext. fold (keys_at h (first_seen h (ka :: earlier) pre)).
    rewrite ?elem_of_app, ?elem_of_cons, ?elem_of_app. tauto.
Qed.

End FirstSeen.

Section MergeEntities.
Import EntityExtractionAgent.
Variable h : gmap nat Entity.t.
Implicit Types (pre : list nat) (st : MergeState) (e : Entity.t).

Lemma with_confidence_same e : Entity.with_confidence (Entity.confidence e) e = e.
Proof. by destruct e. Qed.

Lemma with_confidence_eq (c c' : Q) e e' :
  Entity.with_confidence c e = Entity.with_confidence c' e' -> c = c'.
Proof. intros H. by apply (f_equal Entity.confidence) in H. Qed.

Lemma key_at_Some l e : h !! l = Some e -> key_at h l = Some (key e).
Proof. intros H. unfold key_at. by rewrite H. Qed.

Lemma key_at_inv l k :
  key_at h l = Some k -> ∃ e, h !! l = Some e ∧ key e = k.
Proof.
  unfold key_at. destruct (h !! l) as [e|]; [|done].
  intros [= <-]. by exists e.
Qed.

Lemma max_confidence_other pre l k c :
  max_confidence h pre k c -> key_at h l ≠ Some k ->
  max_confidence h (pre ++ [l]) k c.
Proof.
  intros [(l1 & e1 & Hin & He1 & Hk1 & Hc1) Hle] Hne. split.
  - exists l1, e1. split; [apply elem_of_app; by left | done].
  - intros l2 e2 Hin2 He2 Hk2.
    apply elem_of_app in Hin2 as [Hin2|Hin2]; [by eapply Hle|].
    apply list_elem_of_singleton in Hin2 as ->.
    destruct Hne. rewrite (key_at_Some _ _ He2). by rewrite Hk2.
Qed.

Lemma max_confidence_keep pre l e c :
  max_confidence h pre (key e) c -> h !! l = Some e ->
  (Entity.confidence e <= c)%Q ->
  max_confidence h (pre ++ [l]) (key e) c.
Proof.
  intros [(l1 & e1 & Hin & He1 & Hk1 & Hc1) Hle] He Hc. split.
  - exists l1, e1. split; [apply elem_of_app; by left | done].
  - intros l2 e2 Hin2 He2 Hk2.
    apply elem_of_app in Hin2 as [Hin2|Hin2]; [by eapply Hle|].
    apply list_elem_of_singleton in Hin2 as ->.
    assert (e2 = e) as -> by congruence. done.
Qed.

Lemma max_confidence_raise pre l e c :
  (∀ l' e', l' ∈ pre -> h !! l' = Some e' -> key e' = key e ->
            (Entity.confidence e' <= c)%Q) ->
  h !! l = Some e -> (c <= Entity.confidence e)%Q ->
  max_confidence h (pre ++ [l]) (key e) (Entity.confidence e).
Proof.
  intros Hle He Hc. split.
  - exists l, e. split; [apply elem_of_app; right; left | done].
  - intros l2 e2 Hin2 He2 Hk2.
    apply elem_of_app in Hin2 as [Hin2|Hin2].
    + eapply Qle_trans; [by eapply Hle | done].
    + apply list_elem_of_singleton in Hin2 as ->.
      assert (e2 = e) as -> by congruence. apply Qle_refl.
Qed.

Lemma merged_visited pre st l :
  merge_inv h pre st -> l ∈ merged st -> l ∈ pre.
Proof.
  intros Hinv Hl. rewrite (inv_merged _ _ _ Hinv) in Hl.
  by apply first_seen_elem in Hl as [? _].
Qed.

Lemma merged_same_key pre st l1 l2 k :
  merge_inv h pre st -> l1 ∈ merged st -> l2 ∈ merged st ->
  key_at h l1 = Some k -> key_at h l2 = Some k -> l1 = l2.
Proof.
  intros Hinv H1 H2 K1 K2.
  assert (seen st !! k = Some l1) by (by apply (inv_seen _ _ _ Hinv)).
  assert (seen st !! k = Some l2) by (by apply (inv_seen _ _ _ Hinv)).
  congruence.
Qed.

End MergeEntities.

Section MergeLoop.
Import EntityExtractionAgent.
Variable h : gmap nat Entity.t.
Implicit Types (pre : list nat) (st : MergeState) (e : Entity.t).

(** First case of the loop: the key is new. *)
Lemma merge_step_new pre st l e :
  merge_inv h pre st -> h !! l = Some e ->
  seen st !! key e = None ->
  merge_inv h (pre ++ [l])
    (mkMerge (heap st) (<[key e := l]> (seen st)) (merged st ++ [l])).
Proof.
  intros Hinv He Hseen.
  pose proof (key_at_Some h l e He) as Hkl.
  assert (Hfresh : ∀ l', l' ∈ merged st -> key_at h l' ≠ Some (key e)).
  { intros l' Hl' Hk'.
    assert (seen st !! key e = Some l') by (by apply (inv_seen _ _ _ Hinv)).
    congruence. }
  assert (Hlm : l ∉ merged st) by (intros Hin; by apply (Hfresh l)).
  destruct Hinv as [Hun Hco Hme Hse Hmx Hvi]. split; simpl.
  - done.
  - intros l' e' He'. destruct (Hco l' e' He') as (c & Hc & Hcn).
    exists c. split; [done|]. intros Hn. apply Hcn.
    intros Hin. apply Hn, elem_of_app. by left.
  - rewrite (first_seen_snoc h [] pre l (key e) Hkl), <- Hme. simpl.
    rewrite decide_False; [done|].
    intros Hin. apply elem_of_keys_at in Hin as (l' & Hl' & Hk').
    by apply (Hfresh l').
  - intros k l'. destruct (decide (key e = k)) as [<-|Hne].
    + rewrite lookup_insert_eq. split.
      * intros [= <-]. split; [apply elem_of_app; right; left | done].
      * intros [Hin Hk]. apply elem_of_app in Hin as [Hin|Hin].
        -- by destruct (Hfresh l').
        -- by apply list_elem_of_singleton in Hin as ->.
    + rewrite lookup_insert_ne by done. rewrite Hse. split.
      * intros [Hin Hk]. split; [apply elem_of_app; by left | done].
      * intros [Hin Hk]. apply elem_of_app in Hin as [Hin|Hin]; [done|].
        apply list_elem_of_singleton in Hin as ->. congruence.
  - intros l' e' c Hin He' Hh'. apply elem_of_app in Hin as [Hin|Hin].
    + apply max_confidence_other; [by eapply Hmx|].
      intros Hk. apply (Hfresh l' Hin).
      rewrite (key_at_Some h l' e' He'). congruence.
    + apply list_elem_of_singleton in Hin as ->.
      assert (e' = e) as -> by congruence.
      destruct (Hco l e He) as (c' & Hc' & Hcn). specialize (Hcn Hlm).
      assert (c = Entity.confidence e) as ->.
      { rewrite Hh' in Hc'. injection Hc' as ->. done. }
      apply (max_confidence_raise h pre l e (Entity.confidence e));
        [|done|apply Qle_refl].
      intros l2 e2 Hin2 He2 Hk2. exfalso.
      destruct (Hvi l2 (key e) Hin2) as [l0 Hl0]; [|congruence].
      rewrite (key_at_Some h l2 e2 He2). by rewrite Hk2.
  - intros l' k Hin Hk. destruct (decide (key e = k)) as [<-|Hne].
    + rewrite lookup_insert_eq. by eexists.
    + rewrite lookup_insert_ne by done.
      apply elem_of_app in Hin as [Hin|Hin]; [by eapply Hvi|].
      apply list_elem_of_singleton in Hin as ->. congruence.
Qed.


(** What the invariant says of the entity [seen] holds for a key. *)
Lemma seen_entry pre st l0 e :
  merge_inv h pre st -> seen st !! key e = Some l0 ->
  l0 ∈ merged st ∧
  ∃ e0 c0, h !! l0 = Some e0 ∧ key e0 = key e ∧
           heap st !! l0 = Some (Entity.with_confidence c0 e0) ∧
           max_confidence h pre (key e) c0.
Proof.
  intros Hinv Hseen.
  apply (inv_seen _ _ _ Hinv) in Hseen as [Hin Hk].
  split; [done|]. apply key_at_inv in Hk as (e0 & He0 & Hk0).
  destruct (inv_confidence_only _ _ _ Hinv l0 e0 He0) as (c0 & Hc0 & _).
  exists e0, c0. split; [done|]. split; [done|]. split; [done|].
  rewrite <- Hk0. by apply (inv_max _ _ _ Hinv l0).
Qed.

Lemma first_seen_snoc_seen pre st l l0 e :
  merge_inv h pre st -> h !! l = Some e -> seen st !! key e = Some l0 ->
  first_seen h [] (pre ++ [l]) = merged st.
Proof.
  intros Hinv He Hseen.
  rewrite (first_seen_snoc h [] pre l (key e) (key_at_Some h l e He)).
  rewrite <- (inv_merged _ _ _ Hinv). simpl.
  rewrite decide_True; [by rewrite app_nil_r|].
  apply (inv_seen _ _ _ Hinv) in Hseen as [Hin Hk].
  apply elem_of_keys_at. by exists l0.
Qed.

(** Second case: the key is known and the entity at hand is more
    confident than the one kept. *)
Lemma merge_step_raise pre st l e l0 first :
  merge_inv h pre st -> h !! l = Some e ->
  heap st !! l = Some (Entity.with_confidence (Entity.confidence e) e) ->
  seen st !! key e = Some l0 -> heap st !! l0 = Some first ->
  (Entity.confidence first < Entity.confidence e)%Q ->
  merge_inv h (pre ++ [l])
    (mkMerge (<[l0 := Entity.with_confidence (Entity.confidence e) first]> (heap st))
             (seen st) (merged st)).
Proof.
  intros Hinv He Hl Hseen Hfirst Hlt.
  destruct (seen_entry pre st l0 e Hinv Hseen)
    as (Hl0m & e0 & c0 & He0 & Hk0 & Hh0 & Hmax0).
  assert (first = Entity.with_confidence c0 e0) as -> by congruence.
  simpl in Hlt.
  pose proof (first_seen_snoc_seen pre st l l0 e Hinv He Hseen) as Hsnoc.
  pose proof Hinv as [Hun Hco Hme Hse Hmx Hvi]. split; simpl.
  - intros l' Hl'. rewrite lookup_insert_ne; [by apply Hun|].
    intros ->. congruence.
  - intros l' e' He'. destruct (decide (l0 = l')) as [<-|Hn].
    + rewrite lookup_insert_eq. assert (e' = e0) as -> by congruence.
      exists (Entity.confidence e). by split.
    + rewrite lookup_insert_ne by done. by apply Hco.
  - done.
  - done.
  - intros l' e' c Hin He' Hh'. destruct (decide (l0 = l')) as [<-|Hn].
    + rewrite lookup_insert_eq in Hh'. assert (e' = e0) as -> by congruence.
      assert (c = Entity.confidence e) as ->.
      { symmetry.
        apply (with_confidence_eq _ _ (Entity.with_confidence c0 e0) e0).
        congruence. }
      rewrite Hk0. apply (max_confidence_raise h pre l e c0); [|done|].
      * intros l2 e2 Hin2 He2 Hk2. destruct Hmax0 as [_ Hle]. by eapply Hle.
      * by apply Qlt_le_weak.
    + rewrite lookup_insert_ne in Hh' by done.
      apply max_confidence_other; [by eapply Hmx|].
      intros Hk. apply Hn. symmetry.
      apply (merged_same_key h pre st l' l0 (key e')); [done..| |].
      * by apply key_at_Some.
      * rewrite (key_at_Some h l0 e0 He0), Hk0.
        rewrite (key_at_Some h l e He) in Hk. congruence.
  - intros l' k Hin Hk.
    apply elem_of_app in Hin as [Hin|Hin]; [by eapply Hvi|].
    apply list_elem_of_singleton in Hin as ->.
    rewrite (key_at_Some h l e He) in Hk. injection Hk as <-. by eexists.
Qed.

(** Third case: the key is known and the entity at hand is not more
    confident than the one kept. *)
Lemma merge_step_keep pre st l e c l0 first :
  merge_inv h pre st -> h !! l = Some e ->
  heap st !! l = Some (Entity.with_confidence c e) ->
  (l ∉ merged st -> c = Entity.confidence e) ->
  seen st !! key e = Some l0 -> heap st !! l0 = Some first ->
  (c <= Entity.confidence first)%Q ->
  merge_inv h (pre ++ [l]) st.
Proof.
  intros Hinv He Hl Hc Hseen Hfirst Hle.
  destruct (seen_entry pre st l0 e Hinv Hseen)
    as (Hl0m & e0 & c0 & He0 & Hk0 & Hh0 & Hmax0).
  assert (first = Entity.with_confidence c0 e0) as -> by congruence.
  simpl in Hle.
  pose proof (first_seen_snoc_seen pre st l l0 e Hinv He Hseen) as Hsnoc.
  assert (Hbound : (Entity.confidence e <= c0)%Q).
  { destruct (decide (l ∈ merged st)) as [Hin|Hnin].
    - destruct Hmax0 as [_ Hb]. apply (Hb l e); [|done..].
      by apply (merged_visited h pre st).
    - by rewrite <- (Hc Hnin). }
  pose proof Hinv as [Hun Hco Hme Hse Hmx Hvi]. split; try done.
  - intros l' e' c' Hin He' Hh'.
    destruct (decide (key e' = key e)) as [Hk|Hk].
    + assert (l' = l0) as ->.
      { apply (merged_same_key h pre st l' l0 (key e)); [done..| |].
        - rewrite (key_at_Some h l' e' He'). by rewrite Hk.
        - rewrite (key_at_Some h l0 e0 He0). by rewrite Hk0. }
      assert (e' = e0) as -> by congruence.
      assert (c' = c0) as ->.
      { apply (with_confidence_eq _ _ e0 e0). congruence. }
      rewrite Hk0. by apply max_confidence_keep.
    + apply max_confidence_other; [by eapply Hmx|].
      rewrite (key_at_Some h l e He). congruence.
  - intros l' k Hin Hk.
    apply elem_of_app in Hin as [Hin|Hin]; [by eapply Hvi|].
    apply list_elem_of_singleton in Hin as ->.
    rewrite (key_at_Some h l e He) in Hk. injection Hk as <-. by eexists.
Qed.

Lemma entity_step_inv pre st l :
  is_Some (h !! l) -> merge_inv h pre st ->
  merge_inv h (pre ++ [l]) (merge_step st l).
Proof.
  intros [e He] Hinv.
  destruct (inv_confidence_only _ _ _ Hinv l e He) as (c & Hl & Hc).
  unfold merge_step. rewrite Hl.
  change (key (Entity.with_confidence c e)) with (key e).
  destruct (seen st !! key e) as [l0|] eqn:Hseen;
    [|by apply merge_step_new].
  destruct (seen_entry pre st l0 e Hinv Hseen)
    as (Hl0m & e0 & c0 & He0 & Hk0 & Hh0 & Hmax0).
  rewrite Hh0. simpl.
  destruct (Qgtb c c0) eqn:Hgt.
  - apply Qgtb_true in Hgt.
    assert (Hlm : l ∉ merged st).
    { intros Hin.
      assert (l = l0) as ->.
      { apply (merged_same_key h pre st l l0 (key e)); [done..| |].
        - by apply key_at_Some.
        - rewrite (key_at_Some h l0 e0 He0). by rewrite Hk0. }
      assert (c = c0) as ->.
      { apply (with_confidence_eq _ _ e e0). congruence. }
      by apply Qlt_irrefl in Hgt. }
    rewrite (Hc Hlm) in *.
    by apply (merge_step_raise pre st l e l0 (Entity.with_confidence c0 e0)).
  - apply Qgtb_false in Hgt.
    by apply (merge_step_keep pre st l e c l0 (Entity.with_confidence c0 e0)).
Qed.

Lemma merge_loop_entities pre st suffix :
  (∀ l, l ∈ suffix -> is_Some (h !! l)) -> merge_inv h pre st ->
  merge_inv h (pre ++ suffix) (foldl merge_step st suffix).
Proof.
  revert pre st. induction suffix as [|l suffix IH]; intros pre st Hall Hinv.
  - by rewrite app_nil_r.
  - simpl. replace (pre ++ l :: suffix) with ((pre ++ [l]) ++ suffix)
      by (by rewrite <- app_assoc).
    apply IH.
    + intros l' Hl'. apply Hall. by right.
    + apply entity_step_inv; [|done]. apply Hall. left.
Qed.

Lemma merge_inv_start : merge_inv h [] (mkMerge h ∅ []).
Proof.
  split; simpl.
  - done.
  - intros l e He. exists (Entity.confidence e).
    by rewrite with_confidence_same.
  - done.
  - intros k l. rewrite lookup_empty. split; [done|].
    intros [H _]. by apply elem_of_nil in H.
  - intros l e c H. by apply elem_of_nil in H.
  - intros l k H. by apply elem_of_nil in H.
Qed.

End MergeLoop.

Lemma keys_deref (h h' : gmap nat Entity.t) (locs : list nat) :
  (∀ l, key_at h' l = key_at h l) ->
  map EntityExtractionAgent.key (EntityExtractionAgent.deref h' locs) =
  keys_at h locs.
Proof.
  intros Hk. induction locs as [|l locs IH]; [done|].
  unfold EntityExtractionAgent.deref, keys_at in *. simpl.
  rewrite <- (Hk l). unfold key_at at 1.
  destruct (h' !! l); simpl; [f_equal|]; exact IH.
Qed.

(** The loop of [merge_entities] ends in a state of the invariant. *)
Lemma merge_entities_inv (h : gmap nat Entity.t) (entities : list nat) :
  (∀ l, l ∈ entities -> is_Some (h !! l)) ->
  merge_inv h entities
    (foldl EntityExtractionAgent.merge_step
           (EntityExtractionAgent.mkMerge h ∅ []) entities).
Proof.
  intros Hall.
  apply (merge_loop_entities h [] _ entities Hall (merge_inv_start h)).
Qed.

Section MergeResult.
Import EntityExtractionAgent.
Context (h : gmap nat Entity.t) (pre : list nat) (st : MergeState).
Hypothesis Hinv : merge_inv h pre st.

Lemma merge_inv_keys (l : nat) : key_at (heap st) l = key_at h l.
Proof.
  unfold key_at. destruct (h !! l) as [e|] eqn:He.
  - destruct (inv_confidence_only _ _ _ Hinv l e He) as (c & -> & _). done.
  - by rewrite (inv_unallocated _ _ _ Hinv l He).
Qed.

Lemma merge_inv_NoDup : NoDup (map key (deref (heap st) (merged st))).
Proof.
  rewrite (keys_deref h _ _ merge_inv_keys), (inv_merged _ _ _ Hinv).
  apply first_seen_keys_NoDup.
Qed.

Lemma merge_inv_same_keys (k : string * string) :
  k ∈ map key (deref (heap st) (merged st)) <-> k ∈ map key (deref h pre).
Proof.
  rewrite (keys_deref h _ _ merge_inv_keys).
  rewrite (keys_deref h h _ (fun _ => eq_refl)).
  rewrite (inv_merged _ _ _ Hinv), !elem_of_keys_at. split.
  - intros (l & Hl & Hk). exists l. split; [|done].
    by apply first_seen_elem in Hl as [? _].
  - intros (l & Hl & Hk).
    destruct (first_seen_covers h [] pre l k Hl Hk) as [H|H].
    + by apply elem_of_nil in H.
    + by apply elem_of_keys_at in H.
Qed.

Lemma merge_inv_entry (l : nat) (e : Entity.t) :
  l ∈ merged st -> h !! l = Some e ->
  ∃ c, heap st !! l = Some (Entity.mk (Entity.text e) (Entity.type e) c) ∧
       max_confidence h pre (key e) c.
Proof.
  intros Hl He.
  destruct (inv_confidence_only _ _ _ Hinv l e He) as (c & Hc & _).
  exists c. split; [done|]. by apply (inv_max _ _ _ Hinv l e c).
Qed.

Lemma merge_inv_untouched (l : nat) : l ∉ merged st -> heap st !! l = h !! l.
Proof.
  intros Hl. destruct (h !! l) as [e|] eqn:He.
  - destruct (inv_confidence_only _ _ _ Hinv l e He) as (c & Hc & Hcn).
    rewrite Hc, (Hcn Hl). by rewrite with_confidence_same.
  - by apply (inv_unallocated _ _ _ Hinv).
Qed.

End MergeResult.

(** C3: for a list of entities in a heap, the merge returns the entities
    that are the first of the list to carry their key (lowercased text,
    type), in the order of the list: one entry per key of the input. Each
    is the very object of the input, updated in place: its text and type
    are as they were and its confidence is the greatest confidence the
    entities of the list with that key had at the call. No other object
    of the heap is written. *)
Theorem merge_entities_one_per_key_max_confidence
    (h : gmap nat Entity.t) (entities : list nat) :
  (∀ l, l ∈ entities -> is_Some (h !! l)) ->
  let h' := (EntityExtractionAgent.merge_entities h entities).1 in
  let merged := (EntityExtractionAgent.merge_entities h entities).2 in
  NoDup (map EntityExtractionAgent.key (EntityExtractionAgent.deref h' merged)) ∧
  (∀ k, k ∈ map EntityExtractionAgent.key (EntityExtractionAgent.deref h' merged)
        <-> k ∈ map EntityExtractionAgent.key
                  (EntityExtractionAgent.deref h entities)) ∧
  merged = first_seen h [] entities ∧
  (∀ l e, l ∈ merged -> h !! l = Some e ->
     ∃ c, h' !! l = Some (Entity.mk (Entity.text e) (Entity.type e) c) ∧
          max_confidence h entities (EntityExtractionAgent.key e) c) ∧
  (∀ l, l ∉ merged -> h' !! l = h !! l).
Proof.
  intros Hall. pose proof (merge_entities_inv h entities Hall) as Hinv.
  unfold EntityExtractionAgent.merge_entities. simpl.
  split; [|split; [|split; [|split]]].
  - by apply (merge_inv_NoDup h entities).
  - by apply merge_inv_same_keys.
  - by apply (inv_merged h entities).
  - by apply merge_inv_entry.
  - by apply (merge_inv_untouched h entities).
Qed.

(** *** The merge as [process] calls it, on freshly built entities *)

Lemma deref_fresh_from (pre es : list Entity.t) :
  omap (fun l => (pre ++ es) !! l) (seq (length pre) (length es)) = es.
Proof.
  revert pre. induction es as [|e es IH]; intros pre; [done|].
  simpl. rewrite list_lookup_middle by done. f_equal.
  specialize (IH (pre ++ [e])).
  rewrite length_app, Nat.add_1_r, <- app_assoc in IH. exact IH.
Qed.

Lemma deref_fresh (es : list Entity.t) :
  EntityExtractionAgent.deref (map_seq 0 es) (seq 0 (length es)) = es.
Proof.
  unfold EntityExtractionAgent.deref.
  transitivity (omap (fun l => es !! l) (seq 0 (length es)));
    [|apply (deref_fresh_from [] es)].
  induction (seq 0 (length es)) as [|l ls IH]; [done|].
  simpl. rewrite lookup_map_seq_0.
  destruct (es !! l); [f_equal|]; exact IH.
Qed.

Lemma fresh_allocated (es : list Entity.t) (l : nat) :
  l ∈ seq 0 (length es) -> is_Some (map_seq (M := gmap nat Entity.t) 0 es !! l).
Proof.
  intros Hl. apply elem_of_seq in Hl. rewrite lookup_map_seq_0.
  apply lookup_lt_is_Some. lia.
Qed.

Lemma fresh_elem (es : list Entity.t) (e : Entity.t) :
  e ∈ es <-> ∃ l, l ∈ seq 0 (length es) ∧
                  map_seq (M := gmap nat Entity.t) 0 es !! l = Some e.
Proof.
  rewrite list_elem_of_lookup. split.
  - intros [i Hi]. exists i. rewrite lookup_map_seq_0. split; [|done].
    apply elem_of_seq. apply lookup_lt_Some in Hi. lia.
  - intros (l & _ & Hl). exists l. by rewrite lookup_map_seq_0 in Hl.
Qed.

(** The entities [process] stores: one per key, each with the text and the
    type of an input entity of that key and the greatest confidence of the
    input entities of that key. *)
Lemma merge_fresh_max (es : list Entity.t) :
  let out := EntityExtractionAgent.merge_fresh es in
  NoDup (map EntityExtractionAgent.key out) ∧
  (∀ k, k ∈ map EntityExtractionAgent.key out
        <-> k ∈ map EntityExtractionAgent.key es) ∧
  (∀ r, r ∈ out ->
     (∃ e, e ∈ es ∧ Entity.text e = Entity.text r ∧
           Entity.type e = Entity.type r) ∧
     (∃ e, e ∈ es ∧ EntityExtractionAgent.key e = EntityExtractionAgent.key r ∧
           Entity.confidence e = Entity.confidence r) ∧
     (∀ e, e ∈ es ->
           EntityExtractionAgent.key e = EntityExtractionAgent.key r ->
           (Entity.confidence e <= Entity.confidence r)%Q)).
Proof.
  pose proof (merge_entities_inv (map_seq 0 es) (seq 0 (length es))
                (fresh_allocated es)) as Hinv.
  pose proof (merge_inv_NoDup _ _ _ Hinv) as Hnd.
  pose proof (merge_inv_same_keys _ _ _ Hinv) as Hkeys.
  pose proof (inv_merged _ _ _ Hinv) as Hme.
  pose proof (merge_inv_entry _ _ _ Hinv) as Hmax.
  unfold EntityExtractionAgent.merge_fresh, EntityExtractionAgent.merge_entities.
  set (st := foldl EntityExtractionAgent.merge_step _ _) in *.
  simpl. rewrite deref_fresh in Hkeys.
  split; [done|]. split; [done|].
  intros r Hr. apply list_elem_of_omap in Hr as (l & Hl & Hr).
  assert (Hlin : l ∈ seq 0 (length es)).
  { rewrite Hme in Hl. by apply first_seen_elem in Hl as [? _]. }
  destruct (fresh_allocated es l Hlin) as [e He].
  destruct (Hmax l e Hl He) as (c & Hc & [(l1 & e1 & Hl1 & He1 & Hk1 & Hc1) Hle]).
  assert (r = Entity.mk (Entity.text e) (Entity.type e) c) as -> by congruence.
  split; [|split].
  - exists e. split; [|done]. apply fresh_elem. by exists l.
  - exists e1. split; [|done]. apply fresh_elem. by exists l1.
  - intros e2 He2 Hk2. apply fresh_elem in He2 as (l2 & Hl2 & He2).
    by apply (Hle l2 e2).
Qed.

(** ** The properties on the scenarios *)

Lemma duplicate_short_circuit_witness :
  let env := Scenario.env Scenario.bound_globals in
  let w := Scenario.world_with_n1 in
  AgentState.is_duplicate
    (DeduplicationAgent.process env (vector_store w)
       (AgentState.initial Scenario.n2)) = true ∧
  AgentState.entities
    (NewsProcessingWorkflow.process_article env w Scenario.n2).1 = [] ∧
  AgentState.stock_impacts
    (NewsProcessingWorkflow.process_article env w Scenario.n2).1 = [].
Proof.
  split; [reflexivity|].
  pose proof (duplicate_short_circuit (Scenario.env Scenario.bound_globals)
                Scenario.world_with_n1 Scenario.n2 eq_refl) as (He & Hi & _).
  split; [exact He | exact Hi].
Defined.

Lemma merge_entities_witness :
  let h : gmap nat Entity.t :=
    map_seq 0 [Entity.mk "Bank" "SECTOR" (7 # 10);
               Entity.mk "HDFC Bank" "COMPANY" (8 # 10);
               Entity.mk "bank" "SECTOR" (9 # 10)] in
  (∀ l, l ∈ [0; 2; 1]%nat -> is_Some (h !! l)) ∧
  (EntityExtractionAgent.merge_entities h [0; 2; 1]%nat).2 =
    first_seen h [] [0; 2; 1]%nat.
Proof.
  intros h.
  assert (Hall : ∀ l, l ∈ [0; 2; 1]%nat -> is_Some (h !! l)).
  { intros l Hl. apply list_elem_of_In in Hl. simpl in Hl.
    destruct Hl as [<-|[<-|[<-|[]]]]; eexists; reflexivity. }
  split; [exact Hall|].
  apply (merge_entities_one_per_key_max_confidence h [0; 2; 1]%nat Hall).
Defined.

Lemma merge_impacts_witness :
  let first := StockImpact.mk "TCS" (9 # 10) "direct" None in
  let second := StockImpact.mk "TCS" (95 # 100) "sector" None in
  winner [first; second] second.
Proof.
  intros first second.
  apply (merge_impacts_one_per_symbol_strict_winner [first; second]).
  left.
Defined.

Lemma storage_all_or_nothing_witness :
  let env := Scenario.env Scenario.bound_globals in
  let state :=
    StockImpactAgent.process env
      (EntityExtractionAgent.process env (AgentState.initial Scenario.n1)) in
  let w := Scenario.empty_world in
  Database.unique_violation (database w) (rows_of state) = false ∧
  commit_error env (database w) (rows_of state) = None ∧
  database (StorageAgent.process env w state).2 = database w ++ rows_of state ∧
  length (rows_of state) = 9 ∧
  AgentState.processing_metadata (StorageAgent.process env w state).1 !! "stored"
    = Some (MBool true).
Proof.
  intros env state w.
  pose proof (storage_all_or_nothing env w state)
    as (_ & _ & _ & _ & Haccepted & _ & Hstored & _).
  split; [reflexivity|]. split; [reflexivity|].
  split; [apply Haccepted; reflexivity|]. split; [reflexivity|].
  destruct Hstored as [-> _]; [reflexivity | right; reflexivity | reflexivity].
Defined.

Lemma direct_impacts_witness :
  StockImpactAgent.get_direct_impacts
    [Entity.mk "HDFC Bank Ltd" "COMPANY" (8 # 10);
     Entity.mk "Banking" "SECTOR" (7 # 10);
     Entity.mk "Bank of Baroda" "COMPANY" (9 # 10)] =
  [StockImpact.mk "HDFCBANK" 1 "direct"
     (Some "Company 'HDFC Bank Ltd' directly mentioned");
   StockImpact.mk "BANKOFBARO" 1 "direct"
     (Some "Company 'Bank of Baroda' directly mentioned")].
Proof.
  etransitivity;
    [apply (direct_impacts_resolve_company_symbols
              [Entity.mk "HDFC Bank Ltd" "COMPANY" (8 # 10);
               Entity.mk "Banking" "SECTOR" (7 # 10);
               Entity.mk "Bank of Baroda" "COMPANY" (9 # 10)])|].
  reflexivity.
Defined.

Lemma index_failure_witness :
  let env := Scenario.env_embedding_down Scenario.bound_globals in
  let state :=
    StockImpactAgent.process env
      (EntityExtractionAgent.process env (AgentState.initial Scenario.n1)) in
  AgentState.is_duplicate state = false ∧
  AgentState.error (StorageAgent.process env Scenario.empty_world state).1
    = Some "embedding failed" ∧
  length (database (StorageAgent.process env Scenario.empty_world state).2) = 9.
Proof.
  intros env state. split; [reflexivity|].
  pose proof (index_failure_keeps_committed_rows env Scenario.empty_world state
                (rows_of state) VectorStoreManager.empty "embedding failed"
                eq_refl eq_refl eq_refl) as (Herr & _ & Hdb & _).
  split; [exact Herr|]. rewrite Hdb. reflexivity.
Defined.

(** The examples of the specification. *)

Example merge_impacts_higher_confidence_wins :
  StockImpactAgent.merge_impacts
    [StockImpact.mk "TCS" (9 # 10) "direct" None;
     StockImpact.mk "TCS" (95 # 100) "sector" None]
  = [StockImpact.mk "TCS" (95 # 100) "sector" None].
Proof. reflexivity. Qed.

Example merge_impacts_tie_keeps_first :
  StockImpactAgent.merge_impacts
    [StockImpact.mk "TCS" (9 # 10) "direct" None;
     StockImpact.mk "INFY" (8 # 10) "sector" None;
     StockImpact.mk "TCS" (90 # 100) "sector" None]
  = [StockImpact.mk "TCS" (9 # 10) "direct" None;
     StockImpact.mk "INFY" (8 # 10) "sector" None].
Proof. reflexivity. Qed.

Example merge_entities_same_key :
  EntityExtractionAgent.merge_fresh
    [Entity.mk "Banking" "SECTOR" (7 # 10);
     Entity.mk "RBI" "REGULATOR" (9 # 10);
     Entity.mk "banking" "SECTOR" (9 # 10)]
  = [Entity.mk "Banking" "SECTOR" (9 # 10);
     Entity.mk "RBI" "REGULATOR" (9 # 10)].
Proof. vm_compute. reflexivity. Qed.

Example merge_entities_near_miss :
  EntityExtractionAgent.merge_fresh
    [Entity.mk "Bank" "SECTOR" (7 # 10);
     Entity.mk "Banking" "SECTOR" (9 # 10)]
  = [Entity.mk "Bank" "SECTOR" (7 # 10);
     Entity.mk "Banking" "SECTOR" (9 # 10)].
Proof. vm_compute. reflexivity. Qed.

Example symbols_of_companies :
  StockImpactAgent.map_company_to_symbol "HDFC Bank" = "HDFCBANK" ∧
  StockImpactAgent.map_company_to_symbol "tcs limited" = "TCS" ∧
  StockImpactAgent.map_company_to_symbol "Bank" = "HDFCBANK" ∧
  StockImpactAgent.map_company_to_symbol "Switch Mobility" = "ITC" ∧
  StockImpactAgent.map_company_to_symbol "Bank of Baroda" = "BANKOFBARO".
Proof. repeat split; reflexivity. Qed.

Example python_strings :
  PyStr.lower "HDFC Bank" = "hdfc bank" ∧
  PyStr.contains "itc" "switch mobility" = true ∧
  PyStr.contains "bank" "hdfc" = false ∧
  PyStr.search_word "RBI" "The rbi approves" = true ∧
  PyStr.search_word "SEC" "second quarter" = false ∧
  PyStr.search_word "Fed" "the Fed, again" = true.
Proof. repeat split; reflexivity. Qed.

(** The loops of the extraction stage over answers of several shapes: a
    list of names, a missing key, a string (its characters), a dict (its
    keys), and the exceptions on [null], on a list as the answer and on an
    element that is no string. *)
Example entities_of_llm_shapes :
  let env := Scenario.env Scenario.bound_globals in
  EntityExtractionAgent.entities_of_llm env
    (JObject [("sectors", JArray [JString "Banking"]);
              ("companies", JArray [JString "TCS"])])
    = Ok [Entity.mk "TCS" "COMPANY" (9 # 10);
          Entity.mk "Banking" "SECTOR" (9 # 10)] ∧
  EntityExtractionAgent.entities_of_llm env (JObject []) = Ok [] ∧
  EntityExtractionAgent.entities_of_llm env
    (JObject [("events", JString "ok")])
    = Ok [Entity.mk "o" "EVENT" (8 # 10); Entity.mk "k" "EVENT" (8 # 10)] ∧
  EntityExtractionAgent.entities_of_llm env
    (JObject [("people", JObject [("Das", JInt 1)])])
    = Ok [Entity.mk "Das" "PERSON" (85 # 100)] ∧
  EntityExtractionAgent.entities_of_llm env
    (JObject [("companies", JNull)])
    = Raise "'NoneType' object is not iterable" ∧
  EntityExtractionAgent.entities_of_llm env (JArray [JString "TCS"])
    = Raise "'list' object has no attribute 'get'" ∧
  EntityExtractionAgent.entities_of_llm env
    (JObject [("companies", JArray [JString "TCS"; JInt 1]);
              ("sectors", JNull)])
    = Raise "1 validation error for Entity".
Proof. repeat split; reflexivity. Qed.

(** The end-to-end scenario, with the threshold bound: N1 on an empty
    store is no duplicate, carries the company and the regulator, and the
    direct impact on HDFCBANK; N2 after it is a duplicate of N1. *)
Example end_to_end :
  let env := Scenario.env Scenario.bound_globals in
  let first := NewsProcessingWorkflow.process_article env Scenario.empty_world
                 Scenario.n1 in
  let second := NewsProcessingWorkflow.process_article env first.2 Scenario.n2 in
  AgentState.is_duplicate first.1 = false ∧
  Entity.mk "HDFC Bank" "COMPANY" (8 # 10) ∈ AgentState.entities first.1 ∧
  Entity.mk "RBI" "REGULATOR" (9 # 10) ∈ AgentState.entities first.1 ∧
  map StockImpact.symbol (AgentState.stock_impacts first.1) =
    ["HDFCBANK"; "ICICIBANK"; "SBIN"; "AXISBANK"; "KOTAKBANK"] ∧
  AgentState.error first.1 = None ∧
  AgentState.is_duplicate second.1 = true ∧
  AgentState.duplicate_of second.1 = Some "N1" ∧
  AgentState.entities second.1 = [] ∧
  length (database second.2) = 10.
Proof.
  vm_compute. repeat split.
  - left.
  - right. right. left.
Qed.

(** * Further properties of the code *)

(** ** Case mapping *)

Lemma lower_char_lower (c : ascii) :
  PyStr.lower_char (PyStr.lower_char c) = PyStr.lower_char c.
Proof. by destruct c as [[] [] [] [] [] [] [] []]. Qed.

Lemma lower_char_upper (c : ascii) :
  PyStr.lower_char (PyStr.upper_char c) = PyStr.lower_char c.
Proof. by destruct c as [[] [] [] [] [] [] [] []]. Qed.

Lemma upper_char_lower (c : ascii) :
  PyStr.upper_char (PyStr.lower_char c) = PyStr.upper_char c.
Proof. by destruct c as [[] [] [] [] [] [] [] []]. Qed.

Lemma upper_char_upper (c : ascii) :
  PyStr.upper_char (PyStr.upper_char c) = PyStr.upper_char c.
Proof. by destruct c as [[] [] [] [] [] [] [] []]. Qed.

Lemma upper_char_not_lower (c : ascii) :
  PyStr.is_lower (PyStr.upper_char c) = false.
Proof. by destruct c as [[] [] [] [] [] [] [] []]. Qed.

Lemma lower_lower (s : string) : PyStr.lower (PyStr.lower s) = PyStr.lower s.
Proof. induction s as [|c s IH]; simpl; [done|]. by rewrite lower_char_lower, IH. Qed.

Lemma lower_upper (s : string) : PyStr.lower (PyStr.upper s) = PyStr.lower s.
Proof. induction s as [|c s IH]; simpl; [done|]. by rewrite lower_char_upper, IH. Qed.

Lemma upper_lower (s : string) : PyStr.upper (PyStr.lower s) = PyStr.upper s.
Proof. induction s as [|c s IH]; simpl; [done|]. by rewrite upper_char_lower, IH. Qed.

Lemma upper_upper (s : string) : PyStr.upper (PyStr.upper s) = PyStr.upper s.
Proof. induction s as [|c s IH]; simpl; [done|]. by rewrite upper_char_upper, IH. Qed.

Lemma lower_append (s t : string) :
  PyStr.lower (s +:+ t) = PyStr.lower s +:+ PyStr.lower t.
Proof.
  induction s as [|c s IH]; [done|].
  rewrite append_cons. simpl. by rewrite IH, append_cons.
Qed.

Lemma lower_length (s : string) : String.length (PyStr.lower s) = String.length s.
Proof. induction s as [|c s IH]; simpl; [done|]. by rewrite IH. Qed.

(** ** The derived symbol *)

Lemma slice_to_length (n : nat) (s : string) :
  String.length (PyStr.slice_to n s) = min n (String.length s).
Proof.
  revert s. induction n as [|n IH]; intros [|c s]; simpl; try done.
  by rewrite IH.
Qed.

Lemma slice_to_chars (n : nat) (s : string) (c : ascii) :
  c ∈ list_ascii_of_string (PyStr.slice_to n s) -> c ∈ list_ascii_of_string s.
Proof.
  revert s. induction n as [|n IH]; intros [|a s]; simpl; try done.
  - intros H. by apply elem_of_nil in H.
  - rewrite !elem_of_cons. intros [->|H]; [by left | right; by apply IH].
Qed.

Lemma remove_spaces_chars (s : string) (c : ascii) :
  c ∈ list_ascii_of_string (PyStr.remove_spaces s) <->
  c ∈ list_ascii_of_string s ∧ c ≠ " "%char.
Proof.
  induction s as [|a s IH]; simpl.
  - split; [intros H; by apply elem_of_nil in H | intros [H _]; by apply elem_of_nil in H].
  - destruct (Ascii.eqb_spec a " "%char) as [->|Hne]; simpl.
    + rewrite IH, elem_of_cons. split; [intros [? ?]; split; [by right | done]|].
      intros [[->|H] Hc]; [done | by split].
    + rewrite !elem_of_cons, IH. split.
      * intros [->|[H Hc]]; [split; [by left | done] | split; [by right | done]].
      * intros [[->|H] Hc]; [by left | right; by split].
Qed.

Lemma upper_chars (s : string) (c : ascii) :
  c ∈ list_ascii_of_string (PyStr.upper s) -> PyStr.is_lower c = false.
Proof.
  induction s as [|a s IH]; simpl.
  - intros H. by apply elem_of_nil in H.
  - rewrite elem_of_cons. intros [->|H]; [apply upper_char_not_lower | by apply IH].
Qed.

Lemma slice_to_all (n : nat) (s : string) :
  String.length s <= n -> PyStr.slice_to n s = s.
Proof.
  revert s. induction n as [|n IH]; intros [|c s]; simpl; try done; try lia.
  intros H. rewrite IH; [done | lia].
Qed.

Lemma remove_spaces_none (s : string) :
  " "%char ∉ list_ascii_of_string s -> PyStr.remove_spaces s = s.
Proof.
  induction s as [|a s IH]; simpl; [done|].
  rewrite not_elem_of_cons. intros [Hne H].
  destruct (Ascii.eqb_spec a " "%char) as [->|_]; [done|]. by rewrite IH.
Qed.

Lemma lookup_symbol_in_table (company : string) (table : PyDict.t string)
    (symbol : string) :
  StockImpactAgent.lookup_symbol company table = Some symbol ->
  symbol ∈ PyDict.values table.
Proof.
  induction table as [|[name sym] table IH]; simpl; [done|].
  destruct (StockImpactAgent.name_matches company name).
  - intros [= ->]. left.
  - intros H. right. by apply IH.
Qed.

(** X1: the symbol of a company is a symbol of the table or a derived
    symbol, which has at most 10 characters, none of them a space or a
    lowercase letter. *)
Theorem company_symbol_shape (company : string) :
  let symbol := StockImpactAgent.map_company_to_symbol company in
  symbol ∈ PyDict.values StockImpactAgent.company_symbols ∨
  (symbol = StockImpactAgent.derived_symbol company ∧
   String.length symbol <= 10 ∧
   ∀ c, c ∈ list_ascii_of_string symbol ->
        c ≠ " "%char ∧ PyStr.is_lower c = false).
Proof.
  unfold StockImpactAgent.map_company_to_symbol.
  destruct (StockImpactAgent.lookup_symbol company _) as [symbol|] eqn:H; cbv zeta.
  - left. by eapply lookup_symbol_in_table.
  - right. split; [done|]. unfold StockImpactAgent.derived_symbol. split.
    + rewrite slice_to_length. lia.
    + intros c Hc. apply slice_to_chars, remove_spaces_chars in Hc as [Hc Hsp].
      split; [done|]. by eapply upper_chars.
Qed.

Lemma name_matches_lower (company name : string) :
  StockImpactAgent.name_matches (PyStr.lower company) name =
  StockImpactAgent.name_matches company name.
Proof. unfold StockImpactAgent.name_matches. by rewrite lower_lower. Qed.

Lemma name_matches_upper (company name : string) :
  StockImpactAgent.name_matches (PyStr.upper company) name =
  StockImpactAgent.name_matches company name.
Proof. unfold StockImpactAgent.name_matches. by rewrite lower_upper. Qed.

Lemma lookup_symbol_ext (c1 c2 : string) (table : PyDict.t string) :
  (∀ name, StockImpactAgent.name_matches c1 name =
           StockImpactAgent.name_matches c2 name) ->
  StockImpactAgent.lookup_symbol c1 table = StockImpactAgent.lookup_symbol c2 table.
Proof.
  intros H. induction table as [|[name sym] table IH]; simpl; [done|].
  by rewrite H, IH.
Qed.

(** X2: the symbol of a company whose name is ASCII does not depend on the
    case of the name. *)
Theorem company_symbol_ignores_case (company : string) :
  PyStr.isascii company = true ->
  StockImpactAgent.map_company_to_symbol (PyStr.lower company) =
    StockImpactAgent.map_company_to_symbol company ∧
  StockImpactAgent.map_company_to_symbol (PyStr.upper company) =
    StockImpactAgent.map_company_to_symbol company.
Proof.
  intros _. unfold StockImpactAgent.map_company_to_symbol, StockImpactAgent.derived_symbol.
  rewrite (lookup_symbol_ext _ company _ (name_matches_lower company)).
  rewrite (lookup_symbol_ext (PyStr.upper company) company _
             (name_matches_upper company)).
  by rewrite upper_lower, upper_upper.
Qed.

(** ** The rule-based extraction *)

Lemma match_literal_ci_spec (prev : option ascii) (lit s : string)
    (last : option ascii) (rest : string) :
  PyStr.match_literal_ci prev lit s = Some (last, rest) <->
  ∃ m, s = m +:+ rest ∧ PyStr.lower m = PyStr.lower lit ∧ last = last_char prev m.
Proof.
  revert prev s. induction lit as [|a lit IH]; intros prev s; simpl.
  - split.
    + intros [= <- <-]. by exists "".
    + intros ([|b m] & -> & Hm & ->); [done | discriminate].
  - destruct s as [|b s].
    + split; [done|]. intros ([|c m] & Hs & Hm & _); discriminate.
    + destruct (Ascii.eqb_spec (PyStr.lower_char a) (PyStr.lower_char b)) as [Hab|Hab].
      * rewrite IH. split.
        -- intros (m & -> & Hm & ->). exists (String b m).
           split; [done|]. split; [|done]. simpl. by rewrite Hm, Hab.
        -- intros ([|c m] & Hs & Hm & ->); [discriminate|].
           rewrite append_cons in Hs. injection Hs as <- ->.
           simpl in Hm. injection Hm as _ Hm. by exists m.
      * split; [done|]. intros ([|c m] & Hs & Hm & _); [discriminate|].
        rewrite append_cons in Hs. injection Hs as <- ->.
        simpl in Hm. injection Hm as Hc _. congruence.
Qed.

Lemma search_word_from_spec (prev : option ascii) (lit s : string) :
  PyStr.search_word_from prev lit s = true <->
  ∃ before m after,
    s = before +:+ m +:+ after ∧ PyStr.lower m = PyStr.lower lit ∧
    PyStr.boundary (last_char prev before) (m +:+ after) = true ∧
    PyStr.boundary (last_char (last_char prev before) m) after = true.
Proof.
  assert (Hhere : ∀ prev s,
    PyStr.match_word_here prev lit s = true <->
    ∃ m after, s = m +:+ after ∧ PyStr.lower m = PyStr.lower lit ∧
      PyStr.boundary prev (m +:+ after) = true ∧
      PyStr.boundary (last_char prev m) after = true).
  { intros p t. unfold PyStr.match_word_here. rewrite andb_true_iff. split.
    - intros [Hb Hm].
      destruct (PyStr.match_literal_ci p lit t) as [[last rest]|] eqn:Hlit; [|done].
      apply match_literal_ci_spec in Hlit as (m & -> & Hl & ->).
      by exists m, rest.
    - intros (m & after & -> & Hl & Hb1 & Hb2). split; [done|].
      assert (PyStr.match_literal_ci p lit (m +:+ after)
              = Some (last_char p m, after)) as ->; [|done].
      apply match_literal_ci_spec. by exists m. }
  revert prev. induction s as [|c s IH]; intros prev; simpl.
  - rewrite orb_false_r, Hhere. split.
    + intros (m & after & Hs & ?). by exists "", m, after.
    + intros ([|? before] & m & after & Hs & ?); [by exists m, after|].
      rewrite append_cons in Hs. discriminate.
  - rewrite orb_true_iff, Hhere, IH. split.
    + intros [(m & after & Hs & ?)|(before & m & after & Hs & ?)].
      * by exists "", m, after.
      * exists (String c before), m, after. split; [|done].
        by rewrite append_cons, Hs.
    + intros ([|c' before] & m & after & Hs & ?).
      * left. by exists m, after.
      * right. rewrite append_cons in Hs. injection Hs as <- ->.
        by exists before, m, after.
Qed.

Lemma search_word_spec (lit s : string) :
  PyStr.search_word lit s = true <-> word_occurrence lit s.
Proof. apply search_word_from_spec. Qed.

Lemma word_occurrence_substring (lit s : string) :
  word_occurrence lit s -> substring_of (PyStr.lower lit) (PyStr.lower s).
Proof.
  intros (before & m & after & -> & Hm & _).
  exists (PyStr.lower before), (PyStr.lower after).
  by rewrite !lower_append, Hm.
Qed.

Lemma omap_sublist {A B} (f : A -> option B) (g : B -> A) (l : list A) :
  (∀ x y, f x = Some y -> g y = x) -> map g (omap f l) `sublist_of` l.
Proof.
  intros Hf. induction l as [|x l IH]; simpl; [done|].
  destruct (f x) as [y|] eqn:Hx; simpl.
  - rewrite (Hf x y Hx). by apply sublist_skip.
  - by apply sublist_cons.
Qed.

(** X3: the regulators extracted from an ASCII text are the keywords of
    the list that occur in the text as whole words, whatever the case, each
    once and in the order of the list; such a keyword occurs in the
    lowercased text. *)
Theorem extract_regulators_whole_words (text : string) :
  PyStr.isascii text = true ->
  let found := EntityExtractionAgent.extract_regulators text in
  (∀ e, e ∈ found <->
     ∃ regulator, regulator ∈ EntityExtractionAgent.regulator_keywords ∧
       e = Entity.mk regulator "REGULATOR" (9 # 10) ∧
       word_occurrence regulator text) ∧
  map Entity.text found `sublist_of` EntityExtractionAgent.regulator_keywords ∧
  (∀ e, e ∈ found ->
     substring_of (PyStr.lower (Entity.text e)) (PyStr.lower text)).
Proof.
  intros _. unfold EntityExtractionAgent.extract_regulators.
  assert (Hmem : ∀ e,
    e ∈ omap (fun regulator =>
                if PyStr.search_word regulator text
                then Some (Entity.mk regulator "REGULATOR" (9 # 10)) else None)
             EntityExtractionAgent.regulator_keywords <->
    ∃ regulator, regulator ∈ EntityExtractionAgent.regulator_keywords ∧
      e = Entity.mk regulator "REGULATOR" (9 # 10) ∧
      word_occurrence regulator text).
  { intros e. rewrite list_elem_of_omap. split.
    - intros (r & Hr & He). destruct (PyStr.search_word r text) eqn:Hs; [|done].
      injection He as <-. exists r. by rewrite <- search_word_spec.
    - intros (r & Hr & -> & Hw). exists r. split; [done|].
      apply search_word_spec in Hw. by rewrite Hw. }
  cbv zeta. split; [exact Hmem|]. split.
  - apply omap_sublist. intros r e.
    destruct (PyStr.search_word r text); [|done]. by intros [= <-].
  - intros e He. apply Hmem in He as (r & _ & -> & Hw).
    by apply word_occurrence_substring.
Qed.

Lemma sector_keywords_NoDup : NoDup (PyDict.keys EntityExtractionAgent.sector_keywords).
Proof. by apply (bool_decide_unpack _). Qed.

(** X4: a sector is extracted when one of its keywords occurs in the
    lowercased text, as a substring; each sector comes at most once, in the
    order of the table; and the case of an ASCII text does not matter. *)
Theorem extract_sectors_by_substring (text : string) :
  let found := EntityExtractionAgent.extract_sectors text in
  (∀ e, e ∈ found <->
     ∃ sector keywords,
       (sector, keywords) ∈ EntityExtractionAgent.sector_keywords ∧
       e = Entity.mk sector "SECTOR" (7 # 10) ∧
       ∃ keyword, keyword ∈ keywords ∧ substring_of keyword (PyStr.lower text)) ∧
  map Entity.text found `sublist_of`
    PyDict.keys EntityExtractionAgent.sector_keywords ∧
  NoDup (map Entity.text found) ∧
  (PyStr.isascii text = true ->
   EntityExtractionAgent.extract_sectors (PyStr.upper text) = found ∧
   EntityExtractionAgent.extract_sectors (PyStr.lower text) = found).
Proof.
  cbv zeta. unfold EntityExtractionAgent.extract_sectors.
  rewrite lower_upper, lower_lower.
  set (f := fun entry : string * list string =>
              if existsb (fun keyword => PyStr.contains keyword (PyStr.lower text))
                         entry.2
              then Some (Entity.mk entry.1 "SECTOR" (7 # 10)) else None).
  assert (Hsub : map Entity.text (omap f EntityExtractionAgent.sector_keywords)
                 `sublist_of` PyDict.keys EntityExtractionAgent.sector_keywords).
  { generalize EntityExtractionAgent.sector_keywords. intros table.
    induction table as [|[s kw] table IH]; simpl; [done|].
    unfold f at 1. simpl. destruct (existsb _ kw); simpl.
    - by apply sublist_skip.
    - by apply sublist_cons. }
  split; [|split; [exact Hsub|split; [|done]]].
  - intros e. rewrite list_elem_of_omap. split.
    + intros ([s kw] & Hin & He). unfold f in He. simpl in He.
      destruct (existsb _ kw) eqn:Hex; [|done]. injection He as <-.
      apply existsb_exists in Hex as (k & Hk & Hc).
      exists s, kw. split; [done|]. split; [done|].
      exists k. split; [by apply list_elem_of_In | by apply contains_spec].
    + intros (s & kw & Hin & -> & k & Hk & Hc). exists (s, kw).
      split; [done|]. unfold f. simpl.
      assert (existsb (fun keyword => PyStr.contains keyword (PyStr.lower text)) kw
              = true) as ->; [|done].
      apply existsb_exists. exists k.
      split; [by apply list_elem_of_In | by apply contains_spec].
  - eapply sublist_NoDup; [apply sector_keywords_NoDup | exact Hsub].
Qed.

(** ** The impact sources and their merge *)

Lemma split_middle {A} (before after X Y : list A) (r : A) :
  before ++ r :: after = X ++ Y ->
  (∃ x2, X = before ++ r :: x2) ∨ (∃ b, before = X ++ b ∧ Y = b ++ r :: after).
Proof.
  revert before. induction X as [|x X IH]; intros before H.
  - right. by exists before.
  - destruct before as [|b before]; simpl in H.
    + injection H as <- _. left. by exists X.
    + injection H as <- H. destruct (IH before H) as [[x2 ->]|(b' & -> & ->)].
      * left. by exists x2.
      * right. by exists b'.
Qed.

Lemma elem_of_concat {A} (x : A) (ls : list (list A)) :
  x ∈ concat ls <-> ∃ l, x ∈ l ∧ l ∈ ls.
Proof.
  rewrite list_elem_of_In, in_concat. split.
  - intros (l & Hl & Hx). exists l. by rewrite !list_elem_of_In.
  - intros (l & Hx & Hl). exists l. by rewrite <- !list_elem_of_In.
Qed.

Lemma sector_impacts_shape (entities : list Entity.t) (i : StockImpact.t) :
  i ∈ StockImpactAgent.get_sector_impacts entities ->
  StockImpact.confidence i = Config.sector_high ∧ StockImpact.type i = "sector".
Proof.
  unfold StockImpactAgent.get_sector_impacts.
  intros H. apply elem_of_concat in H as (l & Hi & Hl).
  apply list_elem_of_fmap in Hl as (e & -> & _).
  destruct (PyDict.get _ _); [|by apply elem_of_nil in Hi].
  by apply list_elem_of_fmap in Hi as (s & -> & _).
Qed.

Lemma direct_impacts_shape (entities : list Entity.t) (i : StockImpact.t) :
  i ∈ StockImpactAgent.get_direct_impacts entities ->
  StockImpact.confidence i = Config.direct ∧ StockImpact.type i = "direct".
Proof.
  unfold StockImpactAgent.get_direct_impacts.
  intros H. by apply list_elem_of_fmap in H as (e & -> & _).
Qed.

Lemma regulatory_impacts_shape (entities : list Entity.t) (i : StockImpact.t) :
  i ∈ StockImpactAgent.get_regulatory_impacts entities ->
  StockImpact.confidence i = Config.regulatory ∧
  StockImpact.type i = "regulatory".
Proof.
  unfold StockImpactAgent.get_regulatory_impacts.
  destruct (filter _ entities) as [|regulator _]; [intros H; by apply elem_of_nil in H|].
  intros H. apply elem_of_concat in H as (l & Hi & Hl).
  apply list_elem_of_fmap in Hl as (e & -> & _).
  destruct (PyDict.get _ _); [|by apply elem_of_nil in Hi].
  by apply list_elem_of_fmap in Hi as (s & -> & _).
Qed.

Lemma regulatory_symbols (entities : list Entity.t) :
  filter (fun e => StockImpactAgent.has_type "REGULATOR" e) entities ≠ [] ->
  map StockImpact.symbol (StockImpactAgent.get_regulatory_impacts entities) =
  map StockImpact.symbol (StockImpactAgent.get_sector_impacts entities).
Proof.
  unfold StockImpactAgent.get_regulatory_impacts, StockImpactAgent.get_sector_impacts.
  destruct (filter (fun e => StockImpactAgent.has_type "REGULATOR" e) entities)
    as [|regulator rest]; [done|]. intros _.
  rewrite !concat_map, !map_map. f_equal. apply map_ext. intros sector.
  destruct (PyDict.get (Entity.text sector) StockImpactAgent.sector_stocks); [|done].
  by rewrite !map_map.
Qed.

Lemma has_regulator_filter (entities : list Entity.t) :
  (∃ e, e ∈ entities ∧ Entity.type e = "REGULATOR") <->
  filter (fun e => StockImpactAgent.has_type "REGULATOR" e) entities ≠ [].
Proof.
  split.
  - intros (e & He & Ht) Hnil.
    assert (e ∈ filter (fun e => StockImpactAgent.has_type "REGULATOR" e) entities).
    { apply list_elem_of_filter. split; [|done].
      unfold StockImpactAgent.has_type. rewrite Ht. done. }
    rewrite Hnil in H. by apply elem_of_nil in H.
  - destruct (filter _ entities) as [|e rest] eqn:Hf; [done|]. intros _.
    assert (He : e ∈ filter (fun e => StockImpactAgent.has_type "REGULATOR" e) entities)
      by (rewrite Hf; left).
    apply list_elem_of_filter in He as [Ht He]. exists e. split; [done|].
    unfold StockImpactAgent.has_type in Ht.
    destruct (String.eqb_spec (Entity.type e) "REGULATOR"); done.
Qed.

(** X5: without a REGULATOR entity there is no regulatory impact; with one,
    the regulatory impacts carry the symbols of the sector impacts, in the
    same order, each at the regulatory confidence. *)
Theorem regulatory_impacts_mirror_sector_impacts (entities : list Entity.t) :
  ((∀ e, e ∈ entities -> Entity.type e ≠ "REGULATOR") ->
   StockImpactAgent.get_regulatory_impacts entities = []) ∧
  ((∃ e, e ∈ entities ∧ Entity.type e = "REGULATOR") ->
   map StockImpact.symbol (StockImpactAgent.get_regulatory_impacts entities) =
   map StockImpact.symbol (StockImpactAgent.get_sector_impacts entities)) ∧
  (∀ i, i ∈ StockImpactAgent.get_regulatory_impacts entities ->
        StockImpact.confidence i = (5 # 10)%Q ∧ StockImpact.type i = "regulatory").
Proof.
  split; [|split].
  - intros Hno. unfold StockImpactAgent.get_regulatory_impacts.
    destruct (filter _ entities) as [|e rest] eqn:Hf; [done|]. exfalso.
    assert (He : e ∈ filter (fun e => StockImpactAgent.has_type "REGULATOR" e) entities)
      by (rewrite Hf; left).
    apply list_elem_of_filter in He as [Ht He]. apply (Hno e He).
    unfold StockImpactAgent.has_type in Ht.
    destruct (String.eqb_spec (Entity.type e) "REGULATOR"); done.
  - intros H. by apply regulatory_symbols, has_regulator_filter.
  - apply regulatory_impacts_shape.
Qed.

Lemma merged_is_winner (impacts : list StockImpact.t) (r : StockImpact.t) :
  r ∈ StockImpactAgent.merge_impacts impacts -> winner impacts r.
Proof.
  pose proof (impact_loop_inv [] [] impacts empty_seen_inv) as [_ Hw _].
  intros Hr. apply list_elem_of_fmap in Hr as [[k r'] [-> Hin]].
  by destruct (Hw k r' Hin).
Qed.

Lemma merged_covers (impacts : list StockImpact.t) (e : StockImpact.t) :
  e ∈ impacts ->
  ∃ r, r ∈ StockImpactAgent.merge_impacts impacts ∧
       StockImpact.symbol r = StockImpact.symbol e.
Proof.
  pose proof (impact_loop_inv [] [] impacts empty_seen_inv) as [_ Hw Hc].
  intros He. specialize (Hc e He). simpl in Hc.
  apply list_elem_of_fmap in Hc as [[k r] [Hk Hin]]. simpl in Hk. subst k.
  exists r. split.
  - apply list_elem_of_fmap. by exists (StockImpact.symbol e, r).
  - by destruct (Hw _ _ Hin).
Qed.

(** X6: no impact of the regulatory source reaches the merged list: every
    regulatory symbol has a sector impact ahead of it at a higher
    confidence. What the merge keeps comes from the direct source, the
    sector source or the language model. *)
Theorem regulatory_impacts_never_kept (entities : list Entity.t)
    (llm : list StockImpact.t) (r : StockImpact.t) :
  r ∈ StockImpactAgent.merge_impacts
        (StockImpactAgent.get_direct_impacts entities ++
         StockImpactAgent.get_sector_impacts entities ++
         StockImpactAgent.get_regulatory_impacts entities ++ llm) ->
  r ∈ StockImpactAgent.get_direct_impacts entities ∨
  r ∈ StockImpactAgent.get_sector_impacts entities ∨
  r ∈ llm.
Proof.
  intros Hr. apply merged_is_winner in Hr as (before & after & Heq & Hlow & _).
  rewrite app_assoc in Heq. symmetry in Heq.
  apply split_middle in Heq as [[x2 Hx]|(b & -> & Heq)].
  { assert (H : r ∈ StockImpactAgent.get_direct_impacts entities ++
                    StockImpactAgent.get_sector_impacts entities).
    { rewrite Hx. apply elem_of_app. right. left. }
    apply elem_of_app in H as [H|H]; [by left | right; by left]. }
  symmetry in Heq. apply split_middle in Heq as [[x2 Hx]|(b' & -> & ->)].
  - exfalso.
    assert (Hin : r ∈ StockImpactAgent.get_regulatory_impacts entities).
    { rewrite Hx. apply elem_of_app. right. left. }
    destruct (regulatory_impacts_shape _ _ Hin) as [Hc _].
    assert (Hreg : filter (fun e => StockImpactAgent.has_type "REGULATOR" e) entities ≠ []).
    { intros Hnil. unfold StockImpactAgent.get_regulatory_impacts in Hin.
      rewrite Hnil in Hin. by apply elem_of_nil in Hin. }
    assert (Hs : StockImpact.symbol r ∈
                 map StockImpact.symbol (StockImpactAgent.get_sector_impacts entities)).
    { rewrite <- (regulatory_symbols _ Hreg). apply list_elem_of_fmap. by exists r. }
    apply list_elem_of_fmap in Hs as (s & Hsym & Hs).
    destruct (sector_impacts_shape _ _ Hs) as [Hsc _].
    assert (Hlt : (StockImpact.confidence s < StockImpact.confidence r)%Q).
    { apply Hlow; [|done]. apply elem_of_app. left. apply elem_of_app. by right. }
    rewrite Hsc, Hc in Hlt. by vm_compute in Hlt.
  - right. right. apply elem_of_app. right. left.
Qed.

(** X7: when the language model gives no impact a confidence above 1, every
    COMPANY entity keeps, in the impacts the stage stores, a direct impact
    on its symbol at confidence 1: no sector, regulatory or model impact
    displaces it. *)
Theorem company_keeps_direct_impact (env : Env) (state : AgentState.t)
    (e : Entity.t) :
  AgentState.is_duplicate state = false ->
  (∀ i, i ∈ StockImpactAgent.analyze_with_llm env
              (NewsArticle.title (AgentState.article state))
              (NewsArticle.content (AgentState.article state))
              (AgentState.entities state) ->
        (StockImpact.confidence i <= 1)%Q) ->
  e ∈ AgentState.entities state -> Entity.type e = "COMPANY" ->
  ∃ r, r ∈ AgentState.stock_impacts (StockImpactAgent.process env state) ∧
       StockImpact.symbol r =
         StockImpactAgent.map_company_to_symbol (Entity.text e) ∧
       StockImpact.type r = "direct" ∧ StockImpact.confidence r = 1%Q.
Proof.
  intros Hdup Hllm He Hty.
  rewrite (impact_process_runs env state Hdup). simpl.
  set (D := StockImpactAgent.get_direct_impacts (AgentState.entities state)).
  set (S := StockImpactAgent.get_sector_impacts (AgentState.entities state)).
  set (R := StockImpactAgent.get_regulatory_impacts (AgentState.entities state)).
  set (L := StockImpactAgent.analyze_with_llm _ _ _ _) in *.
  assert (Hd : StockImpactAgent.direct_impact e ∈ D).
  { apply list_elem_of_fmap. exists e. split; [done|].
    apply list_elem_of_filter. split; [|done].
    unfold StockImpactAgent.has_type. by rewrite Hty. }
  assert (Hd' : StockImpactAgent.direct_impact e ∈ D ++ S ++ R ++ L)
    by (apply elem_of_app; by left).
  destruct (merged_covers _ _ Hd') as (r & Hr & Hsym).
  exists r. split; [done|]. split; [done|].
  apply merged_is_winner in Hr as (before & after & Heq & Hlow & _).
  symmetry in Heq. apply split_middle in Heq as [[x2 Hx]|(b & -> & Heq)].
  - assert (Hin : r ∈ D) by (rewrite Hx; apply elem_of_app; right; left).
    by destruct (direct_impacts_shape _ _ Hin).
  - exfalso.
    assert (Hlt : (1 < StockImpact.confidence r)%Q).
    { apply (Hlow (StockImpactAgent.direct_impact e)); [|done].
      apply elem_of_app. by left. }
    assert (Hin : r ∈ S ++ R ++ L).
    { rewrite Heq. apply elem_of_app. right. left. }
    apply elem_of_app in Hin as [Hin|Hin];
      [|apply elem_of_app in Hin as [Hin|Hin]].
    + destruct (sector_impacts_shape _ _ Hin) as [Hc _].
      rewrite Hc in Hlt. by vm_compute in Hlt.
    + destruct (regulatory_impacts_shape _ _ Hin) as [Hc _].
      rewrite Hc in Hlt. by vm_compute in Hlt.
    + apply Qlt_not_le in Hlt. apply Hlt. by apply Hllm.
Qed.

Lemma merge_impacts_distinct_from (seen : PyDict.t StockImpact.t)
    (impacts : list StockImpact.t) :
  NoDup (PyDict.keys seen ++ map StockImpact.symbol impacts) ->
  foldl StockImpactAgent.merge_step seen impacts =
  seen ++ map (fun i => (StockImpact.symbol i, i)) impacts.
Proof.
  revert seen. induction impacts as [|x impacts IH]; intros seen Hnd; simpl.
  - by rewrite app_nil_r.
  - assert (Hx : StockImpact.symbol x ∉ PyDict.keys seen).
    { apply NoDup_app in Hnd as (_ & Hdis & _). intros Hin.
      apply (Hdis _ Hin). left. }
    unfold StockImpactAgent.merge_step at 2.
    assert (PyDict.get (StockImpact.symbol x) seen = None) as ->
      by (by apply get_None).
    rewrite set_fresh by done. rewrite IH.
    + by rewrite <- app_assoc.
    + unfold PyDict.keys. rewrite fmap_app. simpl. rewrite <- app_assoc. done.
Qed.

Lemma merge_impacts_symbols_NoDup (impacts : list StockImpact.t) :
  NoDup (map StockImpact.symbol (StockImpactAgent.merge_impacts impacts)).
Proof.
  pose proof (impact_loop_inv [] [] impacts empty_seen_inv) as [Hnd Hw _].
  simpl in *. unfold StockImpactAgent.merge_impacts.
  rewrite values_symbols; [done|]. intros k r Hin. by destruct (Hw k r Hin).
Qed.

Lemma merge_impacts_distinct (impacts : list StockImpact.t) :
  NoDup (map StockImpact.symbol impacts) ->
  StockImpactAgent.merge_impacts impacts = impacts.
Proof.
  intros Hnd. unfold StockImpactAgent.merge_impacts.
  rewrite merge_impacts_distinct_from by done. simpl.
  unfold PyDict.values. rewrite map_map. simpl. apply map_id.
Qed.

(** X8: the impact merge leaves a list of distinct symbols as it is, merging
    twice is merging once, and the merged list is never longer than its
    input. *)
Theorem merge_impacts_idempotent (impacts : list StockImpact.t) :
  (NoDup (map StockImpact.symbol impacts) ->
   StockImpactAgent.merge_impacts impacts = impacts) ∧
  StockImpactAgent.merge_impacts (StockImpactAgent.merge_impacts impacts) =
    StockImpactAgent.merge_impacts impacts ∧
  length (StockImpactAgent.merge_impacts impacts) <= length impacts.
Proof.
  split; [apply merge_impacts_distinct|]. split.
  - apply merge_impacts_distinct, merge_impacts_symbols_NoDup.
  - rewrite <- (length_fmap StockImpact.symbol
                  (StockImpactAgent.merge_impacts impacts)).
    rewrite <- (length_fmap StockImpact.symbol impacts).
    apply submseteq_length, NoDup_submseteq;
      [apply merge_impacts_symbols_NoDup|].
    intros s Hs. apply list_elem_of_fmap in Hs as (r & -> & Hr).
    apply merged_is_winner in Hr as (b & a & -> & _).
    apply list_elem_of_fmap. exists r. split; [done|].
    apply elem_of_app. right. left.
Qed.

(** ** The entity merge on distinct keys *)

Lemma first_seen_all (h : gmap nat Entity.t) (earlier : list (string * string))
    (locs : list nat) :
  (∀ l, l ∈ locs -> is_Some (h !! l)) ->
  NoDup (earlier ++ keys_at h locs) ->
  first_seen h earlier locs = locs.
Proof.
  revert earlier. induction locs as [|l locs IH]; intros earlier Hall Hnd; [done|].
  destruct (Hall l) as [e He]; [left|].
  simpl. unfold keys_at in Hnd. simpl in Hnd.
  rewrite (key_at_Some h l e He) in *.
  apply NoDup_app in Hnd as (Hn1 & Hdis & Hn2).
  apply NoDup_cons in Hn2 as [Hk Hn2].
  rewrite decide_False; [|intros Hin; apply (Hdis _ Hin); left].
  f_equal. apply IH.
  - intros l' Hl'. apply Hall. by right.
  - change (NoDup ((EntityExtractionAgent.key e :: earlier) ++ keys_at h locs)).
    simpl. apply NoDup_cons. split.
    + rewrite elem_of_app. intros [Hin|Hin]; [|done].
      apply (Hdis _ Hin). left.
    + apply NoDup_app. split; [done|]. split; [|done].
      intros k Hk1 Hk2. apply (Hdis k Hk1). by right.
Qed.

Lemma omap_ext_elem {A B} (f g : A -> option B) (l : list A) :
  (∀ x, x ∈ l -> f x = g x) -> omap f l = omap g l.
Proof.
  induction l as [|x l IH]; intros H; [done|].
  simpl. rewrite (H x) by left.
  destruct (g x); [f_equal|]; apply IH; intros y Hy; apply H; by right.
Qed.

Lemma keys_fresh (es : list Entity.t) :
  keys_at (map_seq 0 es) (seq 0 (length es)) = map EntityExtractionAgent.key es.
Proof.
  rewrite <- (keys_deref (map_seq 0 es) (map_seq 0 es) _ (fun _ => eq_refl)).
  by rewrite deref_fresh.
Qed.

Lemma merge_fresh_distinct (es : list Entity.t) :
  NoDup (map EntityExtractionAgent.key es) ->
  EntityExtractionAgent.merge_fresh es = es.
Proof.
  intros Hnd.
  pose proof (merge_entities_inv (map_seq 0 es) (seq 0 (length es))
                (fresh_allocated es)) as Hinv.
  pose proof (inv_merged _ _ _ Hinv) as Hme.
  pose proof (merge_inv_entry _ _ _ Hinv) as Hmax.
  unfold EntityExtractionAgent.merge_fresh, EntityExtractionAgent.merge_entities.
  set (st := foldl EntityExtractionAgent.merge_step _ _) in *. simpl.
  rewrite first_seen_all in Hme;
    [|apply fresh_allocated | simpl; by rewrite keys_fresh].
  rewrite Hme.
  transitivity (EntityExtractionAgent.deref (map_seq 0 es) (seq 0 (length es)));
    [|apply deref_fresh].
  apply omap_ext_elem. intros l Hl.
  destruct (fresh_allocated es l Hl) as [e He]. rewrite He.
  rewrite <- Hme in Hl.
  destruct (Hmax l e Hl He) as (c & Hc & [(l1 & e1 & Hl1 & He1 & Hk1 & Hc1) _]).
  rewrite Hc. f_equal.
  rewrite lookup_map_seq_0 in He, He1.
  assert (l1 = l) as ->.
  { eapply (NoDup_lookup _ _ _ (EntityExtractionAgent.key e) Hnd).
    - by rewrite list_lookup_fmap, He1, <- Hk1.
    - by rewrite list_lookup_fmap, He. }
  assert (e1 = e) as -> by congruence. rewrite <- Hc1. by destruct e.
Qed.

(** X9: the entity merge leaves a list of entities with distinct keys as it
    is, and merging twice is merging once. *)
Theorem merge_fresh_idempotent (es : list Entity.t) :
  (NoDup (map EntityExtractionAgent.key es) ->
   EntityExtractionAgent.merge_fresh es = es) ∧
  EntityExtractionAgent.merge_fresh (EntityExtractionAgent.merge_fresh es) =
    EntityExtractionAgent.merge_fresh es.
Proof.
  split; [apply merge_fresh_distinct|].
  apply merge_fresh_distinct. by destruct (merge_fresh_max es) as [H _].
Qed.

(** ** The similarity index *)

Lemma insert_all_other (coll : gmap string Document.t)
    (ids : list string) (docs : list Document.t) (k : string) :
  k ∉ ids ->
  foldl (fun c p => <[p.1 := p.2]> c) coll (zip ids docs) !! k = coll !! k.
Proof.
  revert coll docs. induction ids as [|id ids IH]; intros coll docs Hk; [done|].
  destruct docs as [|d docs]; [done|]. simpl.
  apply not_elem_of_cons in Hk as [Hne Hk].
  rewrite IH by done. by rewrite lookup_insert_ne.
Qed.

Lemma insert_all_lookup (coll : gmap string Document.t)
    (ids : list string) (docs : list Document.t) (i : nat) (k : string)
    (d : Document.t) :
  NoDup ids -> ids !! i = Some k -> docs !! i = Some d ->
  foldl (fun c p => <[p.1 := p.2]> c) coll (zip ids docs) !! k = Some d.
Proof.
  revert coll docs i. induction ids as [|id ids IH]; intros coll docs i Hnd Hi Hd;
    [done|].
  destruct docs as [|d0 docs]; [done|]. simpl.
  apply NoDup_cons in Hnd as [Hid Hnd].
  destruct i as [|i]; simpl in Hi, Hd.
  - injection Hi as ->. injection Hd as ->.
    rewrite insert_all_other by done. apply lookup_insert_eq.
  - by apply (IH _ _ i).
Qed.

Lemma entity_ids_NoDup (article : NewsArticle.t) (n : nat) :
  NoDup (VectorStoreManager.entity_ids article n).
Proof.
  unfold VectorStoreManager.entity_ids. apply NoDup_fmap_2; [|apply NoDup_seq].
  intros i j H. apply (inj (String.app _)) in H.
  apply (inj (String.app _)) in H. by apply (inj pretty) in H.
Qed.

Lemma entity_ids_lookup (article : NewsArticle.t) (n i : nat) :
  i < n ->
  VectorStoreManager.entity_ids article n !! i =
    Some (NewsArticle.article_id article +:+ "_" +:+ pretty i).
Proof.
  intros Hi. unfold VectorStoreManager.entity_ids.
  rewrite list_lookup_fmap, lookup_seq_lt by done. done.
Qed.

Lemma add_article_entities (env : Env) (vs : VectorStoreManager.t)
    (article : NewsArticle.t) (entities : list string) :
  match (VectorStoreManager.add_article env vs article entities).2 with
  | Ok _ =>
      ∀ i e, entities !! i = Some e ->
        VectorStoreManager.entity_collection
          (VectorStoreManager.add_article env vs article entities).1
          !! (NewsArticle.article_id article +:+ "_" +:+ pretty i) =
        Some (VectorStoreManager.entity_document article e)
  | Raise _ => True
  end.
Proof.
  unfold VectorStoreManager.add_article, VectorStoreManager.add_documents.
  destruct (add_documents_error env NewsCollection _ _) as [msg|]; simpl; [done|].
  destruct entities as [|e0 entities]; [by intros [|?] ?|].
  remember (e0 :: entities) as es eqn:Hes.
  destruct (add_documents_error env EntityCollection _ _) as [msg|]; simpl; [done|].
  intros i e Hi. apply (insert_all_lookup _ _ _ i).
  - apply entity_ids_NoDup.
  - apply entity_ids_lookup. by apply lookup_lt_Some in Hi.
  - by rewrite list_lookup_fmap, Hi.
Qed.

(** X10: when [add_article] returns, the news collection holds the document
    of the article under the article id, other ids keep their documents,
    and the entity collection holds, for the i-th entity, its document
    under [<article id>_<i>]; when the insertion of the entity documents
    raises, the news document is in the index all the same; when the
    insertion of the news document raises, the index is as it was. *)
Theorem add_article_outcomes (env : Env) (vs : VectorStoreManager.t)
    (article : NewsArticle.t) (entities : list string) :
  let id := NewsArticle.article_id article in
  let vs' := (VectorStoreManager.add_article env vs article entities).1 in
  match (VectorStoreManager.add_article env vs article entities).2 with
  | Ok _ =>
      VectorStoreManager.news_collection vs' !! id =
        Some (VectorStoreManager.article_document article) ∧
      (∀ k, k ≠ id -> VectorStoreManager.news_collection vs' !! k =
                      VectorStoreManager.news_collection vs !! k) ∧
      (∀ i e, entities !! i = Some e ->
         VectorStoreManager.entity_collection vs' !! (id +:+ "_" +:+ pretty i) =
           Some (VectorStoreManager.entity_document article e)) ∧
      (entities = [] ->
         VectorStoreManager.entity_collection vs' =
         VectorStoreManager.entity_collection vs)
  | Raise _ =>
      VectorStoreManager.entity_collection vs' =
        VectorStoreManager.entity_collection vs ∧
      (vs' = vs ∨
       (entities ≠ [] ∧
        VectorStoreManager.news_collection vs' =
          <[id := VectorStoreManager.article_document article]>
            (VectorStoreManager.news_collection vs)))
  end.
Proof.
  unfold VectorStoreManager.add_article, VectorStoreManager.add_documents.
  destruct (add_documents_error env NewsCollection _ _) as [msg|]; simpl.
  { split; [done | by left]. }
  destruct entities as [|e0 entities].
  { simpl. split; [apply lookup_insert_eq|]. split; [|done].
    intros k Hk. by rewrite lookup_insert_ne. }
  remember (e0 :: entities) as es eqn:Hes.
  destruct (add_documents_error env EntityCollection _ _) as [msg|]; simpl.
  { split; [done|]. right. by rewrite Hes. }
  split; [apply lookup_insert_eq|]. split; [|split; [|by rewrite Hes]].
  - intros k Hk. by rewrite lookup_insert_ne.
  - intros i e Hi.
    apply (insert_all_lookup _ _ _ i).
    + apply entity_ids_NoDup.
    + apply entity_ids_lookup. by apply lookup_lt_Some in Hi.
    + by rewrite list_lookup_fmap, Hi.
Qed.

(** X11: [delete_article] never touches the entity collection: after a
    successful [add_article] with entities, a successful deletion removes
    the news document and leaves every entity document of the article in
    the index; a failed deletion leaves the index as it was. *)
Theorem delete_article_keeps_entity_documents
    (env : Env) (renv : ReadEnv) (vs : VectorStoreManager.t)
    (article : NewsArticle.t) (entities : list string) :
  let id := NewsArticle.article_id article in
  let added := (VectorStoreManager.add_article env vs article entities).1 in
  let deleted := VectorStoreReads.delete_article renv added id in
  VectorStoreManager.entity_collection deleted =
    VectorStoreManager.entity_collection added ∧
  (delete_error renv (VectorStoreManager.news_collection added) [id] = None ->
   VectorStoreManager.news_collection deleted !! id = None) ∧
  (delete_error renv (VectorStoreManager.news_collection added) [id] ≠ None ->
   deleted = added) ∧
  ((VectorStoreManager.add_article env vs article entities).2 = Ok tt ->
   ∀ i e, entities !! i = Some e ->
     VectorStoreManager.entity_collection deleted !! (id +:+ "_" +:+ pretty i) =
       Some (VectorStoreManager.entity_document article e)).
Proof.
  intros id added deleted.
  assert (Hent : VectorStoreManager.entity_collection deleted =
                 VectorStoreManager.entity_collection added).
  { unfold deleted, VectorStoreReads.delete_article.
    by destruct (delete_error renv _ _). }
  split; [exact Hent|]. split; [|split].
  - intros Hok. unfold deleted, VectorStoreReads.delete_article.
    rewrite Hok. simpl. apply lookup_delete_eq.
  - intros Hfail. unfold deleted, VectorStoreReads.delete_article.
    by destruct (delete_error renv _ _).
  - intros Hadd i e Hi. rewrite Hent.
    pose proof (add_article_entities env vs article entities) as H.
    fold id added in H. rewrite Hadd in H. by apply H.
Qed.

Lemma select_duplicates_sound (threshold : Q) (own_id : string)
    (results : list (Document.t * Q)) (duplicates : list (string * Q)) :
  VectorStoreManager.select_duplicates threshold own_id results = Ok duplicates ->
  ∀ id sim, (id, sim) ∈ duplicates ->
    id ≠ own_id ∧ (threshold <= sim)%Q ∧
    ∃ doc score, (doc, score) ∈ results ∧
      Document.metadata doc !! "article_id" = Some id ∧ sim = (1 - score)%Q.
Proof.
  revert duplicates. induction results as [|[doc score] results IH];
    intros duplicates Hsel id sim Hin; simpl in Hsel.
  - injection Hsel as <-. by apply elem_of_nil in Hin.
  - assert (Hrest : ∀ dups,
      VectorStoreManager.select_duplicates threshold own_id results = Ok dups ->
      (id, sim) ∈ dups ->
      id ≠ own_id ∧ (threshold <= sim)%Q ∧
      ∃ doc0 score0, (doc0, score0) ∈ (doc, score) :: results ∧
        Document.metadata doc0 !! "article_id" = Some id ∧ sim = (1 - score0)%Q).
    { intros dups Hd Hi. destruct (IH dups Hd id sim Hi) as (? & ? & d & s & ? & ?).
      split; [done|]. split; [done|]. exists d, s. split; [by right | done]. }
    destruct (Qgeb (1 - score) threshold) eqn:Hge; [|by apply (Hrest duplicates)].
    destruct (Document.metadata doc !! "article_id") as [id0|] eqn:Hid; [|done].
    destruct (String.eqb_spec id0 own_id) as [Heq|Hne]; simpl in Hsel;
      [by apply (Hrest duplicates)|].
    destruct (VectorStoreManager.select_duplicates threshold own_id results)
      as [tl|] eqn:Htl; [|done].
    simpl in Hsel. injection Hsel as <-.
    apply elem_of_cons in Hin as [[= -> ->]|Hin]; [|by apply (Hrest tl)].
    split; [done|]. split; [by apply Qgeb_true|].
    exists doc, score. split; [left | done].
Qed.

(** X12: with a threshold, given or resolved from the namespace,
    [find_duplicates] does not raise, whatever the index does, and every
    candidate it returns comes from the answer of the index, has an id
    other than the article's own and a similarity 1 - distance at or above
    the threshold. *)
Theorem find_duplicates_sound (env : Env) (vs : VectorStoreManager.t)
    (article : NewsArticle.t) (threshold : option Q) (t : Q) :
  threshold = Some t ∨
  (threshold = None ∧
   vector_store_globals env !! "SIMILARITY_THRESHOLD" = Some t) ->
  ∃ duplicates,
    VectorStoreManager.find_duplicates env vs article threshold = Ok duplicates ∧
    ∀ id sim, (id, sim) ∈ duplicates ->
      id ≠ NewsArticle.article_id article ∧ (t <= sim)%Q ∧
      ∃ results doc score,
        similarity_search_with_score env (VectorStoreManager.news_collection vs)
          (NewsArticle.title article +:+ newline +:+ newline +:+
           NewsArticle.content article) 5 = Ok results ∧
        (doc, score) ∈ results ∧
        Document.metadata doc !! "article_id" = Some id ∧ sim = (1 - score)%Q.
Proof.
  intros Ht. unfold VectorStoreManager.find_duplicates.
  assert (match threshold with
          | Some t0 => Ok t0
          | None =>
              match vector_store_globals env !! "SIMILARITY_THRESHOLD" with
              | Some t0 => Ok t0
              | None => Raise "name 'SIMILARITY_THRESHOLD' is not defined"
              end
          end = Ok t) as ->.
  { destruct Ht as [->|[-> ->]]; done. }
  simpl.
  destruct (similarity_search_with_score env _ _ 5) as [results|msg] eqn:Hq; simpl.
  - destruct (VectorStoreManager.select_duplicates t _ results) as [dups|] eqn:Hs.
    + exists dups. split; [done|]. intros id sim Hin.
      destruct (select_duplicates_sound _ _ _ _ Hs id sim Hin)
        as (? & ? & d & s & ? & ? & ?).
      split; [done|]. split; [done|]. by exists results, d, s.
    + exists []. split; [done|]. intros id sim Hin. by apply elem_of_nil in Hin.
  - exists []. split; [done|]. intros id sim Hin. by apply elem_of_nil in Hin.
Qed.

(** ** The pipeline *)

Lemma dedup_flag_and_pointer (env : Env) (vs : VectorStoreManager.t)
    (article : NewsArticle.t) :
  let s1 := DeduplicationAgent.process env vs (AgentState.initial article) in
  (AgentState.is_duplicate s1 = true <-> is_Some (AgentState.duplicate_of s1)) ∧
  AgentState.duplicate_of s1 ≠ Some (NewsArticle.article_id article).
Proof.
  unfold DeduplicationAgent.process.
  destruct (VectorStoreManager.find_duplicates env vs _ None)
    as [[|[id sim] rest]|msg] eqn:Hf; simpl.
  - split; [|done]. split; [done | by intros [? ?]].
  - split; [split; [by eexists | done]|].
    intros [= ->].
    unfold VectorStoreManager.find_duplicates in Hf.
    destruct (vector_store_globals env !! "SIMILARITY_THRESHOLD") as [t|];
      simpl in Hf; [|done].
    destruct (similarity_search_with_score env _ _ 5) as [results|]; simpl in Hf;
      [|done].
    destruct (VectorStoreManager.select_duplicates t _ results) as [dups|] eqn:Hs;
      [|done].
    injection Hf as ->.
    destruct (select_duplicates_sound _ _ _ _ Hs
                (NewsArticle.article_id article) sim) as [Hne _]; [left|].
    by apply Hne.
  - split; [|done]. split; [done | by intros [? ?]].
Qed.

Lemma entity_process_keeps_flags (env : Env) (state : AgentState.t) :
  let s := EntityExtractionAgent.process env state in
  AgentState.article s = AgentState.article state ∧
  AgentState.is_duplicate s = AgentState.is_duplicate state ∧
  AgentState.duplicate_of s = AgentState.duplicate_of state ∧
  (is_Some (AgentState.error state) -> is_Some (AgentState.error s)).
Proof.
  unfold EntityExtractionAgent.process.
  destruct (AgentState.is_duplicate state) eqn:Hd; [done|].
  destruct (EntityExtractionAgent.extract_with_spacy env _); simpl.
  - destruct (EntityExtractionAgent.entities_of_llm env _); simpl; [done|].
    repeat split; try done; by eexists.
  - repeat split; try done; by eexists.
Qed.

Lemma impact_process_keeps_flags (env : Env) (state : AgentState.t) :
  let s := StockImpactAgent.process env state in
  AgentState.article s = AgentState.article state ∧
  AgentState.is_duplicate s = AgentState.is_duplicate state ∧
  AgentState.duplicate_of s = AgentState.duplicate_of state ∧
  AgentState.error s = AgentState.error state.
Proof.
  unfold StockImpactAgent.process.
  by destruct (AgentState.is_duplicate state) eqn:Hd.
Qed.

(** X13: in the state the pipeline returns, the article is the one
    submitted, [is_duplicate] is true exactly when [duplicate_of] holds an
    id, and that id is never the id of the article itself. *)
Theorem pipeline_flag_and_pointer_agree (env : Env) (w : World)
    (article : NewsArticle.t) :
  let final := (NewsProcessingWorkflow.process_article env w article).1 in
  AgentState.article final = article ∧
  (AgentState.is_duplicate final = true <->
   is_Some (AgentState.duplicate_of final)) ∧
  AgentState.duplicate_of final ≠ Some (NewsArticle.article_id article).
Proof.
  unfold NewsProcessingWorkflow.process_article. cbv zeta.
  set (s1 := DeduplicationAgent.process env (vector_store w)
               (AgentState.initial article)).
  destruct (dedup_flag_and_pointer env (vector_store w) article) as [Hiff Hne].
  destruct (dedup_keeps_results env (vector_store w) (AgentState.initial article))
    as (Ha1 & _).
  fold s1 in Hiff, Hne, Ha1.
  destruct (entity_process_keeps_flags env s1) as (Ha2 & Hf2 & Hp2 & _).
  destruct (impact_process_keeps_flags env (EntityExtractionAgent.process env s1))
    as (Ha3 & Hf3 & Hp3 & _).
  destruct (storage_process_keeps_flags env w
              (StockImpactAgent.process env (EntityExtractionAgent.process env s1)))
    as (Ha4 & Hf4 & Hp4 & _).
  cbv zeta in *. rewrite Ha4, Hf4, Hp4, Ha3, Hf3, Hp3, Ha2, Hf2, Hp2, Ha1.
  done.
Qed.

(** X14: in the namespace of the module as it is written, the pipeline
    flags no article as a duplicate, whatever the index holds, and every
    state it returns carries an error. *)
Theorem shipped_pipeline_never_flags (env : Env) (w : World)
    (article : NewsArticle.t) :
  vector_store_globals env !! "SIMILARITY_THRESHOLD" = None ->
  let final := (NewsProcessingWorkflow.process_article env w article).1 in
  AgentState.is_duplicate final = false ∧
  AgentState.duplicate_of final = None ∧
  is_Some (AgentState.error final).
Proof.
  intros Hg. unfold NewsProcessingWorkflow.process_article. cbv zeta.
  rewrite (dedup_unbound_threshold env (vector_store w) _ Hg).
  set (s1 := AgentState.set_error _ (AgentState.initial article)).
  destruct (entity_process_keeps_flags env s1) as (_ & Hf2 & Hp2 & He2).
  destruct (impact_process_keeps_flags env (EntityExtractionAgent.process env s1))
    as (_ & Hf3 & Hp3 & He3).
  destruct (storage_process_keeps_flags env w
              (StockImpactAgent.process env (EntityExtractionAgent.process env s1)))
    as (_ & Hf4 & Hp4 & _ & _ & He4).
  cbv zeta in *. rewrite Hf4, Hp4, Hf3, Hp3, Hf2, Hp2.
  split; [done|]. split; [done|].
  apply He4. rewrite He3. apply He2. by eexists.
Qed.

(** ** Storage *)

Lemma article_ids_app (rows1 rows2 : list Row) :
  Database.article_ids (rows1 ++ rows2) =
  Database.article_ids rows1 ++ Database.article_ids rows2.
Proof. apply omap_app. Qed.

Lemma rows_of_article_id (state : AgentState.t) :
  NewsArticle.article_id (AgentState.article state)
    ∈ Database.article_ids (rows_of state).
Proof. left. Qed.

Lemma stored_id_violates (db : list Row) (state : AgentState.t) :
  NewsArticle.article_id (AgentState.article state) ∈ Database.article_ids db ->
  Database.unique_violation db (rows_of state) = true.
Proof.
  intros Hin. unfold Database.unique_violation.
  apply negb_true_iff, bool_decide_eq_false. rewrite article_ids_app.
  intros Hnd. apply NoDup_app in Hnd as (_ & Hdis & _).
  apply (Hdis _ Hin), rows_of_article_id.
Qed.

Lemma storage_unique_violation (env : Env) (w : World) (state : AgentState.t) :
  NewsArticle.article_id (AgentState.article state)
    ∈ Database.article_ids (database w) ->
  ∃ msg, StorageAgent.process env w state = (StorageAgent.failed msg state, w).
Proof.
  intros Hin. unfold StorageAgent.process, Database.get_db_session.
  rewrite store_rows_commit. unfold Database.commit. simpl.
  rewrite (stored_id_violates _ _ Hin). simpl.
  eexists. by destruct w.
Qed.

(** X15: submitting an article whose id is already in the database changes
    neither the database nor the index: the commit is refused, and the
    state returned carries an error and [stored] false. *)
Theorem resubmitted_id_changes_nothing (env : Env) (w : World)
    (article : NewsArticle.t) :
  NewsArticle.article_id article ∈ Database.article_ids (database w) ->
  let final := (NewsProcessingWorkflow.process_article env w article).1 in
  (NewsProcessingWorkflow.process_article env w article).2 = w ∧
  is_Some (AgentState.error final) ∧
  AgentState.processing_metadata final !! "stored" = Some (MBool false).
Proof.
  intros Hin. unfold NewsProcessingWorkflow.process_article. cbv zeta.
  set (s1 := DeduplicationAgent.process env (vector_store w)
               (AgentState.initial article)).
  destruct (dedup_keeps_results env (vector_store w) (AgentState.initial article))
    as (Ha1 & _).
  fold s1 in Ha1.
  destruct (entity_process_keeps_flags env s1) as (Ha2 & _).
  destruct (impact_process_keeps_flags env (EntityExtractionAgent.process env s1))
    as (Ha3 & _).
  cbv zeta in *.
  set (s3 := StockImpactAgent.process env (EntityExtractionAgent.process env s1)) in *.
  assert (Ha : AgentState.article s3 = article) by (by rewrite Ha3, Ha2, Ha1).
  destruct (storage_unique_violation env w s3) as [msg ->]; [by rewrite Ha|].
  simpl. split; [done|]. split; [by eexists | apply lookup_insert_eq].
Qed.

Lemma add_article_news (env : Env) (vs vs' : VectorStoreManager.t)
    (article : NewsArticle.t) (entities : list string) :
  VectorStoreManager.add_article env vs article entities = (vs', Ok tt) ->
  VectorStoreManager.news_collection vs' !! NewsArticle.article_id article =
    Some (VectorStoreManager.article_document article).
Proof.
  unfold VectorStoreManager.add_article, VectorStoreManager.add_documents.
  destruct (add_documents_error env NewsCollection _ _) as [msg|]; simpl; [done|].
  destruct entities as [|e0 entities].
  - intros [= <-]. apply lookup_insert_eq.
  - destruct (add_documents_error env EntityCollection _ _) as [msg|]; [done|].
    intros [= <-]. apply lookup_insert_eq.
Qed.

(** X16: [stored] true in the state the storage stage returns means that
    all the rows of the article are committed and, for an article that is
    no duplicate, that its document is in the news collection under its
    id; for a duplicate the index is as it was. The stage then leaves
    [error] as it found it. *)
Theorem stored_means_committed_and_indexed (env : Env) (w : World)
    (state : AgentState.t) :
  let final := (StorageAgent.process env w state).1 in
  let w' := (StorageAgent.process env w state).2 in
  AgentState.processing_metadata final !! "stored" = Some (MBool true) ->
  database w' = database w ++ rows_of state ∧
  AgentState.error final = AgentState.error state ∧
  (AgentState.is_duplicate state = false ->
   VectorStoreManager.news_collection (vector_store w')
     !! NewsArticle.article_id (AgentState.article state) =
   Some (VectorStoreManager.article_document (AgentState.article state))) ∧
  (AgentState.is_duplicate state = true -> vector_store w' = vector_store w).
Proof.
  unfold StorageAgent.process. cbv zeta.
  destruct (Database.get_db_session env (database w) _) as [db [[]|msg]] eqn:Hs;
    simpl.
  - pose proof (session_committed env state _ _ Hs) as ->.
    destruct (AgentState.is_duplicate state); simpl.
    + intros _. done.
    + destruct (VectorStoreManager.add_article _ _ _ _) as [vs [[]|msg]] eqn:Ha;
        simpl.
      * intros _. split; [done|]. split; [done|]. split; [|done].
        intros _. by eapply add_article_news.
      * rewrite lookup_insert_eq. by intros [=].
  - rewrite lookup_insert_eq. by intros [=].
Qed.

(** ** The query agent *)

Lemma article_ids_of_elem (docs : list Document.t) (ids : list string) (id : string) :
  VectorStoreReads.article_ids_of docs = Ok ids -> id ∈ ids ->
  ∃ doc, doc ∈ docs ∧ Document.metadata doc !! "article_id" = Some id.
Proof.
  revert ids. induction docs as [|doc docs IH]; intros ids Hids Hin; simpl in Hids.
  - injection Hids as <-. by apply elem_of_nil in Hin.
  - destruct (Document.metadata doc !! "article_id") as [id0|] eqn:Hid; [|done].
    destruct (VectorStoreReads.article_ids_of docs) as [tl|]; [|done].
    simpl in Hids. injection Hids as <-.
    apply elem_of_cons in Hin as [->|Hin].
    + exists doc. split; [left | done].
    + destruct (IH tl eq_refl Hin) as (d & Hd & Hm). exists d. split; [by right | done].
Qed.

Lemma omap_length_le {A B} (f : A -> option B) (l : list A) :
  length (omap f l) <= length l.
Proof.
  induction l as [|x l IH]; simpl; [done|].
  destruct (f x); simpl; [apply le_n_S | apply Nat.le_le_succ_r]; exact IH.
Qed.

Lemma read_session_result {A} (env : Env) (db : list Row)
    (body : Database.Session -> A) (a : A) :
  (Database.get_db_session env db (fun session => (session, Ok (body session)))).2
    = Ok a ->
  a = body (Database.mkSession db []).
Proof.
  unfold Database.get_db_session.
  destruct (Database.commit env (Database.mkSession db [])) as [s2 [[]|msg]]; simpl;
    [|done].
  by intros [= <-].
Qed.

Lemma retrieve_articles_loaded (env : Env) (renv : ReadEnv) (w : World)
    (request : QueryRequest.t) (articles : list ProcessedArticle.t) :
  QueryAgent.retrieve_articles env renv w request = Ok articles ->
  articles = [] ∨
  ∃ ids,
    QueryAgent.get_article_ids_from_vector renv (vector_store w)
      (QueryRequest.query request) (QueryRequest.max_results request) = Ok ids ∧
    articles =
      omap (QueryAgent.processed_of (database w))
        (take (QueryRequest.max_results request)
           (List.filter (QueryAgent.selected renv request ids) (database w))).
Proof.
  unfold QueryAgent.retrieve_articles.
  destruct (QueryAgent.get_article_ids_from_vector renv _ _ _) as [ids|];
    simpl; [|done].
  destruct ids as [|id ids]; [intros [= <-]; by left|].
  destruct (Database.get_db_session env (database w) _).2 as [loaded|] eqn:Hs;
    simpl; [|done].
  destruct (QueryAgent.sector_expansion request _); simpl; [|done].
  intros [= <-]. right. exists (id :: ids). split; [done|].
  by apply (read_session_result env (database w)
              (fun session =>
                 omap (QueryAgent.processed_of (Database.committed session))
                   (take (QueryRequest.max_results request)
                      (List.filter (QueryAgent.selected renv request (id :: ids))
                         (Database.committed session))))) in Hs.
Qed.

(** X17: [process_query] never raises; its answer repeats the query, counts
    its results, and holds at most [max_results] articles. Each of them is
    an article row of the database that is no duplicate, whose id the
    similarity search returned and whose date lies within the bounds of
    the request; its entities and impacts are the rows stored under its
    id, and its metadata is empty. *)
Theorem process_query_results (env : Env) (renv : ReadEnv) (w : World)
    (request : QueryRequest.t) :
  let response := QueryAgent.process_query env renv w request in
  QueryResponse.query response = QueryRequest.query request ∧
  QueryResponse.expanded_entities response = [] ∧
  QueryResponse.total_results response = length (QueryResponse.results response) ∧
  length (QueryResponse.results response) <= QueryRequest.max_results request ∧
  ∀ p, p ∈ QueryResponse.results response ->
    ProcessedArticle.is_duplicate p = false ∧
    ProcessedArticle.processing_metadata p = ∅ ∧
    NewsArticleDB (ProcessedArticle.article_id p) (ProcessedArticle.title p)
      (ProcessedArticle.content p) (ProcessedArticle.source p)
      (ProcessedArticle.published_at p) (ProcessedArticle.url p) false
      (ProcessedArticle.duplicate_of p) ∈ database w ∧
    (∃ doc,
       doc ∈ VectorStoreReads.search_articles renv (vector_store w)
               (QueryRequest.query request)
               (QueryRequest.max_results request * 2) None ∧
       Document.metadata doc !! "article_id" = Some (ProcessedArticle.article_id p)) ∧
    ProcessedArticle.entities p =
      QueryAgent.entities_of_article (database w) (ProcessedArticle.article_id p) ∧
    ProcessedArticle.stock_impacts p =
      QueryAgent.impacts_of_article (database w) (ProcessedArticle.article_id p) ∧
    (∀ bound, QueryRequest.date_from request = Some bound ->
       timestamp_le renv bound (ProcessedArticle.published_at p) = true) ∧
    (∀ bound, QueryRequest.date_to request = Some bound ->
       timestamp_le renv (ProcessedArticle.published_at p) bound = true).
Proof.
  unfold QueryAgent.process_query.
  destruct (QueryAgent.retrieve_articles env renv w request) as [articles|msg] eqn:Hr;
    simpl.
  2:{ split; [done|]. split; [done|]. split; [done|]. split; [simpl; lia|].
      intros p Hp. by apply elem_of_nil in Hp. }
  split; [done|]. split; [done|]. split; [done|].
  apply retrieve_articles_loaded in Hr as [->|(ids & Hids & ->)].
  { split; [simpl; lia|]. intros p Hp. by apply elem_of_nil in Hp. }
  split.
  { etransitivity; [apply omap_length_le|]. rewrite length_take. lia. }
  intros p Hp. apply list_elem_of_omap in Hp as (r & Hr & Hp).
  apply elem_of_take in Hr as (i & Hr & _).
  apply list_elem_of_lookup_2, list_elem_of_In, filter_In in Hr as [Hin Hsel].
  apply list_elem_of_In in Hin.
  destruct r as [id title content source published url dup dup_of| |]; [|done..].
  simpl in Hp. injection Hp as <-. simpl.
  unfold QueryAgent.selected in Hsel.
  apply andb_true_iff in Hsel as [Hsel Hto].
  apply andb_true_iff in Hsel as [Hsel Hfrom].
  apply andb_true_iff in Hsel as [Hid Hdup].
  apply bool_decide_eq_true in Hid. apply negb_true_iff in Hdup. subst dup.
  split; [done|]. split; [done|]. split; [done|]. split.
  { unfold QueryAgent.get_article_ids_from_vector in Hids.
    by apply (article_ids_of_elem _ ids). }
  split; [done|]. split; [done|]. split.
  - intros bound Hb. by rewrite Hb in Hfrom.
  - intros bound Hb. by rewrite Hb in Hto.
Qed.

Lemma entities_of_article_app (rows1 rows2 : list Row) (id : string) :
  QueryAgent.entities_of_article (rows1 ++ rows2) id =
  QueryAgent.entities_of_article rows1 id ++ QueryAgent.entities_of_article rows2 id.
Proof. apply omap_app. Qed.

Lemma impacts_of_article_app (rows1 rows2 : list Row) (id : string) :
  QueryAgent.impacts_of_article (rows1 ++ rows2) id =
  QueryAgent.impacts_of_article rows1 id ++ QueryAgent.impacts_of_article rows2 id.
Proof. apply omap_app. Qed.

Lemma entities_of_entity_rows (id : string) (es : list Entity.t) :
  QueryAgent.entities_of_article (map (StorageAgent.db_entity id) es) id = es ∧
  QueryAgent.impacts_of_article (map (StorageAgent.db_entity id) es) id = [].
Proof.
  induction es as [|[text type conf] es [IH1 IH2]]; [done|].
  unfold QueryAgent.entities_of_article, QueryAgent.impacts_of_article in *.
  simpl. rewrite String.eqb_refl. split; [by f_equal | done].
Qed.

Lemma impacts_of_impact_rows (id : string) (imps : list StockImpact.t) :
  QueryAgent.impacts_of_article (map (StorageAgent.db_impact id) imps) id = imps ∧
  QueryAgent.entities_of_article (map (StorageAgent.db_impact id) imps) id = [].
Proof.
  induction imps as [|[symbol conf type reasoning] imps [IH1 IH2]]; [done|].
  unfold QueryAgent.entities_of_article, QueryAgent.impacts_of_article in *.
  simpl. rewrite String.eqb_refl. split; [by f_equal | done].
Qed.

(** X18: storing then reading: on a database holding no entity or impact row
    under the id of the article, the rows the storage stage commits for a
    state read back, in the query agent, as the article of the state with
    its flag and pointer, exactly the entities and the impacts of the
    state when it is no duplicate and none when it is, and no metadata;
    a non-duplicate is selected by every request without dates whose
    candidates hold its id. *)
Theorem stored_article_reads_back (renv : ReadEnv) (db : list Row)
    (state : AgentState.t) (request : QueryRequest.t) (ids : list string) :
  let article := AgentState.article state in
  let id := NewsArticle.article_id article in
  QueryAgent.entities_of_article db id = [] ->
  QueryAgent.impacts_of_article db id = [] ->
  QueryAgent.processed_of (db ++ rows_of state) (StorageAgent.db_article state) =
    Some (ProcessedArticle.mk id (NewsArticle.title article)
            (NewsArticle.content article) (NewsArticle.source article)
            (NewsArticle.published_at article) (NewsArticle.url article)
            (AgentState.is_duplicate state) (AgentState.duplicate_of state)
            (if AgentState.is_duplicate state then []
             else AgentState.entities state)
            (if AgentState.is_duplicate state then []
             else AgentState.stock_impacts state) ∅) ∧
  (AgentState.is_duplicate state = false -> id ∈ ids ->
   QueryRequest.date_from request = None ->
   QueryRequest.date_to request = None ->
   QueryAgent.selected renv request ids (StorageAgent.db_article state) = true).
Proof.
  intros article id He Hi. split.
  - unfold QueryAgent.processed_of, StorageAgent.db_article. fold article id.
    f_equal. unfold rows_of. fold article id.
    rewrite entities_of_article_app, impacts_of_article_app, He, Hi. simpl.
    destruct (AgentState.is_duplicate state); [done|].
    rewrite entities_of_article_app, impacts_of_article_app.
    destruct (entities_of_entity_rows id (AgentState.entities state)) as [-> ->].
    destruct (impacts_of_impact_rows id (AgentState.stock_impacts state)) as [-> ->].
    by rewrite app_nil_r.
  - intros Hdup Hin Hfrom Hto. unfold QueryAgent.selected, StorageAgent.db_article.
    fold article id. rewrite Hdup, Hfrom, Hto. simpl.
    by rewrite bool_decide_eq_true_2.
Qed.

Lemma sector_expansion_off (request : QueryRequest.t) (understanding : Json) :
  QueryRequest.include_sector_news request = false ->
  QueryAgent.sector_expansion request understanding = Ok tt.
Proof. intros H. unfold QueryAgent.sector_expansion. by rewrite H. Qed.

Lemma expand_entity_context_hashable (entity_name entity_type : Json) :
  match entity_name with
  | JArray _ | JObject _ => False
  | _ => True
  end ->
  ∃ expanded,
    QueryAgent.expand_entity_context entity_name entity_type = Ok expanded.
Proof.
  intros Hname. unfold QueryAgent.expand_entity_context.
  destruct entity_name as [|b|z|q|s|l|f]; try done;
    destruct entity_type as [|?|?|?|ty|?|?]; try by eexists.
  destruct (String.eqb ty "company"); [|by eexists].
  destruct (PyDict.get s QueryAgent.sector_map) as [sector|]; [|by eexists].
  destruct (String.eqb sector s); by eexists.
Qed.

Lemma sector_expansion_object (request : QueryRequest.t)
    (fields : list (string * Json)) :
  match default JNull (PyDict.get "entity_name" fields) with
  | JArray _ | JObject _ => False
  | _ => True
  end ->
  QueryAgent.sector_expansion request (JObject fields) = Ok tt.
Proof.
  intros Hname. unfold QueryAgent.sector_expansion, QueryAgent.py_get.
  destruct (QueryRequest.include_sector_news request); [|done].
  unfold rbind at 1. destruct (QueryAgent.truthy _); [|done].
  unfold rbind at 1. unfold rbind at 1.
  destruct (_ && _); [|done].
  destruct (expand_entity_context_hashable _
              (default JNull (PyDict.get "entity_type" fields)) Hname) as [l ->].
  done.
Qed.

(** X19: the sector expansion adds no article. Asking for sector news
    either leaves the result of [retrieve_articles] as it is without, or
    makes it raise; it leaves it as it is whenever the query chain raises
    or answers an object whose [entity_name] is neither a list nor an
    object. *)
Theorem sector_expansion_adds_nothing (env : Env) (renv : ReadEnv) (w : World)
    (query : string) (max_results : nat) (date_from date_to : option string) :
  let asked := QueryAgent.retrieve_articles env renv w
                 (QueryRequest.mk query max_results true date_from date_to) in
  let plain := QueryAgent.retrieve_articles env renv w
                 (QueryRequest.mk query max_results false date_from date_to) in
  (asked = plain ∨ ∃ msg, asked = Raise msg) ∧
  ((∃ msg, query_chain renv query = Raise msg) -> asked = plain) ∧
  (∀ fields, query_chain renv query = Ok (JObject fields) ->
     match default JNull (PyDict.get "entity_name" fields) with
     | JArray _ | JObject _ => False
     | _ => True
     end -> asked = plain).
Proof.
  cbv zeta. unfold QueryAgent.retrieve_articles. simpl.
  destruct (QueryAgent.get_article_ids_from_vector renv _ query max_results)
    as [[|id ids]|msg]; simpl; try (repeat split; by left).
  assert (Hload : ∀ b,
    Database.get_db_session env (database w)
      (QueryAgent.load_articles renv
         (QueryRequest.mk query max_results b date_from date_to) (id :: ids)) =
    Database.get_db_session env (database w)
      (QueryAgent.load_articles renv
         (QueryRequest.mk query max_results false date_from date_to) (id :: ids)))
    by done.
  rewrite (Hload true).
  destruct (Database.get_db_session env (database w) _).2 as [loaded|msg]; simpl;
    [|repeat split; by left].
  assert (Hexp : ∀ r,
    QueryAgent.sector_expansion
      (QueryRequest.mk query max_results true date_from date_to)
      (QueryAgent.understand_query renv query) = r ->
    (rbind r (fun _ => Ok loaded) = Ok loaded ∨
     ∃ msg, rbind r (fun _ => Ok loaded) = Raise msg) ∧
    (r = Ok tt -> rbind r (fun _ => Ok loaded) = Ok loaded)).
  { intros [[]|msg] _; simpl; [split; [by left | done]|].
    split; [right; by exists msg | done]. }
  destruct (Hexp _ eq_refl) as [Hor Hok].
  split; [exact Hor|]. split.
  - intros [msg Hq]. apply Hok. unfold QueryAgent.understand_query. by rewrite Hq.
  - intros fields Hq Hname. apply Hok. unfold QueryAgent.understand_query.
    rewrite Hq. by apply sector_expansion_object.
Qed.

(** ** The HTTP interface *)

Lemma count_rows_app (p : Row -> bool) (rows1 rows2 : list Row) :
  Api.count_rows p (rows1 ++ rows2) = Api.count_rows p rows1 + Api.count_rows p rows2.
Proof. unfold Api.count_rows. by rewrite List.filter_app, length_app. Qed.

Lemma count_rows_partition (rows : list Row) :
  Api.count_rows (Api.is_article None) rows =
  Api.count_rows (Api.is_article (Some false)) rows +
  Api.count_rows (Api.is_article (Some true)) rows.
Proof.
  unfold Api.count_rows. induction rows as [|r rows IH]; [done|].
  destruct r as [? ? ? ? ? ? [] ?| |]; simpl; lia.
Qed.

Lemma statistics_response (env : Env) (w : World) (st : Api.Statistics) :
  Api.get_statistics env w = Response st ->
  Api.total_articles st = Api.count_rows (Api.is_article None) (database w) ∧
  Api.unique_articles st = Api.count_rows (Api.is_article (Some false)) (database w) ∧
  Api.duplicate_articles st = Api.count_rows (Api.is_article (Some true)) (database w) ∧
  Api.total_entities st = Api.count_rows Api.is_entity (database w) ∧
  Api.total_stock_impacts st = Api.count_rows Api.is_impact (database w).
Proof.
  unfold Api.get_statistics. intros H.
  destruct (Database.get_db_session env (database w) Api.count_all).2
    as [[[[[t u] d] e] i]|msg] eqn:Hs; [|done].
  apply (read_session_result env (database w)
           (fun session =>
              (Api.count_rows (Api.is_article None) (Database.committed session),
               Api.count_rows (Api.is_article (Some false)) (Database.committed session),
               Api.count_rows (Api.is_article (Some true)) (Database.committed session),
               Api.count_rows Api.is_entity (Database.committed session),
               Api.count_rows Api.is_impact (Database.committed session)))) in Hs.
  simpl in Hs. injection Hs as -> -> -> -> ->. by injection H as <-.
Qed.

Lemma count_rows_of (state : AgentState.t) :
  Api.count_rows (Api.is_article None) (rows_of state) = 1 ∧
  Api.count_rows (Api.is_article (Some true)) (rows_of state) =
    (if AgentState.is_duplicate state then 1 else 0) ∧
  Api.count_rows Api.is_entity (rows_of state) =
    (if AgentState.is_duplicate state then 0
     else length (AgentState.entities state)) ∧
  Api.count_rows Api.is_impact (rows_of state) =
    (if AgentState.is_duplicate state then 0
     else length (AgentState.stock_impacts state)).
Proof.
  assert (He : ∀ id es,
    Api.count_rows (Api.is_article None) (map (StorageAgent.db_entity id) es) = 0 ∧
    Api.count_rows (Api.is_article (Some true)) (map (StorageAgent.db_entity id) es) = 0 ∧
    Api.count_rows Api.is_entity (map (StorageAgent.db_entity id) es) = length es ∧
    Api.count_rows Api.is_impact (map (StorageAgent.db_entity id) es) = 0).
  { intros id es. unfold Api.count_rows.
    induction es as [|e es (IH1 & IH2 & IH3 & IH4)]; [done|]. simpl.
    repeat split; try done. by rewrite IH3. }
  assert (Hi : ∀ id imps,
    Api.count_rows (Api.is_article None) (map (StorageAgent.db_impact id) imps) = 0 ∧
    Api.count_rows (Api.is_article (Some true)) (map (StorageAgent.db_impact id) imps) = 0 ∧
    Api.count_rows Api.is_entity (map (StorageAgent.db_impact id) imps) = 0 ∧
    Api.count_rows Api.is_impact (map (StorageAgent.db_impact id) imps) = length imps).
  { intros id imps. unfold Api.count_rows.
    induction imps as [|i imps (IH1 & IH2 & IH3 & IH4)]; [done|]. simpl.
    repeat split; try done. by rewrite IH4. }
  unfold rows_of.
  change (?x :: ?l) with ([x] ++ l).
  rewrite !count_rows_app.
  destruct (AgentState.is_duplicate state) eqn:Hd.
  - unfold Api.count_rows, StorageAgent.db_article. simpl. by rewrite Hd.
  - rewrite !count_rows_app.
    destruct (He (NewsArticle.article_id (AgentState.article state))
                 (AgentState.entities state)) as (-> & -> & -> & ->).
    destruct (Hi (NewsArticle.article_id (AgentState.article state))
                 (AgentState.stock_impacts state)) as (-> & -> & -> & ->).
    unfold Api.count_rows, StorageAgent.db_article. simpl. rewrite Hd. simpl.
    repeat split; lia.
Qed.

(** X20: in the statistics, the articles are the unique ones plus the
    duplicates; and once the storage stage has committed the rows of a
    state, the statistics count one more article, one more duplicate when
    the state is a duplicate, and for a state that is no duplicate as many
    more entities and impacts as the state holds. *)
Theorem statistics_follow_storage (env : Env) (w : World)
    (vs' : VectorStoreManager.t) (state : AgentState.t)
    (before after : Api.Statistics) :
  Api.get_statistics env w = Response before ->
  Api.get_statistics env (mkWorld vs' (database w ++ rows_of state))
    = Response after ->
  Api.total_articles before =
    Api.unique_articles before + Api.duplicate_articles before ∧
  Api.total_articles after =
    Api.unique_articles after + Api.duplicate_articles after ∧
  Api.total_articles after = S (Api.total_articles before) ∧
  Api.duplicate_articles after =
    Api.duplicate_articles before +
    (if AgentState.is_duplicate state then 1 else 0) ∧
  Api.total_entities after =
    Api.total_entities before +
    (if AgentState.is_duplicate state then 0
     else length (AgentState.entities state)) ∧
  Api.total_stock_impacts after =
    Api.total_stock_impacts before +
    (if AgentState.is_duplicate state then 0
     else length (AgentState.stock_impacts state)).
Proof.
  intros Hb Ha.
  apply statistics_response in Hb as (Hb1 & Hb2 & Hb3 & Hb4 & Hb5).
  apply statistics_response in Ha as (Ha1 & Ha2 & Ha3 & Ha4 & Ha5).
  simpl in Ha1, Ha2, Ha3, Ha4, Ha5.
  rewrite count_rows_app in Ha1, Ha3, Ha4, Ha5.
  destruct (count_rows_of state) as (Hc1 & Hc2 & Hc3 & Hc4).
  rewrite Hc1 in Ha1. rewrite Hc2 in Ha3. rewrite Hc3 in Ha4. rewrite Hc4 in Ha5.
  pose proof (count_rows_partition (database w)) as Hp.
  pose proof (count_rows_partition (database w ++ rows_of state)) as Hp'.
  rewrite count_rows_app in Ha2.
  rewrite !count_rows_app in Hp'.
  repeat split; try lia.
Qed.

Lemma storage_stored_true (env : Env) (w : World) (state : AgentState.t) :
  AgentState.processing_metadata (StorageAgent.process env w state).1 !! "stored"
    = Some (MBool true) ->
  AgentState.error (StorageAgent.process env w state).1 = AgentState.error state ∧
  database (StorageAgent.process env w state).2 = database w ++ rows_of state.
Proof.
  unfold StorageAgent.process.
  destruct (Database.get_db_session env (database w) _) as [db [[]|msg]] eqn:Hs;
    simpl.
  - pose proof (session_committed env state _ _ Hs) as ->.
    destruct (AgentState.is_duplicate state); simpl; [done|].
    destruct (VectorStoreManager.add_article _ _ _ _) as [vs [[]|msg]]; simpl;
      [done|].
    rewrite lookup_insert_eq. by intros [=].
  - rewrite lookup_insert_eq. by intros [=].
Qed.

(** X21: in the namespace of the module as it is written, with the tagger
    answering and the loops over the answer of the language model
    completing, [ingest_article] answers HTTP 500 even when the storage
    stage succeeded: the article row is committed, flagged as no
    duplicate, and the detail of the exception renders the [NameError] of
    the deduplication stage. *)
Theorem shipped_ingest_answers_500 (env : Env) (renv : ReadEnv) (w : World)
    (article : NewsArticle.t) (spans : list (string * string))
    (llm : list Entity.t) :
  vector_store_globals env !! "SIMILARITY_THRESHOLD" = None ->
  nlp env (NewsArticle.title article +:+ " " +:+ NewsArticle.content article)
    = Ok spans ->
  EntityExtractionAgent.entities_of_llm env
    (EntityExtractionAgent.extract_with_llm env (NewsArticle.title article)
       (NewsArticle.content article)) = Ok llm ->
  let final := (NewsProcessingWorkflow.process_article env w article).1 in
  let w' := (NewsProcessingWorkflow.process_article env w article).2 in
  AgentState.processing_metadata final !! "stored" = Some (MBool true) ->
  Api.ingest_article env renv w article =
    (HTTPException 500
       (http_exception_str renv 500 "name 'SIMILARITY_THRESHOLD' is not defined"),
     w') ∧
  NewsArticleDB (NewsArticle.article_id article) (NewsArticle.title article)
    (NewsArticle.content article) (NewsArticle.source article)
    (NewsArticle.published_at article) (NewsArticle.url article) false None
    ∈ database w'.
Proof.
  intros Hg Hnlp Hllm. cbv zeta. unfold Api.ingest_article.
  unfold NewsProcessingWorkflow.process_article. cbv zeta.
  rewrite (dedup_unbound_threshold env (vector_store w) _ Hg).
  set (s1 := AgentState.set_error _ (AgentState.initial article)).
  rewrite (entity_process_runs env s1 spans llm eq_refl Hnlp Hllm). cbv zeta.
  set (s2 := AgentState.set_metadata "entity_count" _ _).
  rewrite (impact_process_runs env s2 eq_refl). cbv zeta.
  set (s3 := AgentState.set_metadata "impact_count" _ _).
  intros Hstored. destruct (storage_stored_true env w s3 Hstored) as [Herr Hdb].
  destruct (StorageAgent.process env w s3) as [final w'] eqn:Hp. simpl in *.
  unfold Api.error_set. rewrite Herr. simpl. split; [done|].
  rewrite Hdb. apply elem_of_app. right. left.
Qed.

Lemma ingest_loop_acc (env : Env) (acc : list ProcessedArticle.t) (w : World)
    (articles : list NewsArticle.t) :
  let step := fun (acc : list ProcessedArticle.t * World) article =>
    let '(result, w') := NewsProcessingWorkflow.process_article env acc.2 article in
    (acc.1 ++ [Api.response_of article result], w') in
  foldl step (acc, w) articles =
  (acc ++ (foldl step ([], w) articles).1, (foldl step ([], w) articles).2).
Proof.
  cbv zeta. revert acc w. induction articles as [|a articles IH]; intros acc w.
  - simpl. by rewrite app_nil_r.
  - simpl. destruct (NewsProcessingWorkflow.process_article env w a) as [r w1].
    rewrite (IH (acc ++ [_]) w1), (IH [_] w1). simpl. by rewrite <- app_assoc.
Qed.

Lemma ingest_batch_cons (env : Env) (w : World) (a : NewsArticle.t)
    (articles : list NewsArticle.t) :
  let first := NewsProcessingWorkflow.process_article env w a in
  ∃ rest,
    (Api.ingest_batch env first.2 articles).1 = Response rest ∧
    Api.ingest_batch env w (a :: articles) =
      (Response (Api.response_of a first.1 :: rest),
       (Api.ingest_batch env first.2 articles).2).
Proof.
  cbv zeta. unfold Api.ingest_batch. simpl.
  destruct (NewsProcessingWorkflow.process_article env w a) as [r w1]. simpl.
  rewrite (ingest_loop_acc env [_] w1 articles). cbv zeta.
  destruct (foldl _ ([], w1) articles) as [rest w2]. simpl.
  by exists rest.
Qed.

(** X22: [ingest_batch] answers with one article per article submitted, in
    the order of submission, whether or not processing recorded an error:
    the first is what the pipeline returns for it, and the rest is the
    batch of the remaining articles run on the store the first one left. *)
Theorem ingest_batch_in_order (env : Env) (w : World)
    (articles : list NewsArticle.t) :
  ∃ results,
    (Api.ingest_batch env w articles).1 = Response results ∧
    map ProcessedArticle.article_id results =
      map NewsArticle.article_id articles ∧
    match articles with
    | [] => results = [] ∧ (Api.ingest_batch env w articles).2 = w
    | a :: rest =>
        let first := NewsProcessingWorkflow.process_article env w a in
        ∃ others,
          (Api.ingest_batch env first.2 rest).1 = Response others ∧
          results = Api.response_of a first.1 :: others ∧
          (Api.ingest_batch env w articles).2 =
            (Api.ingest_batch env first.2 rest).2
    end.
Proof.
  revert w. induction articles as [|a articles IH]; intros w.
  - exists []. done.
  - destruct (ingest_batch_cons env w a articles) as (rest & Hrest & Heq).
    destruct (IH (NewsProcessingWorkflow.process_article env w a).2)
      as (results & Hres & Hids & _).
    assert (results = rest) as -> by congruence.
    exists (Api.response_of a (NewsProcessingWorkflow.process_article env w a).1
            :: rest).
    rewrite Heq. simpl. split; [done|]. split; [by rewrite Hids|].
    by exists rest.
Qed.

(** ** The further properties on the scenarios *)

Lemma company_symbol_ignores_case_witness :
  PyStr.isascii "Reliance Industries" = true ∧
  StockImpactAgent.map_company_to_symbol (PyStr.lower "Reliance Industries")
    = "RELIANCE" ∧
  StockImpactAgent.map_company_to_symbol (PyStr.upper "Bank of Baroda")
    = "BANKOFBARO".
Proof.
  split; [reflexivity|]. split.
  - etransitivity;
      [apply (company_symbol_ignores_case "Reliance Industries" eq_refl)|].
    reflexivity.
  - etransitivity;
      [apply (company_symbol_ignores_case "Bank of Baroda" eq_refl)|].
    reflexivity.
Defined.

Lemma extract_regulators_whole_words_witness :
  let text := "The rbi and the Fed met; second quarter" in
  PyStr.isascii text = true ∧
  map Entity.text (EntityExtractionAgent.extract_regulators text)
    `sublist_of` EntityExtractionAgent.regulator_keywords ∧
  EntityExtractionAgent.extract_regulators text =
    [Entity.mk "RBI" "REGULATOR" (9 # 10); Entity.mk "Fed" "REGULATOR" (9 # 10)].
Proof.
  intros text. split; [reflexivity|].
  destruct (extract_regulators_whole_words text eq_refl) as (_ & Hsub & _).
  split; [exact Hsub | reflexivity].
Defined.

Lemma extract_sectors_by_substring_witness :
  let text := "Cloud software for retail banking" in
  PyStr.isascii text = true ∧
  EntityExtractionAgent.extract_sectors (PyStr.upper text) =
    EntityExtractionAgent.extract_sectors text ∧
  map Entity.text (EntityExtractionAgent.extract_sectors text) =
    ["Banking"; "Technology"; "Retail"].
Proof.
  intros text. split; [reflexivity|].
  destruct (extract_sectors_by_substring text) as (_ & _ & _ & Hcase).
  split; [by apply Hcase | reflexivity].
Defined.

Lemma regulatory_impacts_never_kept_witness :
  let entities := [Entity.mk "Banking" "SECTOR" (7 # 10);
                   Entity.mk "RBI" "REGULATOR" (9 # 10)] in
  let r := StockImpact.mk "SBIN" (8 # 10) "sector"
             (Some "Sector 'Banking' impacted") in
  r ∈ StockImpactAgent.merge_impacts
        (StockImpactAgent.get_direct_impacts entities ++
         StockImpactAgent.get_sector_impacts entities ++
         StockImpactAgent.get_regulatory_impacts entities ++ []) ∧
  (r ∈ StockImpactAgent.get_direct_impacts entities ∨
   r ∈ StockImpactAgent.get_sector_impacts entities ∨
   r ∈ []).
Proof.
  intros entities r.
  assert (Hin : r ∈ StockImpactAgent.merge_impacts
                      (StockImpactAgent.get_direct_impacts entities ++
                       StockImpactAgent.get_sector_impacts entities ++
                       StockImpactAgent.get_regulatory_impacts entities ++ [])).
  { right. right. left. }
  split; [exact Hin|].
  apply (regulatory_impacts_never_kept entities [] r Hin).
Defined.

Lemma company_keeps_direct_impact_witness :
  let env := Scenario.env Scenario.bound_globals in
  let state := EntityExtractionAgent.process env (AgentState.initial Scenario.n1) in
  AgentState.is_duplicate state = false ∧
  ∃ r, r ∈ AgentState.stock_impacts (StockImpactAgent.process env state) ∧
       StockImpact.symbol r = "HDFCBANK" ∧
       StockImpact.type r = "direct" ∧ StockImpact.confidence r = 1%Q.
Proof.
  intros env state. split; [reflexivity|].
  apply (company_keeps_direct_impact env state
           (Entity.mk "HDFC Bank" "COMPANY" (8 # 10))).
  - reflexivity.
  - intros i Hi. by apply elem_of_nil in Hi.
  - left.
  - reflexivity.
Defined.

Lemma find_duplicates_sound_witness :
  let env := Scenario.env Scenario.bound_globals in
  vector_store_globals env !! "SIMILARITY_THRESHOLD" = Some (9 # 10) ∧
  ∃ duplicates,
    VectorStoreManager.find_duplicates env Scenario.index_with_n1 Scenario.n2 None
      = Ok duplicates ∧
    ∀ id sim, (id, sim) ∈ duplicates -> id ≠ "N2".
Proof.
  intros env. split; [reflexivity|].
  destruct (find_duplicates_sound env Scenario.index_with_n1 Scenario.n2 None
              (9 # 10) (or_intror (conj eq_refl eq_refl)))
    as (duplicates & Hf & Hs).
  exists duplicates. split; [exact Hf|].
  intros id sim Hin. by destruct (Hs id sim Hin).
Defined.

Lemma shipped_pipeline_never_flags_witness :
  let env := Scenario.env shipped_globals in
  vector_store_globals env !! "SIMILARITY_THRESHOLD" = None ∧
  AgentState.is_duplicate
    (NewsProcessingWorkflow.process_article env Scenario.world_with_n1
       Scenario.n2).1 = false.
Proof.
  intros env. split; [reflexivity|].
  apply (shipped_pipeline_never_flags env Scenario.world_with_n1 Scenario.n2).
  reflexivity.
Defined.

Lemma resubmitted_id_changes_nothing_witness :
  let env := Scenario.env Scenario.bound_globals in
  "N1" ∈ Database.article_ids (database Scenario.world_with_n1) ∧
  (NewsProcessingWorkflow.process_article env Scenario.world_with_n1
     Scenario.n1).2 = Scenario.world_with_n1.
Proof.
  intros env.
  assert (Hin : "N1" ∈ Database.article_ids (database Scenario.world_with_n1))
    by left.
  split; [exact Hin|].
  apply (resubmitted_id_changes_nothing env Scenario.world_with_n1 Scenario.n1 Hin).
Defined.

Lemma stored_means_committed_and_indexed_witness :
  let env := Scenario.env Scenario.bound_globals in
  let state := AgentState.initial Scenario.n1 in
  AgentState.processing_metadata
    (StorageAgent.process env Scenario.empty_world state).1 !! "stored"
    = Some (MBool true) ∧
  database (StorageAgent.process env Scenario.empty_world state).2
    = database Scenario.empty_world ++ rows_of state.
Proof.
  intros env state. split; [reflexivity|].
  apply (stored_means_committed_and_indexed env Scenario.empty_world state).
  reflexivity.
Defined.

Lemma stored_article_reads_back_witness :
  let state :=
    AgentState.set_entities [Entity.mk "HDFC Bank" "COMPANY" (8 # 10)]
      (AgentState.initial Scenario.n1) in
  QueryAgent.entities_of_article [] "N1" = [] ∧
  QueryAgent.impacts_of_article [] "N1" = [] ∧
  ProcessedArticle.entities <$>
    QueryAgent.processed_of ([] ++ rows_of state) (StorageAgent.db_article state)
  = Some [Entity.mk "HDFC Bank" "COMPANY" (8 # 10)].
Proof.
  intros state. split; [reflexivity|]. split; [reflexivity|].
  destruct (stored_article_reads_back ReadScenario.renv [] state
              (QueryRequest.mk "HDFC" 5 false None None) ["N1"] eq_refl eq_refl)
    as [-> _].
  reflexivity.
Defined.

Lemma statistics_follow_storage_witness :
  let env := Scenario.env Scenario.bound_globals in
  let state := AgentState.initial Scenario.n1 in
  ∃ before after,
    Api.get_statistics env Scenario.empty_world = Response before ∧
    Api.get_statistics env
      (mkWorld VectorStoreManager.empty
         (database Scenario.empty_world ++ rows_of state)) = Response after ∧
    Api.total_articles after = S (Api.total_articles before).
Proof.
  intros env state. eexists. eexists.
  split; [reflexivity|]. split; [reflexivity|].
  apply (statistics_follow_storage env Scenario.empty_world
           VectorStoreManager.empty state); reflexivity.
Defined.

Lemma shipped_ingest_answers_500_witness :
  let env := Scenario.env_llm_answers shipped_globals in
  vector_store_globals env !! "SIMILARITY_THRESHOLD" = None ∧
  AgentState.processing_metadata
    (NewsProcessingWorkflow.process_article env Scenario.empty_world
       Scenario.n1).1 !! "stored" = Some (MBool true) ∧
  (Api.ingest_article env ReadScenario.renv Scenario.empty_world Scenario.n1).1 =
    HTTPException 500 "500: name 'SIMILARITY_THRESHOLD' is not defined".
Proof.
  intros env. split; [reflexivity|]. split; [reflexivity|].
  destruct (shipped_ingest_answers_500 env ReadScenario.renv Scenario.empty_world
              Scenario.n1 [("HDFC Bank", "ORG")]
              [Entity.mk "hdfc bank" "COMPANY" (9 # 10);
               Entity.mk "Sashidhar Jagdishan" "PERSON" (85 # 100)]
              eq_refl eq_refl eq_refl eq_refl)
    as [-> _].
  reflexivity.
Defined.
